(** * OpenCANalyzer: the log loader and the trace view, embedded and verified

    The development follows the two source files:
    - [can_loader.py], class [CANLoader]: the three log dialects, the mock
      recording, the bus database slot, the decode cache and the signal
      traces;
    - [ui_main.py], class [MainWindow]: the trace view with its per-byte and
      per-signal colouring, stepping, playback, the slider (jump, drag and
      range), the refresh of the table and the click on a row.

    Python integers are [Z]; timestamps, Python floats in the source, are
    exact rationals [Q] (rounding is not modelled); text is [string], read as
    ASCII; dictionaries are stdpp's [gmap]. *)

From Stdlib Require Import ZArith QArith Lqa String Ascii List Lia Sorted.
From stdpp Require Import gmap strings list pretty.

Local Open Scope string_scope.
Local Open Scope Z_scope.

(** ** Python text primitives *)

Module Py.

(** [str.isspace] on ASCII: tab, line feed, vertical tab, form feed, carriage
    return, the four separators 0x1c-0x1f and the blank. *)
Definition is_space (c : ascii) : bool :=
  let n := Z.of_nat (nat_of_ascii c) in
  ((9 <=? n) && (n <=? 13)) || ((28 <=? n) && (n <=? 32)).

Definition chars (s : string) : list ascii := list_ascii_of_string s.
Definition text (cs : list ascii) : string := string_of_list_ascii cs.

Fixpoint lstrip (cs : list ascii) : list ascii :=
  match cs with
  | c :: cs' => if is_space c then lstrip cs' else cs
  | [] => []
  end.

(** [s.strip()] *)
Definition strip (s : string) : string :=
  text (rev (lstrip (rev (lstrip (chars s))))).

(** [s.startswith(p)] *)
Definition startswith (s p : string) : bool := String.prefix p s.

(** [s.split()]: the maximal runs of non-blank characters. [cur] holds the
    run being read, last character first. *)
Fixpoint split_ws (cs cur : list ascii) : list string :=
  match cs with
  | [] => match cur with [] => [] | _ => [text (rev cur)] end
  | c :: cs' =>
      if is_space c
      then match cur with
           | [] => split_ws cs' []
           | _ => text (rev cur) :: split_ws cs' []
           end
      else split_ws cs' (c :: cur)
  end.

Definition split (s : string) : list string := split_ws (chars s) [].

(** [s.split(sep)] for a one-character separator: empty fields are kept. *)
Fixpoint split_on (sep : ascii) (cs cur : list ascii) : list string :=
  match cs with
  | [] => [text (rev cur)]
  | c :: cs' =>
      if Ascii.eqb c sep
      then text (rev cur) :: split_on sep cs' []
      else split_on sep cs' (c :: cur)
  end.

Definition split_char (sep : ascii) (s : string) : list string :=
  split_on sep (chars s) [].

(** ["".join(parts)] *)
Definition join (parts : list string) : string :=
  fold_right String.append "" parts.

(** ['x' in s] *)
Definition contains (c : ascii) (s : string) : bool :=
  existsb (Ascii.eqb c) (chars s).

(** [l[start:stop]] on a list: negative bounds count from the end, and both
    are clamped to the list. *)
Definition slice_bound (n i : Z) : Z :=
  let j := if i <? 0 then i + n else i in
  Z.max 0 (Z.min n j).

Definition slice {A} (l : list A) (start stop : Z) : list A :=
  let n := Z.of_nat (length l) in
  let a := slice_bound n start in
  let b := slice_bound n stop in
  firstn (Z.to_nat (b - a)) (skipn (Z.to_nat a) l).

(** Value of a digit character, as [int] reads it in bases up to 36. *)
Definition digit_value (c : ascii) : option Z :=
  let n := Z.of_nat (nat_of_ascii c) in
  if (48 <=? n) && (n <=? 57) then Some (n - 48)
  else if (97 <=? n) && (n <=? 122) then Some (n - 87)
  else if (65 <=? n) && (n <=? 90) then Some (n - 55)
  else None.

(** The digits of a literal: digits below [base], single underscores between
    them, no underscore at the end. [us] tells that the previous character
    was an underscore. *)
Fixpoint scan_digits (base : Z) (us : bool) (acc : Z) (cs : list ascii)
  : option Z :=
  match cs with
  | [] => if us then None else Some acc
  | c :: cs' =>
      if Ascii.eqb c "_"
      then if us then None else scan_digits base true acc cs'
      else match digit_value c with
           | Some d =>
               if d <? base then scan_digits base false (acc * base + d) cs'
               else None
           | None => None
           end
  end.

Definition literal (base : Z) (cs : list ascii) : option Z :=
  match cs with
  | [] => None
  | c :: _ => if Ascii.eqb c "_" then None else scan_digits base false 0 cs
  end.

(** After the sign, base 16 accepts a [0x] or [0X] prefix, and one underscore
    right after it. *)
Definition skip_prefix (base : Z) (cs : list ascii) : list ascii :=
  match cs with
  | c0 :: c1 :: rest =>
      if (base =? 16) && Ascii.eqb c0 "0"
         && (Ascii.eqb c1 "x" || Ascii.eqb c1 "X")
      then match rest with
           | c2 :: rest' => if Ascii.eqb c2 "_" then rest' else rest
           | [] => rest
           end
      else cs
  | _ => cs
  end.

(** [int(s, base)] for base 10 or 16; [None] stands for [ValueError]. *)
Definition int_base (base : Z) (s : string) : option Z :=
  match chars (strip s) with
  | c :: cs =>
      if Ascii.eqb c "-" then Z.opp <$> literal base (skip_prefix base cs)
      else if Ascii.eqb c "+" then literal base (skip_prefix base cs)
      else literal base (skip_prefix base (c :: cs))
  | [] => None
  end.

Definition int (s : string) : option Z := int_base 10 s.
Definition int16 (s : string) : option Z := int_base 16 s.

(** [if len(s) % 2 != 0: s = "0" + s] *)
Definition pad_even (s : string) : string :=
  if Nat.even (String.length s) then s else "0" +:+ s.

(** [[s[i:i+2] for i in range(0, len(s), 2)]] *)
Fixpoint pairs (cs : list ascii) : list string :=
  match cs with
  | a :: b :: cs' => text [a; b] :: pairs cs'
  | [a] => [text [a]]
  | [] => []
  end.

(** The blanks [bytes.fromhex] passes over between two bytes. *)
Definition is_blank (c : ascii) : bool :=
  let n := Z.of_nat (nat_of_ascii c) in
  ((9 <=? n) && (n <=? 13)) || (n =? 32).

Definition hex_value (c : ascii) : option Z :=
  match digit_value c with
  | Some d => if d <? 16 then Some d else None
  | None => None
  end.

(** [bytes.fromhex]: [hi] is the first digit of the byte being read. *)
Fixpoint fromhex_from (hi : option Z) (cs : list ascii) : option (list Z) :=
  match cs with
  | [] => match hi with None => Some [] | Some _ => None end
  | c :: cs' =>
      match hi with
      | None =>
          if is_blank c then fromhex_from None cs'
          else h ← hex_value c; fromhex_from (Some h) cs'
      | Some h =>
          l ← hex_value c; r ← fromhex_from None cs'; Some ((h * 16 + l) :: r)
      end
  end.

Definition fromhex (s : string) : option (list Z) :=
  fromhex_from None (chars s).

(** The hex digits of a number that is not negative, most significant first,
    as the format codes [X] (capitals) and [x] write them. [fuel] bounds the
    number of digits. *)
Definition hex_char (upper : bool) (d : Z) : ascii :=
  ascii_of_nat
    (Z.to_nat (if d <? 10 then 48 + d
               else if upper then 55 + d else 87 + d)).

Fixpoint hex_from (upper : bool) (fuel : nat) (n : Z) (acc : list ascii)
  : list ascii :=
  match fuel with
  | O => acc
  | S fuel' =>
      let acc' := hex_char upper (n mod 16) :: acc in
      if n <? 16 then acc' else hex_from upper fuel' (n / 16) acc'
  end.

Definition hex_digits (upper : bool) (n : Z) : list ascii :=
  hex_from upper (S (Z.to_nat (Z.log2 n))) n [].

(** [f"{n:X}"]: a negative number is written with its sign. *)
Definition format_X (n : Z) : string :=
  if n <? 0 then text ("-"%char :: hex_digits true (- n))
  else text (hex_digits true n).

(** [f"{n:016x}"] for a number that is not negative: zeros in front, up to
    sixteen characters. *)
Definition format_016x (n : Z) : string :=
  let ds := hex_digits false n in
  text (replicate (16 - length ds) "0"%char ++ ds).

(** A character these formats write. *)
Definition hexish (c : ascii) : Prop :=
  ∃ upper d, 0 ≤ d < 16 ∧ c = hex_char upper d.

End Py.

(** ** Frames *)

(** One row of the frame table, with the five keys the loaders write. *)
Record Frame := mkFrame {
  Timestamp : Q;
  ID : Z;
  DLC : Z;
  Data : string;
  Channel : Z
}.

(** ** The vendor text dialect ([CANLoader._load_busmaster]) *)

Module Busmaster.

(** [h * 3600 + m * 60 + s + (ms / 10000.0)] *)
Definition seconds (h m s ms : Z) : Q :=
  (inject_Z (h * 3600 + m * 60 + s) + inject_Z ms / inject_Z 10000)%Q.

(** The four fields of a time token, when it has four and all are integers.
    [Some None] is the token with another number of fields, which the loop
    passes over without an error; [None] is a field [int] refuses. *)
Definition time_fields (tok : string) : option (option (Z * Z * Z * Z)) :=
  match Py.split_char ":" tok with
  | [a; b; c; d] =>
      h ← Py.int a; m ← Py.int b; s ← Py.int c; ms ← Py.int d;
      Some (Some (h, m, s, ms))
  | _ => Some None
  end.

(** [rel_time]: the distance to the base, a day later when negative. *)
Definition rel_time (secs base : Q) : Q :=
  let r := (secs - base)%Q in
  if Qle_bool 0 r then r else (r + inject_Z (24 * 3600))%Q.

(** The body of the [try] block once the time is read: identifier, declared
    length, payload and channel, in the order the source evaluates them. *)
Definition frame_of_parts (parts : list string) (rel : Q) : option Frame :=
  can_id ← Py.int16 (nth 3 parts "");
  dlc ← Py.int (nth 5 parts "");
  let data_hex := Py.join (Py.slice parts 6 (6 + dlc)) in
  channel ← Py.int (nth 2 parts "");
  Some (mkFrame rel can_id dlc data_hex channel).

(** One turn of the loop over the lines: the base time after the line and the
    frame appended, if any. The base is stored as soon as the time token is
    read, before the other fields are looked at. *)
Definition parse_line (base : option Q) (line : string)
  : option Q * option Frame :=
  let line := Py.strip line in
  if (line =? "")%string || Py.startswith line "***" then (base, None)
  else
    let parts := Py.split line in
    if Z.of_nat (length parts) <? 6 then (base, None)
    else match time_fields (nth 0 parts "") with
         | Some (Some (h, m, s, ms)) =>
             let secs := seconds h m s ms in
             let base' := match base with Some b => b | None => secs end in
             (Some base', frame_of_parts parts (rel_time secs base'))
         | _ => (base, None)
         end.

(** The loop: [data_list] in file order. *)
Fixpoint parse_lines (base : option Q) (lines : list string) : list Frame :=
  match lines with
  | [] => []
  | line :: rest =>
      let '(base', f) := parse_line base line in
      match f with
      | Some fr => fr :: parse_lines base' rest
      | None => parse_lines base' rest
      end
  end.

(** *** Notions used to state the parser's properties *)

(** The tokens of a line the loop goes on with: neither empty nor a comment,
    and at least six tokens. *)
Definition tokens (line : string) : option (list string) :=
  let line := Py.strip line in
  if (line =? "")%string || Py.startswith line "***" then None
  else let parts := Py.split line in
       if Z.of_nat (length parts) <? 6 then None else Some parts.

(** The absolute time of a line whose time token is valid. *)
Definition timed (line : string) : option Q :=
  parts ← tokens line;
  match time_fields (nth 0 parts "") with
  | Some (Some (h, m, s, ms)) => Some (seconds h m s ms)
  | _ => None
  end.

(** The zero reference of a file: the absolute time of its first line with a
    valid time token. *)
Definition zero_reference (ls : list string) : option Q :=
  head (omap timed ls).

(** The frame of a line once the reference is known. *)
Definition emit (base : option Q) (line : string) : option Frame :=
  b ← base; parts ← tokens line; secs ← timed line;
  frame_of_parts parts (rel_time secs b).

(** The base time after a line. *)
Definition next_base (base : option Q) (line : string) : option Q :=
  match base with Some b => Some b | None => timed line end.

(** A frame without its time stamp. *)
Definition untimed (f : Frame) : Z * Z * string * Z :=
  (ID f, DLC f, Data f, Channel f).

(** What a line contributes apart from its time stamp. *)
Definition line_content (line : string) : option (Z * Z * string * Z) :=
  untimed <$> emit (Some 0%Q) line.

(** A line one of whose numeric tokens is refused: a field of a four-field
    time token, the channel, the identifier or the declared length. *)
Definition bad_number (parts : list string) : Prop :=
  time_fields (nth 0 parts "") = None
  ∨ Py.int (nth 2 parts "") = None
  ∨ Py.int16 (nth 3 parts "") = None
  ∨ Py.int (nth 5 parts "") = None.

(** The time token of a line, when it has four integer fields, is a time of
    day in hours, minutes, seconds and tenths of a millisecond. *)
Definition time_of_day (line : string) : Prop :=
  ∀ parts h m s ms,
    tokens line = Some parts →
    time_fields (nth 0 parts "") = Some (Some (h, m, s, ms)) →
    0 ≤ h < 24 ∧ 0 ≤ m < 60 ∧ 0 ≤ s < 60 ∧ 0 ≤ ms < 10000.

End Busmaster.

(** ** Exceptions and state *)

Inductive Exn :=
  KeyError | IndexError | ValueError | TypeError | AttributeError | OSError.

Inductive Result (A : Type) :=
  | Return (a : A)
  | Raise (e : Exn).
Arguments Return {A} a.
Arguments Raise {A} e.

(** A method of an object with fields [S]: it returns or raises, and in both
    cases leaves a state behind. What was assigned before an exception stays
    assigned. *)
Definition Run (S A : Type) : Type := S → Result A * S.

Definition ret {S A} (a : A) : Run S A := λ s, (Return a, s).
Definition raise {S A} (e : Exn) : Run S A := λ s, (Raise e, s).
Definition bind {S A B} (c : Run S A) (k : A → Run S B) : Run S B :=
  λ s, match c s with
       | (Return a, s') => k a s'
       | (Raise e, s') => (Raise e, s')
       end.
Definition get {S} : Run S S := λ s, (Return s, s).
Definition modify {S} (f : S → S) : Run S unit := λ s, (Return tt, f s).
Definition of_option {S A} (e : Exn) (o : option A) : Run S A :=
  match o with Some a => ret a | None => raise e end.

(** [try: c  except Exception: h] *)
Definition try_except {S A} (c : Run S A) (h : Run S A) : Run S A :=
  λ s, match c s with
       | (Return a, s') => (Return a, s')
       | (Raise _, s') => h s'
       end.

Notation "x <- c ;; k" := (bind c (λ x, k))
  (at level 100, c at next level, right associativity).
Notation "c ;; k" := (bind c (λ _, k))
  (at level 100, right associativity).

(** ** The frame table ([pandas.DataFrame]) *)

Inductive Cell :=
  | CInt (z : Z)
  | CFloat (q : Q)
  | CStr (s : string)
  | CNaN.

Record DataFrame := mkDF {
  columns : list string;
  rows : list (list Cell)
}.

Module DF.

(** [df.empty]: no row or no column. *)
Definition empty (t : DataFrame) : bool :=
  match columns t, rows t with
  | [], _ | _, [] => true
  | _, _ => false
  end.

(** [len(df)] *)
Definition len (t : DataFrame) : Z := Z.of_nat (length (rows t)).

(** Positions of a label among the columns. *)
Fixpoint positions (name : string) (cols : list string) (i : nat) : list nat :=
  match cols with
  | [] => []
  | c :: cols' =>
      if (c =? name)%string then i :: positions name cols' (S i)
      else positions name cols' (S i)
  end.

(** [df[name]] as one column: [KeyError] when the label is absent; a label
    carried by several columns selects a table, on which the column
    operations of the source raise. *)
Definition column_index {S} (name : string) (t : DataFrame) : Run S nat :=
  match positions name (columns t) 0 with
  | [] => raise KeyError
  | [i] => ret i
  | _ => raise AttributeError
  end.

(** [df.iloc[index]]: a negative index counts from the end. *)
Definition iloc (t : DataFrame) (index : Z) : option (list Cell) :=
  let n := len t in
  if (0 <=? index) && (index <? n) then rows t !! Z.to_nat index
  else if (- n <=? index) && (index <? 0) then rows t !! Z.to_nat (index + n)
  else None.

(** [row[name]], for a label that one column carries. *)
Definition cell (t : DataFrame) (row : list Cell) (name : string)
  : option Cell :=
  match positions name (columns t) 0 with
  | [i] => row !! i
  | _ => None
  end.

(** [pd.DataFrame(data_list)] for the dictionaries the loaders append. *)
Definition frame_row (f : Frame) : list Cell :=
  [CFloat (Timestamp f); CInt (ID f); CInt (DLC f); CStr (Data f);
   CInt (Channel f)].

Definition of_frames (fs : list Frame) : DataFrame :=
  mkDF ["Timestamp"; "ID"; "DLC"; "Data"; "Channel"] (map frame_row fs).

(** Order of two cells of a sorted column: numbers by value, text by
    character order, missing values last. *)
Definition number (c : Cell) : option Q :=
  match c with
  | CInt z => Some (inject_Z z)
  | CFloat q => Some q
  | _ => None
  end.

Definition cell_leb (a b : Cell) : bool :=
  match a, b with
  | _, CNaN => true
  | CNaN, _ => false
  | CStr x, CStr y => String.leb x y
  | CStr _, _ => false
  | _, CStr _ => true
  | _, _ => match number a, number b with
            | Some x, Some y => Qle_bool x y
            | _, _ => true
            end
  end.

(** Numbers and text do not compare: such a column cannot be sorted. *)
Definition comparable (col : list Cell) : bool :=
  negb (existsb (λ c, match c with CStr _ => true | _ => false end) col
        && existsb (λ c, match number c with Some _ => true | None => false end)
             col).

Section Sort.
Context {A : Type} (leb : A → A → bool).

Fixpoint insert_sorted (x : A) (l : list A) : list A :=
  match l with
  | [] => [x]
  | y :: l' => if leb x y then x :: l else y :: insert_sorted x l'
  end.

(** Insertion from the right keeps equal keys in their input order. *)
Definition sort (l : list A) : list A := fold_right insert_sorted [] l.
End Sort.

(** [df.sort_values(name)]. The library leaves the order of rows with equal
    keys open; here they stay in table order. *)
Definition sort_values {S} (name : string) (t : DataFrame)
  : Run S DataFrame :=
  i <- column_index name t ;;
  let key (r : list Cell) := default CNaN (r !! i) in
  if comparable (map key (rows t))
  then ret (mkDF (columns t) (sort (λ r1 r2, cell_leb (key r1) (key r2)) (rows t)))
  else raise TypeError.

End DF.

(** ** The bus database ([cantools]) *)

Inductive Value :=
  | VNum (q : Q)
  | VText (s : string).

(** [a != b] on decoded values. *)
Definition value_neq (a b : Value) : bool :=
  match a, b with
  | VNum x, VNum y => negb (Qeq_bool x y)
  | VText x, VText y => negb (x =? y)%string
  | _, _ => true
  end.

(** The dictionary a message decodes to: names in definition order, each
    once. *)
Record Dict := mkDict {
  items : list (string * Value);
  items_keys : NoDup (items.*1)
}.

Record SignalDef := mkSignal {
  sig_name : string;
  sig_unit : option string
}.

Record MessageDef := mkMessage {
  msg_name : string;
  msg_signals : list SignalDef;
  (** [message.decode(data_bytes)]; [None] when it raises. *)
  msg_decode : list Z → option Dict
}.

Record Database := mkDatabase {
  (** [None] is [KeyError]. *)
  get_message_by_frame_id : Z → option MessageDef
}.

(** ** The loader ([class CANLoader]) *)

(** What [get_decoded_string] hands to the view: the decoded pairs, which it
    prints as [name: value] joined by commas, or one of the fixed labels. *)
Inductive Shown :=
  | Signals (l : list (string * Value))
  | Label (s : string).

Record CANLoader := mkLoader {
  db : option Database;
  df : DataFrame;
  decoded_cache : gmap Z Shown
}.

(** A file as the loader meets it: the lower-cased extension of its path and
    what each reader makes of it ([None]: the reader raises). *)
Record LogFile := mkFile {
  ext : string;
  lines : option (list string);
  read_csv : option DataFrame;
  LogReader : option (list Frame)
}.

Module Loader.

Definition set_db (d : option Database) (s : CANLoader) : CANLoader :=
  mkLoader d (df s) (decoded_cache s).
Definition set_df (t : DataFrame) (s : CANLoader) : CANLoader :=
  mkLoader (db s) t (decoded_cache s).
Definition set_cache (c : gmap Z Shown) (s : CANLoader) : CANLoader :=
  mkLoader (db s) (df s) c.

Definition __init__ : CANLoader :=
  mkLoader None (mkDF ["Timestamp"; "ID"; "Data"; "Channel"; "DLC"] []) ∅.

(** [load_dbc]: [loaded] is what [cantools.database.load_file] returns. *)
Definition load_dbc (loaded : option Database) : Run CANLoader bool :=
  try_except
    (d <- of_option OSError loaded ;;
     modify (set_db (Some d)) ;;
     ret true)
    (ret false).

Definition _load_busmaster (file : LogFile) : Run CANLoader bool :=
  ls <- of_option OSError (lines file) ;;
  let data_list := Busmaster.parse_lines None ls in
  match data_list with
  | [] => ret false
  | _ =>
      modify (set_df (DF.of_frames data_list)) ;;
      modify (set_cache ∅) ;;
      ret true
  end.

(** [c.strip().lower()] *)
Definition lower_char (c : ascii) : ascii :=
  let n := nat_of_ascii c in
  if (65 <=? n)%nat && (n <=? 90)%nat then ascii_of_nat (n + 32) else c.

Definition lower (s : string) : string :=
  Py.text (map lower_char (Py.chars s)).

Definition col_map : list (string * string) :=
  [("time", "Timestamp"); ("timestamp", "Timestamp");
   ("id", "ID"); ("can_id", "ID"); ("identifier", "ID");
   ("dlc", "DLC"); ("len", "DLC"); ("length", "DLC");
   ("data", "Data"); ("payload", "Data")].

Fixpoint lookup_alias (m : list (string * string)) (c : string) : string :=
  match m with
  | [] => c
  | (k, v) :: m' => if (k =? c)%string then v else lookup_alias m' c
  end.

(** [df.rename(columns=col_map)] *)
Definition rename (t : DataFrame) : DataFrame :=
  mkDF (map (lookup_alias col_map) (columns t)) (rows t).

Definition normalize_columns (t : DataFrame) : DataFrame :=
  mkDF (map (λ c, lower (Py.strip c)) (columns t)) (rows t).

(** [dtype == object]: the column holds text. *)
Definition is_object (col : list Cell) : bool :=
  existsb (λ c, match c with CStr _ => true | _ => false end) col.

(** [int(x, 16) if 'x' in x else int(x)] on [str] of the cell. The text of a
    float or of a missing value is no integer literal. *)
Definition clean_id (c : Cell) : option Cell :=
  match c with
  | CStr x => CInt <$> (if Py.contains "x" x then Py.int16 x else Py.int x)
  | CInt z => Some (CInt z)
  | CFloat _ | CNaN => None
  end.

Definition set_column (i : nat) (col : list Cell) (t : DataFrame)
  : DataFrame :=
  mkDF (columns t) (zip_with (λ r c, <[i := c]> r) (rows t) col).

Definition _load_csv (file : LogFile) : Run CANLoader bool :=
  t <- of_option OSError (read_csv file) ;;
  modify (set_df t) ;;
  modify (λ s, set_df (normalize_columns (df s)) s) ;;
  modify (λ s, set_df (rename (df s)) s) ;;
  s <- get ;;
  i <- DF.column_index "ID" (df s) ;;
  let col := map (λ r, default CNaN (r !! i)) (rows (df s)) in
  (if is_object col
   then col' <- of_option ValueError (mapM clean_id col) ;;
        modify (λ s, set_df (set_column i col' (df s)) s)
   else ret tt) ;;
  s <- get ;;
  sorted <- DF.sort_values "Timestamp" (df s) ;;
  modify (set_df sorted) ;;
  modify (set_cache ∅) ;;
  ret true.

(** [self.df['Timestamp'] - first_ts] *)
Definition shift (first_ts : Q) (f : Frame) : Frame :=
  mkFrame (Timestamp f - first_ts)%Q (ID f) (DLC f) (Data f) (Channel f).

Definition _load_can_log (file : LogFile) : Run CANLoader bool :=
  data_list <- of_option OSError (LogReader file) ;;
  match data_list with
  | [] => ret false
  | first :: _ =>
      modify (set_df (DF.of_frames (map (shift (Timestamp first)) data_list))) ;;
      modify (set_cache ∅) ;;
      ret true
  end.

Definition by_extension (file : LogFile) : Run CANLoader bool :=
  if (ext file =? ".csv")%string then _load_csv file
  else if existsb (String.eqb (ext file)) [".asc"; ".log"; ".blf"]
       then _load_can_log file
       else ret false.

Definition load_log (file : LogFile) : Run CANLoader bool :=
  try_except
    (if (ext file =? ".log")%string
     then ls <- of_option OSError (lines file) ;;
          let header := hd "" ls in
          if Py.startswith header "***BUSMASTER" then _load_busmaster file
          else by_extension file
     else by_extension file)
    (ret false).

(** [generate_mock_data]: [drawn] stands for the frames the random draws
    give. *)
Definition generate_mock_data (drawn : list Frame) : Run CANLoader unit :=
  modify (set_df (DF.of_frames drawn)).

(** [np.cumsum], from the sum so far. *)
Fixpoint cumsum (acc : Q) (steps : list Q) : list Q :=
  match steps with
  | [] => []
  | x :: steps' => (acc + x)%Q :: cumsum (acc + x)%Q steps'
  end.

(** [ids = [0x100, 0x101, 0x200]] *)
Definition mock_ids : list Z := [256; 257; 512].

(** The frames of [generate_mock_data], draw by draw: [draws] holds, for
    each frame, the step [uniform(0.001, 0.05)] gave, the identifier
    [random.choice] took and the integer [getrandbits(64)] returned. *)
Definition mock_frames (draws : list (Q * Z * Z)) : list Frame :=
  zip_with (λ t '(_, cid, data_int),
              mkFrame t cid 8 (Py.format_016x data_int) 1)
    (cumsum 0 (map (λ d, d.1.1) draws)) draws.

(** [decode_message]. The database is asked with an integer identifier; any
    other cell makes the lookup raise something else than [KeyError]. *)
Definition decode_message (s : CANLoader) (can_id : Cell)
  (data_bytes : list Z) : Shown :=
  match db s with
  | None => Label "No DBC Loaded"
  | Some d =>
      match can_id with
      | CInt z =>
          match get_message_by_frame_id d z with
          | None => Label "Unknown ID"
          | Some message =>
              match msg_decode message data_bytes with
              | Some decoded => Signals (items decoded)
              | None => Label "Decode Error"
              end
          end
      | _ => Label "Decode Error"
      end
  end.

(** [get_frame_by_index] *)
Definition get_frame_by_index (s : CANLoader) (index : Z)
  : option (list Cell) :=
  if (0 <=? index) && (index <? DF.len (df s)) then DF.iloc (df s) index
  else None.

(** [str(row['Data']).strip()], padded to an even length. The text of a
    float or of a missing value always holds a character that is no hex
    digit, so it is left out. *)
Definition data_text (c : Cell) : option string :=
  match c with
  | CStr s => Some (Py.pad_even (Py.strip s))
  | CInt z => Some (Py.pad_even (pretty z))
  | CFloat _ | CNaN => None
  end.

Definition get_decoded_string (index : Z) : Run CANLoader Shown :=
  s <- get ;;
  match decoded_cache s !! index with
  | Some res => ret res
  | None =>
      row <- of_option IndexError (DF.iloc (df s) index) ;;
      can_id <- of_option KeyError (DF.cell (df s) row "ID") ;;
      data <- of_option KeyError (DF.cell (df s) row "Data") ;;
      match data_text data ≫= Py.fromhex with
      | None => ret (Label "Invalid Data")
      | Some data_bytes =>
          let res := decode_message s can_id data_bytes in
          modify (set_cache (<[index := res]> (decoded_cache s))) ;;
          ret res
      end
  end.

(** The outcome a caller of a loader may rely on: on success the database is
    kept and the cache is empty, otherwise nothing has changed. *)
Definition clean (s : CANLoader) (out : Result bool * CANLoader) : Prop :=
  match out with
  | (Return true, s') => db s' = db s ∧ decoded_cache s' = ∅
  | (_, s') => s' = s
  end.

(** [get_signals_for_id]: the names the database lists for the identifier;
    none without a database or when the lookup raises. *)
Definition get_signals_for_id (s : CANLoader) (can_id : Z) : list string :=
  match db s with
  | None => []
  | Some d =>
      match get_message_by_frame_id d can_id with
      | Some msg => sig_name <$> msg_signals msg
      | None => []
      end
  end.

(** [df['ID'] == can_id] on one cell: text and missing values equal no
    number. *)
Definition cell_is (can_id : Z) (c : Cell) : bool :=
  match c with
  | CInt z => z =? can_id
  | CFloat q => Qeq_bool q (inject_Z can_id)
  | CStr _ | CNaN => false
  end.

(** [decoded[signal_name]], [None] when the name is not a key. *)
Definition dict_get (decoded : list (string * Value)) (name : string)
  : option Value :=
  snd <$> find (λ kv, (kv.1 =? name)%string) decoded.

(** The body of the [try] block of [get_signal_trace] on one row: the point
    it appends, [None] when it appends nothing or anything raises. The
    payload is handed to [bytes.fromhex] as it is, so it has to be text. *)
Definition trace_point (s : CANLoader) (can_id : Z) (signal_name : string)
  (row : list Cell) : option (Cell * Value) :=
  match DF.cell (df s) row "Data" with
  | Some (CStr data) =>
      data_bytes ← Py.fromhex data;
      match decode_message s (CInt can_id) data_bytes with
      | Signals decoded =>
          v ← dict_get decoded signal_name;
          ts ← DF.cell (df s) row "Timestamp";
          Some (ts, v)
      | Label _ => None
      end
  | _ => None
  end.

(** [get_signal_trace], on a table in which at most one column is labelled
    [ID]: the two lists grow together, row by row. *)
Definition get_signal_trace (can_id : Z) (signal_name : string)
  : Run CANLoader (list Cell * list Value) :=
  s <- get ;;
  if DF.empty (df s) then ret ([], [])
  else
    i <- DF.column_index "ID" (df s) ;;
    let subset :=
      List.filter (λ r, cell_is can_id (default CNaN (r !! i)))
        (rows (df s)) in
    ret (foldl
           (λ '(timestamps, values) row,
              match trace_point s can_id signal_name row with
              | Some (ts, v) =>
                  ((timestamps ++ [ts])%list, (values ++ [v])%list)
              | None => (timestamps, values)
              end)
           (([] : list Cell), ([] : list Value)) subset).

(** A row with its identifier cell cleaned. *)
Definition clean_row (i : nat) (r : list Cell) : list Cell :=
  match clean_id (default CNaN (r !! i)) with
  | Some c => <[i := c]> r
  | None => r
  end.

(** What [get_decoded_string] computes for an index when nothing is
    cached. *)
Definition uncached (index : Z) (s : CANLoader) : Result Shown :=
  (get_decoded_string index (set_cache ∅ s)).1.

(** Every cached text is the one that would be computed now. *)
Definition cache_sound (s : CANLoader) : Prop :=
  ∀ index res, decoded_cache s !! index = Some res →
    uncached index s = Return res.

End Loader.

(** ** The trace view ([class MainWindow]) *)

(** The three colours of a byte lane or of a signal: the source writes them
    0 (gray), 1 (red) and 2 (yellow). *)
Inductive Colour := Gray | Red | Yellow.

Abbreviation Fresh := Gray (only parsing).
Abbreviation Changed := Red (only parsing).
Abbreviation Settled := Yellow (only parsing).

#[export] Instance Colour_eq_dec : EqDecision Colour.
Proof. solve_decision. Defined.

(** A message row of the tree: its texts and the coloured bytes of its
    label. *)
Record MessageItem := mkItem {
  item_time : Q;
  item_channel : Z;
  item_name : string;
  item_dlc : Z;
  item_html : list (string * Colour)
}.

(** A signal row: name and, once a value was shown, value, unit and colour. *)
Record SignalItem := mkSigItem {
  sitem_name : string;
  sitem_html : option (Value * string * Colour)
}.

(** The fields grouped in the source under "Trace Window State", with the
    top-level rows of the tree in the order they were added. *)
Record Trace := mkTrace {
  tree : list Z;
  message_items : gmap Z MessageItem;
  signal_items : gmap (Z * string) SignalItem;
  last_data : gmap Z string;
  last_signals : gmap (Z * string) Value;
  byte_states : gmap Z (list Colour);
  signal_states : gmap (Z * string) Colour
}.

Record Slider := mkSlider {
  slider_value : Z;
  slider_min : Z;
  slider_max : Z
}.

(** The window. [loader_df] is [self.loader.df] as the view reads it, row by
    row through the five keys; [lbl_time] and [plot_line] hold the time last
    shown. *)
Record MainWindow := mkWindow {
  loader_df : list Frame;
  loader_db : option Database;
  current_index : Z;
  is_playing : bool;
  trace : Trace;
  slider : Slider;
  lbl_time : option Q;
  plot_line : option Q
}.

Module UI.

Definition empty_trace : Trace := mkTrace [] ∅ ∅ ∅ ∅ ∅ ∅.

Definition __init__ : MainWindow :=
  mkWindow [] None 0 false empty_trace (mkSlider 0 0 99) None None.

Definition set_trace (t : Trace) (w : MainWindow) : MainWindow :=
  mkWindow (loader_df w) (loader_db w) (current_index w) (is_playing w) t
    (slider w) (lbl_time w) (plot_line w).
Definition set_current_index (i : Z) (w : MainWindow) : MainWindow :=
  mkWindow (loader_df w) (loader_db w) i (is_playing w) (trace w)
    (slider w) (lbl_time w) (plot_line w).
Definition set_is_playing (b : bool) (w : MainWindow) : MainWindow :=
  mkWindow (loader_df w) (loader_db w) (current_index w) b (trace w)
    (slider w) (lbl_time w) (plot_line w).
Definition set_slider (sl : Slider) (w : MainWindow) : MainWindow :=
  mkWindow (loader_df w) (loader_db w) (current_index w) (is_playing w)
    (trace w) sl (lbl_time w) (plot_line w).
Definition set_time (t : Q) (w : MainWindow) : MainWindow :=
  mkWindow (loader_df w) (loader_db w) (current_index w) (is_playing w)
    (trace w) (slider w) (Some t) (Some t).

(** [df.empty] and [len(df)] on the rows. *)
Definition empty (fs : list Frame) : bool :=
  match fs with [] => true | _ => false end.
Definition len (fs : list Frame) : Z := Z.of_nat (length fs).

(** [df.iloc[index]] *)
Definition iloc (fs : list Frame) (index : Z) : option Frame :=
  let n := len fs in
  if (0 <=? index) && (index <? n) then fs !! Z.to_nat index
  else if (- n <=? index) && (index <? 0) then fs !! Z.to_nat (index + n)
  else None.

(** *** [process_frame] *)

(** One lane of the colouring loop: [state] is [states[i]] as the loop finds
    it, the result is what it leaves there, which is also the colour of the
    byte in the label. *)
Definition lane (prev_bytes : list string) (i : nat) (byte_val : string)
  (state : Colour) : Colour :=
  let changed :=
    match prev_bytes !! i with
    | Some p => negb (byte_val =? p)%string
    | None => false
    end in
  if changed then Red
  else match state with
       | Red => Yellow
       | Yellow => Yellow
       | Gray => Gray
       end.

Fixpoint lanes (prev_bytes : list string) (i : nat)
  (current_bytes : list string) (states : list Colour) : list Colour :=
  match current_bytes, states with
  | byte_val :: bs, state :: ss =>
      lane prev_bytes i byte_val state :: lanes prev_bytes (S i) bs ss
  | _, _ => states
  end.

(** The state vector the loop starts from: all gray for a new identifier or
    after a change of length. *)
Definition initial_states (t : Trace) (can_id : Z) (n : nat) : list Colour :=
  let states := default (replicate n Gray) (byte_states t !! can_id) in
  if decide (length states = n) then states else replicate n Gray.

(** The message looked up when the row is created. *)
Definition lookup_message (d : option Database) (can_id : Z)
  : option MessageDef :=
  d ≫= λ d, get_message_by_frame_id d can_id.

(** Step 1 of the source: the row of the identifier, created with its signal
    rows when it is new, then its time and length texts. *)
Definition message_row (d : option Database) (row : Frame) (t : Trace)
  : Trace :=
  let can_id := ID row in
  let t1 :=
    match message_items t !! can_id with
    | Some _ => t
    | None =>
        let msg_def := lookup_message d can_id in
        let name := default "Unknown" (msg_name <$> msg_def) in
        let item :=
          mkItem (Timestamp row) (Channel row) name (DLC row) [] in
        let sigs := default [] (msg_signals <$> msg_def) in
        mkTrace (tree t ++ [can_id])
          (<[can_id := item]> (message_items t))
          (foldl (λ m sg, <[(can_id, sig_name sg) := mkSigItem (sig_name sg) None]> m)
             (signal_items t) sigs)
          (last_data t) (last_signals t) (byte_states t) (signal_states t)
    end in
  mkTrace (tree t1)
    (alter (λ it, mkItem (Timestamp row) (item_channel it) (item_name it)
                    (DLC row) (item_html it)) can_id (message_items t1))
    (signal_items t1) (last_data t1) (last_signals t1) (byte_states t1)
    (signal_states t1).

(** The byte colours, the label and [last_data]. *)
Definition byte_row (row : Frame) (t : Trace) : Trace :=
  let can_id := ID row in
  let data_str := Py.pad_even (Data row) in
  let current_bytes := Py.pairs (Py.chars data_str) in
  let prev_data_str := Py.pad_even (default "" (last_data t !! can_id)) in
  let prev_bytes := Py.pairs (Py.chars prev_data_str) in
  let states :=
    lanes prev_bytes 0 current_bytes
      (initial_states t can_id (length current_bytes)) in
  mkTrace (tree t)
    (alter (λ it, mkItem (item_time it) (item_channel it) (item_name it)
                    (item_dlc it) (zip current_bytes states))
       can_id (message_items t))
    (signal_items t)
    (<[can_id := data_str]> (last_data t))
    (last_signals t)
    (<[can_id := states]> (byte_states t))
    (signal_states t).

(** The unit shown after a value: a blank and the unit when the signal has a
    non-empty one. *)
Definition unit_text (msg_def : MessageDef) (name : string) : string :=
  match find (λ sg, (sig_name sg =? name)%string) (msg_signals msg_def) with
  | Some sg =>
      match sig_unit sg with
      | Some u => if (u =? "")%string then "" else " " +:+ u
      | None => ""
      end
  | None => ""
  end.

(** One turn of the loop over the decoded signals. *)
Definition signal_row (can_id : Z) (msg_def : MessageDef) (t : Trace)
  (kv : string * Value) : Trace :=
  let '(name, val) := kv in
  let key := (can_id, name) in
  match signal_items t !! key with
  | None => t
  | Some s_item =>
      let old_val := last_signals t !! key in
      let s_state := default Gray (signal_states t !! key) in
      let changed :=
        match old_val with
        | Some old => value_neq val old
        | None => false
        end in
      let s_state' :=
        if changed then Red
        else match s_state with
             | Red => Yellow
             | Yellow => Yellow
             | Gray => Gray
             end in
      mkTrace (tree t) (message_items t)
        (<[key := mkSigItem (sitem_name s_item)
                    (Some (val, unit_text msg_def name, s_state'))]>
           (signal_items t))
        (last_data t)
        (<[key := val]> (last_signals t))
        (byte_states t)
        (<[key := s_state']> (signal_states t))
  end.

(** Step 2 of the source: decode and colour the signals; nothing happens
    without a database or when anything in the [try] block raises. *)
Definition signal_rows (d : option Database) (row : Frame) (t : Trace)
  : Trace :=
  match d with
  | None => t
  | Some d =>
      match Py.fromhex (Py.pad_even (Data row)),
            get_message_by_frame_id d (ID row) with
      | Some data_bytes, Some msg_def =>
          match msg_decode msg_def data_bytes with
          | Some decoded =>
              foldl (signal_row (ID row) msg_def) t (items decoded)
          | None => t
          end
      | _, _ => t
      end
  end.

Definition process_row (d : option Database) (row : Frame) (t : Trace)
  : Trace :=
  signal_rows d row (byte_row row (message_row d row t)).

Definition process_frame (index : Z) : Run MainWindow unit :=
  w <- get ;;
  row <- of_option IndexError (iloc (loader_df w) index) ;;
  modify (set_trace (process_row (loader_db w) row (trace w))).

(** *** Navigation *)

(** [QSlider.setValue] with the signals blocked: the value, kept inside the
    range. *)
Definition clamp (sl : Slider) (v : Z) : Z :=
  Z.max (slider_min sl) (Z.min (slider_max sl) v).

Definition set_value (v : Z) (sl : Slider) : Slider :=
  mkSlider (clamp sl v) (slider_min sl) (slider_max sl).

Definition update_ui_common : Run MainWindow unit :=
  w <- get ;;
  modify (set_slider (set_value (current_index w) (slider w))) ;;
  row <- of_option IndexError (iloc (loader_df w) (current_index w)) ;;
  modify (set_time (Timestamp row)).

Definition step_forward : Run MainWindow unit :=
  w <- get ;;
  if empty (loader_df w) then ret tt
  else if current_index w <? len (loader_df w) - 1
       then modify (set_current_index (current_index w + 1)) ;;
            process_frame (current_index w + 1) ;;
            update_ui_common
       else ret tt.

Definition toggle_playback : Run MainWindow unit :=
  modify (λ w, set_is_playing (negb (is_playing w)) w).

(** One tick of the playback timer. *)
Definition update_playback : Run MainWindow unit :=
  w <- get ;;
  if empty (loader_df w) then ret tt
  else if current_index w <? len (loader_df w) - 1
       then modify (set_current_index (current_index w + 1)) ;;
            process_frame (current_index w + 1) ;;
            update_ui_common
       else toggle_playback.

(** The rows with their positions, [df.iloc[:val+1]] being a slice of
    them. *)
Definition indexed (fs : list Frame) : list (Z * Frame) :=
  imap (λ i f, (Z.of_nat i, f)) fs.

(** [groupby('ID').tail(1)]: the last row of each identifier, in table
    order. *)
Fixpoint tail1 (l : list (Z * Frame)) : list (Z * Frame) :=
  match l with
  | [] => []
  | x :: l' =>
      if existsb (λ y, ID y.2 =? ID x.2) l' then tail1 l'
      else x :: tail1 l'
  end.

(** [latest_frames], sorted on the time stamps. *)
Definition latest_frames (fs : list Frame) (val : Z) : list (Z * Frame) :=
  DF.sort (λ a b, Qle_bool (Timestamp a.2) (Timestamp b.2))
    (tail1 (Py.slice (indexed fs) 0 (val + 1))).

(** [self.byte_states[cid] = [0] * len(self.byte_states[cid])] *)
Definition reset_highlight (cid : Z) (t : Trace) : Trace :=
  match byte_states t !! cid with
  | Some states =>
      mkTrace (tree t) (message_items t) (signal_items t) (last_data t)
        (last_signals t)
        (<[cid := replicate (length states) Gray]> (byte_states t))
        (signal_states t)
  | None => t
  end.

Fixpoint render (l : list (Z * Frame)) : Run MainWindow unit :=
  match l with
  | [] => ret tt
  | (idx, row) :: l' =>
      process_frame idx ;;
      modify (λ w, set_trace (reset_highlight (ID row) (trace w)) w) ;;
      render l'
  end.

(** The slot of the slider's [valueChanged]. *)
Definition slider_moved (val : Z) : Run MainWindow unit :=
  w <- get ;;
  if val =? current_index w + 1 then step_forward
  else
    modify (set_current_index val) ;;
    modify (set_trace empty_trace) ;;
    render (latest_frames (loader_df w) val) ;;
    update_ui_common.

(** [QSlider.setValue] with the signals live: a change of the value calls
    the slot. *)
Definition slider_setValue (v : Z) : Run MainWindow unit :=
  w <- get ;;
  let v' := clamp (slider w) v in
  if v' =? slider_value (slider w) then ret tt
  else modify (set_slider (mkSlider v' (slider_min (slider w))
                             (slider_max (slider w)))) ;;
       slider_moved v'.

Definition step_back : Run MainWindow unit :=
  w <- get ;;
  if empty (loader_df w) then ret tt
  else if current_index w >? 0 then slider_setValue (current_index w - 1)
       else ret tt.

(** [QSlider.setRange]: the bounds and, when they changed, the value brought
    within them, which calls the slot when that changes the value. *)
Definition slider_setRange (lo hi : Z) : Run MainWindow unit :=
  w <- get ;;
  let sl := slider w in
  let hi' := Z.max lo hi in
  if (slider_min sl =? lo) && (slider_max sl =? hi') then ret tt
  else
    modify (set_slider (mkSlider (slider_value sl) lo hi')) ;;
    slider_setValue (slider_value sl).

Definition refresh_table : Run MainWindow unit :=
  modify (set_trace empty_trace) ;;
  w <- get ;;
  if empty (loader_df w) then ret tt
  else
    slider_setRange 0 (len (loader_df w) - 1) ;;
    w <- get ;;
    (if current_index w >=? len (loader_df w)
     then modify (set_current_index 0)
     else ret tt) ;;
    w <- get ;;
    process_frame (current_index w) ;;
    update_ui_common.

(** *** Dragging the slider *)

(** The window with the attribute [was_playing], which is not there before
    the slider is pressed for the first time. *)
Record Dragged := mkDragged {
  win : MainWindow;
  was_playing : option bool
}.

(** A method of the window, run on the window with the attribute. *)
Definition on_win {A} (c : Run MainWindow A) : Run Dragged A :=
  λ d, let '(r, w') := c (win d) in (r, mkDragged w' (was_playing d)).

Definition slider_pressed : Run Dragged unit :=
  modify (λ d, mkDragged (win d) (Some (is_playing (win d)))) ;;
  d <- get ;;
  if is_playing (win d) then on_win toggle_playback else ret tt.

Definition slider_released : Run Dragged unit :=
  d <- get ;;
  match was_playing d with
  | Some true => on_win toggle_playback
  | _ => ret tt
  end.

(** The slot called for each value the handle passes while it is dragged. *)
Fixpoint slider_dragged (vals : list Z) : Run MainWindow unit :=
  match vals with
  | [] => ret tt
  | val :: vals' => slider_moved val ;; slider_dragged vals'
  end.

(** *** A click on a row of the tree *)

(** The text of the identifier column of a message row, written when the
    row is created. *)
Definition id_str (can_id : Z) : string := "0x" +:+ Py.format_X can_id.

(** A row of the tree: the row of an identifier, or the row of a signal
    under it. *)
Inductive TreeItem :=
  | MessageRow (can_id : Z)
  | SignalRow (can_id : Z) (name : string).

(** What a click leaves: the entries of the combo box, the text it is moved
    to, if any, and the arguments [update_plot] is called with. *)
Record Click := mkClick {
  combo_items : list string;
  combo_moved_to : option string;
  plot_id : Z;
  plot_signal : option string
}.

(** [on_tree_click]: [None] when the text of the identifier column does not
    parse and the slot returns at once. *)
Definition on_tree_click (s : CANLoader) (item : TreeItem) : option Click :=
  let '(can_id_str, signal_name) :=
    match item with
    | SignalRow can_id name => (id_str can_id, Some name)
    | MessageRow can_id => (id_str can_id, None)
    end in
  can_id ← Py.int16 can_id_str;
  let signals := Loader.get_signals_for_id s can_id in
  let named :=
    match signal_name with
    | Some name => if (name =? "")%string then None else Some name
    | None => None
    end in
  Some
    match signals with
    | [] =>
        mkClick ["Raw ID: 0x" +:+ Py.format_X can_id] None can_id named
    | first :: _ =>
        mkClick signals
          (name ← named;
           if existsb (String.eqb name) signals then Some name else None)
          can_id
          (match named with Some name => Some name | None => Some first end)
    end.

(** *** Notions used to state the view's properties *)

(** The byte lanes of a payload text. *)
Definition payload_bytes (data : string) : list string :=
  Py.pairs (Py.chars (Py.pad_even data)).

(** The lanes of the payload last seen for an identifier; none when it was
    not seen. *)
Definition known_bytes (t : Trace) (can_id : Z) : list string :=
  payload_bytes (default "" (last_data t !! can_id)).

(** The colour stored for lane [i] of an identifier. *)
Definition lane_state (t : Trace) (can_id : Z) (i : nat) : option Colour :=
  byte_states t !! can_id ≫= λ states, states !! i.

(** What an unchanged lane becomes. *)
Definition settle (c : Colour) : Colour :=
  match c with Red => Yellow | Yellow => Yellow | Gray => Gray end.

(** The state vector of an identifier has one colour for each byte of its
    last payload, and there is one exactly when a payload was seen. *)
Definition coherent (t : Trace) : Prop :=
  ∀ can_id,
    match byte_states t !! can_id, last_data t !! can_id with
    | Some states, Some data => length states = length (payload_bytes data)
    | None, None => True
    | _, _ => False
    end.

(** Every colour stored or shown is gray: the state vectors, the bytes of
    the message labels, the signal states and the signal labels. *)
Definition bytes_fresh (t : Trace) : Prop :=
  ∀ can_id states, byte_states t !! can_id = Some states →
    Forall (λ c, c = Fresh) states.

Definition items_fresh (t : Trace) : Prop :=
  ∀ can_id item, message_items t !! can_id = Some item →
    Forall (λ p, p.2 = Fresh) (item_html item).

Definition signals_fresh (t : Trace) : Prop :=
  (∀ key c, signal_states t !! key = Some c → c = Fresh)
  ∧ (∀ key item v u c, signal_items t !! key = Some item →
       sitem_html item = Some (v, u, c) → c = Fresh).

Definition all_fresh (t : Trace) : Prop :=
  bytes_fresh t ∧ items_fresh t ∧ signals_fresh t.

(** One turn of the loop of [slider_moved], on the trace. *)
Definition render_row (d : option Database) (t : Trace) (p : Z * Frame)
  : Trace :=
  reset_highlight (ID p.2) (process_row d p.2 t).

(** Nothing is recorded for an identifier. *)
Definition unknown (t : Trace) (can_id : Z) : Prop :=
  last_data t !! can_id = None
  ∧ byte_states t !! can_id = None
  ∧ message_items t !! can_id = None
  ∧ ∀ name, last_signals t !! (can_id, name) = None
            ∧ signal_states t !! (can_id, name) = None.

(** Two rows with one identifier. *)
Definition same_id (x y : Z * Frame) : Prop := ID y.2 = ID x.2.

(** The order [latest_frames] sorts on. *)
Definition by_time (a b : Z * Frame) : bool :=
  Qle_bool (Timestamp a.2) (Timestamp b.2).

(** The identifiers of a list of rows. *)
Definition ids (l : list (Z * Frame)) : list Z := (λ p, ID p.2) <$> l.

(** What holds while the loop of [slider_moved] runs: everything is gray,
    the rows of the tree are the identifiers rendered so far, in order, and
    nothing is recorded for the others. *)
Definition seek_inv (seen : list (Z * Frame)) (t : Trace) : Prop :=
  all_fresh t
  ∧ tree t = ids seen
  ∧ (∀ can_id, can_id ∉ ids seen → unknown t can_id)
  ∧ (∀ p, p ∈ seen → last_data t !! ID p.2 = Some (Py.pad_even (Data p.2))).

(** The colour the loop over the decoded signals leaves for a signal that
    has a row: red when the value differs from the one last shown,
    otherwise what the stored colour settles to. *)
Definition signal_changed (t : Trace) (key : Z * string) (val : Value)
  : bool :=
  match last_signals t !! key with
  | Some old => value_neq val old
  | None => false
  end.

Definition signal_rule (t : Trace) (key : Z * string) (val : Value)
  : Colour :=
  if signal_changed t key val then Changed
  else settle (default Fresh (signal_states t !! key)).

(** The label of a message row shows the bytes of the payload last seen for
    its identifier, each in the colour stored for its lane. *)
Definition shown_ok (t : Trace) : Prop :=
  ∀ can_id item, message_items t !! can_id = Some item →
    ∃ data states,
      last_data t !! can_id = Some data
      ∧ byte_states t !! can_id = Some states
      ∧ item_html item = zip (payload_bytes data) states.

(** The top-level rows of the tree are the identifiers that have a message
    item, each once, and these are the identifiers with a last payload. *)
Definition rows_ok (t : Trace) : Prop :=
  NoDup (tree t)
  ∧ (∀ can_id, can_id ∈ tree t ↔ is_Some (message_items t !! can_id))
  ∧ (∀ can_id,
       is_Some (message_items t !! can_id) ↔ is_Some (last_data t !! can_id)).

(** A signal row hangs under a message row; it shows the value and the
    colour stored for it, and nothing is stored for a signal that has no row
    or has shown no value yet. *)
Definition signals_ok (t : Trace) : Prop :=
  ∀ key,
    (is_Some (signal_items t !! key) → is_Some (message_items t !! key.1))
    ∧ match signal_items t !! key ≫= sitem_html with
      | Some (v, _, c) =>
          last_signals t !! key = Some v ∧ signal_states t !! key = Some c
      | None =>
          last_signals t !! key = None ∧ signal_states t !! key = None
      end.

Definition well_formed (t : Trace) : Prop :=
  coherent t ∧ shown_ok t ∧ rows_ok t ∧ signals_ok t.

(** The window points at a row of the recording, and the slider, the time
    label and the plot line show that row. *)
Definition nav_ok (w : MainWindow) : Prop :=
  0 ≤ current_index w < len (loader_df w)
  ∧ slider w = mkSlider (current_index w) 0 (len (loader_df w) - 1)
  ∧ lbl_time w
    = Timestamp <$> loader_df w !! Z.to_nat (current_index w)
  ∧ plot_line w = lbl_time w.

(** The recording and the database of [w'] are those of [w]. *)
Definition same_recording (w w' : MainWindow) : Prop :=
  loader_df w' = loader_df w ∧ loader_db w' = loader_db w.

(** [n] ticks of the playback timer. *)
Fixpoint ticks (n : nat) : Run MainWindow unit :=
  match n with
  | O => ret tt
  | S n' => update_playback ;; ticks n'
  end.

(** The payload text of the last row of each identifier in a list of
    rows. *)
Definition latest_payloads (fs : list Frame) : gmap Z string :=
  foldl (λ m f, <[ID f := Py.pad_even (Data f)]> m) ∅ fs.

End UI.

(** ** Sample inputs *)

Module Sample.

Definition line_a : string :=
  "17:48:32:9099 Rx 1 0x004 s 8 04 08 01 02 03 04 05 06".
Definition line_b : string :=
  "17:48:33:4099 Rx 1 0x004 s 8 04 08 01 02 03 04 05 07".
Definition line_short : string := "17:48:34:0000 Rx 1".

(** The time of [line_a] with an identifier that is no number. *)
Definition line_bad_id : string :=
  "17:48:32:9099 Rx 1 0xZZ s 8 04 08 01 02 03 04 05 06".
(** A line two seconds and 9099 ten-thousandths before [line_a], with an
    identifier that is no number. *)
Definition line_bad_id_early : string :=
  "17:48:30:0000 Rx 1 0xZZ s 8 04 08 01 02 03 04 05 06".
Definition line_negative : string :=
  "17:48:32:9099 Rx 1 0x004 s -7 04 08 01 02".
Definition line_few : string := "17:48:32:9099 Rx 1 0x004 s 8 zz 04".

Definition busmaster_file : LogFile :=
  mkFile ".log" (Some ["***BUSMASTER Ver 3.2.2***"; line_a; line_short])
    None None.

Definition line_c : string :=
  "17:48:35:0000 Rx 1 0x005 s 2 0A 0B".

(** The two lines of the vendor sample after a line that is skipped. *)
Definition busmaster_skipped_first : LogFile :=
  mkFile ".log"
    (Some ["***BUSMASTER Ver 3.2.2***"; line_bad_id_early; line_a; line_b])
    None None.

(** Three well-formed lines, the last one earlier than the one before. *)
Definition busmaster_unordered : LogFile :=
  mkFile ".log" (Some ["***BUSMASTER Ver 3.2.2***"; line_a; line_c; line_b])
    None None.

(** A table without an identifier column. *)
Definition csv_no_id : LogFile :=
  mkFile ".csv" None
    (Some (mkDF ["Time"; "DLC"; "Data"]
             [[CFloat (1 # 10); CInt 8; CStr "0011223344556677"]]))
    None.

(** A table with time stamps and identifiers only. *)
Definition csv_no_payload : LogFile :=
  mkFile ".csv" None
    (Some (mkDF [" Time"; "ID"]
             [[CFloat (2 # 10); CStr "0x10"]; [CFloat (1 # 10); CStr "32"]]))
    None.

(** The loader after the vendor text sample was loaded into a new one. *)
Definition loaded : CANLoader :=
  (Loader.load_log busmaster_file Loader.__init__).2.

Definition dict1 (name : string) (v : Value) : Dict :=
  mkDict [(name, v)] (NoDup_singleton name).

(** A database with one message, identifier 4, whose only signal is the
    first payload byte. *)
Definition engine : MessageDef :=
  mkMessage "Engine" [mkSignal "Speed" (Some "rpm")]
    (λ data_bytes,
       match data_bytes with
       | b :: _ => Some (dict1 "Speed" (VNum (inject_Z b)))
       | [] => None
       end).

Definition database : Database :=
  mkDatabase (λ can_id, if can_id =? 4 then Some engine else None).

(** One identifier, payloads [0102], [0202] and then the single byte
    [02]. *)
Definition shrinking : list Frame :=
  [mkFrame 0 7 2 "0102" 1; mkFrame 1 7 2 "0202" 1; mkFrame 2 7 1 "02" 1].

(** One identifier, byte 0 being [01], [02], [02]. *)
Definition steady : list Frame :=
  [mkFrame 0 7 1 "01" 1; mkFrame 1 7 1 "02" 1; mkFrame 2 7 1 "02" 1].

(** A window on a recording, as [refresh_table] leaves it before it
    processes the first frame: position 0 and the slider over the rows. *)
Definition window (fs : list Frame) (d : option Database) : MainWindow :=
  mkWindow fs d 0 false UI.empty_trace
    (mkSlider 0 0 (Z.of_nat (length fs) - 1)) None None.

(** [process_frame] called on the given indices, one after the other. *)
Definition process_all (indices : list Z) (w : MainWindow) : MainWindow :=
  foldl (λ w i, (UI.process_frame i w).2) w indices.

(** The new window once its loader holds [fs], before [refresh_table]
    runs. *)
Definition opened (fs : list Frame) : MainWindow :=
  mkWindow fs None 0 false UI.empty_trace (mkSlider 0 0 99) None None.

(** Windows on the first and on the last row of [steady], the slider and
    the time label on that row. *)
Definition at_start : MainWindow :=
  mkWindow steady None 0 false UI.empty_trace (mkSlider 0 0 2)
    (Some 0%Q) (Some 0%Q).

Definition at_end : MainWindow :=
  mkWindow steady None 2 false UI.empty_trace (mkSlider 2 0 2)
    (Some 2%Q) (Some 2%Q).

(** The loader of the vendor text sample with [database] loaded. *)
Definition decoding : CANLoader := Loader.set_db (Some database) loaded.

(** A standard log of two frames, the first at 10 s. *)
Definition asc_file : LogFile :=
  mkFile ".asc" None None
    (Some [mkFrame 10 4 1 "04" 1; mkFrame (25 # 2) 4 1 "05" 1]).

(** A table with two columns that both map to [Timestamp]. *)
Definition csv_two_times : LogFile :=
  mkFile ".csv" None
    (Some (mkDF ["time"; "Timestamp"; "id"]
             [[CFloat (1 # 10); CFloat (2 # 10); CInt 16]]))
    None.

(** Three frames of the message of [database], its signal being 4, 5 and
    5. *)
Definition speeds : list Frame :=
  [mkFrame 0 4 1 "04" 1; mkFrame 1 4 1 "05" 1; mkFrame 2 4 1 "05" 1].

End Sample.

(** * Properties *)

(** ** Sorting *)

Module DFFacts.

Section SortFacts.
Context {A : Type} (leb : A → A → bool).
Hypothesis leb_total : ∀ a b, leb a b = false → leb b a = true.
Hypothesis leb_trans :
  ∀ a b c, leb a b = true → leb b c = true → leb a c = true.

Lemma insert_sorted_perm x l : DF.insert_sorted leb x l ≡ₚ x :: l.
Proof.
  induction l as [|y l IH]; simpl; [done|].
  destruct (leb x y); [done|]. rewrite IH. apply perm_swap.
Qed.

Lemma sort_perm l : DF.sort leb l ≡ₚ l.
Proof.
  induction l as [|x l IH]; simpl; [done|].
  by rewrite insert_sorted_perm, IH.
Qed.

Lemma insert_sorted_sorted x l :
  StronglySorted (λ a b, leb a b = true) l →
  StronglySorted (λ a b, leb a b = true) (DF.insert_sorted leb x l).
Proof.
  induction 1 as [|y l Hs IH Hy]; simpl.
  { constructor; constructor. }
  destruct (leb x y) eqn:E.
  - constructor; [by constructor|]. constructor; [done|].
    eapply Forall_impl; [exact Hy|]. intros z Hz. by eapply leb_trans.
  - constructor; [done|]. apply Forall_forall. intros z Hz.
    rewrite insert_sorted_perm in Hz. apply elem_of_cons in Hz as [->|Hz].
    + by apply leb_total.
    + by eapply Forall_forall in Hy.
Qed.

Lemma sort_sorted l :
  StronglySorted (λ a b, leb a b = true) (DF.sort leb l).
Proof.
  induction l as [|x l IH]; simpl; [constructor|].
  by apply insert_sorted_sorted.
Qed.
End SortFacts.

Lemma Qle_bool_total x y : Qle_bool x y = false → Qle_bool y x = true.
Proof.
  intros E. apply Qle_bool_iff.
  destruct (Qlt_le_dec y x) as [H|H]; [by apply Qlt_le_weak|].
  apply Qle_bool_iff in H. congruence.
Qed.

Lemma Qle_bool_trans x y z :
  Qle_bool x y = true → Qle_bool y z = true → Qle_bool x z = true.
Proof. rewrite !Qle_bool_iff. apply Qle_trans. Qed.

Lemma string_leb_false x y :
  String.leb x y = false → String.leb y x = true.
Proof.
  intros E. destruct (String.leb_total x y) as [H|H]; congruence.
Qed.

Lemma string_leb_trans x y z :
  String.leb x y = true → String.leb y z = true → String.leb x z = true.
Proof.
  unfold String.leb. revert y z.
  induction x as [|a x IH]; intros [|b y] [|c z]; simpl; try done.
  unfold Ascii.compare.
  destruct (N.compare_spec (N_of_ascii a) (N_of_ascii b)) as [E1|E1|E1];
    destruct (N.compare_spec (N_of_ascii b) (N_of_ascii c)) as [E2|E2|E2];
    try done.
  - rewrite E1, E2, N.compare_refl. apply IH.
  - intros _ _. rewrite E1. by apply N.compare_lt_iff in E2 as ->.
  - intros _ _. rewrite <- E2. by apply N.compare_lt_iff in E1 as ->.
  - intros _ _. assert (N_of_ascii a < N_of_ascii c)%N as H by lia.
    by apply N.compare_lt_iff in H as ->.
Qed.

Lemma cell_leb_total a b :
  DF.cell_leb a b = false → DF.cell_leb b a = true.
Proof.
  destruct a, b; simpl; try done;
    first [apply Qle_bool_total | apply string_leb_false].
Qed.

Lemma cell_leb_trans a b c :
  DF.cell_leb a b = true → DF.cell_leb b c = true → DF.cell_leb a c = true.
Proof.
  destruct a, b, c; simpl; try done;
    first [apply Qle_bool_trans | apply string_leb_trans].
Qed.

End DFFacts.

(** ** The vendor text parser *)

Module BusmasterFacts.
Import Busmaster.

Lemma parse_line_eq base line :
  parse_line base line = (next_base base line, emit (next_base base line) line).
Proof.
  unfold parse_line, next_base, emit, timed, tokens.
  destruct ((Py.strip line =? "")%string || Py.startswith (Py.strip line) "***").
  { by destruct base. }
  destruct (Z.of_nat (length (Py.split (Py.strip line))) <? 6).
  { by destruct base. }
  simpl. destruct (time_fields _) as [[[[[h m] s] ms]|]|]; destruct base; simpl; done.
Qed.

Lemma parse_lines_based b ls :
  parse_lines (Some b) ls = omap (emit (Some b)) ls.
Proof.
  induction ls as [|line ls IH]; [done|].
  cbn [parse_lines omap list_omap]. rewrite parse_line_eq. cbn [next_base].
  rewrite IH. by destruct (emit (Some b) line).
Qed.

Lemma parse_lines_zero ls :
  parse_lines None ls = omap (emit (zero_reference ls)) ls.
Proof.
  induction ls as [|line ls IH]; [done|].
  cbn [parse_lines]. rewrite parse_line_eq. cbn [next_base].
  unfold zero_reference. cbn [omap list_omap].
  destruct (timed line) as [secs|] eqn:Ht.
  - cbn [head]. rewrite parse_lines_based.
    by destruct (emit (Some secs) line).
  - assert (He : ∀ b, emit b line = None).
    { intros [b|]; [|done]. unfold emit. simpl. rewrite Ht.
      by destruct (tokens line). }
    rewrite !He. exact IH.
Qed.


Lemma timed_inv line secs :
  timed line = Some secs →
  ∃ parts h m s ms,
    tokens line = Some parts
    ∧ time_fields (nth 0 parts "") = Some (Some (h, m, s, ms))
    ∧ secs = seconds h m s ms.
Proof.
  unfold timed. destruct (tokens line) as [parts|]; [|done]. simpl.
  destruct (time_fields _) as [[[[[h m] s] ms]|]|] eqn:Ht; [|done..].
  intros [= <-]. by exists parts, h, m, s, ms.
Qed.



Lemma emit_timestamp b line f :
  emit (Some b) line = Some f →
  ∃ secs, timed line = Some secs ∧ Timestamp f = rel_time secs b.
Proof.
  unfold emit. simpl. destruct (tokens line) as [parts|]; [|done]. simpl.
  destruct (timed line) as [secs|]; [|done]. simpl.
  unfold frame_of_parts.
  destruct (Py.int16 _); [|done]. simpl.
  destruct (Py.int (nth 5 _ _)); [|done]. simpl.
  destruct (Py.int (nth 2 _ _)); [|done]. simpl.
  intros [= <-]. by exists secs.
Qed.



(** C6, on a file whose first line is skipped. The line at 17:48:30:0000
    has an identifier that is no number: it gives no frame, and yet its time
    is the base the loop goes on with. The two lines of the claim, which
    give the first two frames of the recording, then get 2.9099 and 3.4099;
    without the skipped line they get 0 and 1/2. *)
Theorem busmaster_skipped_line_sets_reference :
  let skipped := Sample.line_bad_id_early in
  timed skipped = Some (seconds 17 48 30 0)
  ∧ parse_line None skipped = (Some (seconds 17 48 30 0), None)
  ∧ Forall2 Qeq
      (Timestamp
         <$> parse_lines None [skipped; Sample.line_a; Sample.line_b])
      [(29099 # 10000)%Q; (34099 # 10000)%Q]
  ∧ Forall2 Qeq
      (Timestamp <$> parse_lines None [Sample.line_a; Sample.line_b])
      [0%Q; (1 # 2)%Q]
  ∧ (let '(r, s) :=
       Loader.load_log Sample.busmaster_skipped_first Loader.__init__ in
     r = Return true
     ∧ df s
       = DF.of_frames
           (parse_lines None [skipped; Sample.line_a; Sample.line_b])).
Proof.
  split; [vm_compute; reflexivity|].
  split; [vm_compute; reflexivity|].
  split; [vm_compute; repeat constructor|].
  split; [vm_compute; repeat constructor|].
  vm_compute. split; reflexivity.
Qed.

Lemma untimed_emit b1 b2 line :
  untimed <$> emit (Some b1) line = untimed <$> emit (Some b2) line.
Proof.
  unfold emit. simpl. destruct (tokens line) as [parts|]; [|done]. simpl.
  destruct (timed line) as [secs|]; [|done]. simpl.
  unfold frame_of_parts.
  destruct (Py.int16 _); [|done]. simpl.
  destruct (Py.int (nth 5 _ _)); [|done]. simpl.
  by destruct (Py.int (nth 2 _ _)).
Qed.

Lemma untimed_parse_lines base ls :
  untimed <$> parse_lines base ls = omap line_content ls.
Proof.
  revert base. induction ls as [|line ls IH]; intros base; [done|].
  cbn [parse_lines omap list_omap]. rewrite parse_line_eq.
  assert (Hc : untimed <$> emit (next_base base line) line = line_content line).
  { unfold line_content. destruct (next_base base line) as [b|] eqn:Hb.
    - apply untimed_emit.
    - destruct base; [done|]. simpl in Hb. unfold emit. simpl.
      rewrite Hb. by destruct (tokens line). }
  rewrite <- Hc.
  destruct (emit (next_base base line) line); simpl; by rewrite IH.
Qed.

Lemma short_line base line :
  (length (Py.split (Py.strip line)) < 6)%nat →
  parse_line base line = (base, None).
Proof.
  intros Hlen. unfold parse_line.
  destruct (_ || _); [done|].
  destruct (Z.of_nat _ <? 6) eqn:E; [done|]. lia.
Qed.

Lemma bad_number_line base line parts :
  tokens line = Some parts → bad_number parts →
  (parse_line base line).2 = None.
Proof.
  intros Htok Hbad. rewrite parse_line_eq. simpl.
  destruct (next_base base line) as [b|]; [|done].
  unfold emit. simpl. rewrite Htok. simpl.
  unfold timed. rewrite Htok. simpl.
  destruct Hbad as [H|[H|[H|H]]].
  - by rewrite H.
  - destruct (time_fields _) as [[[[[h m] s] ms]|]|]; [|done..]. simpl.
    unfold frame_of_parts. rewrite H.
    destruct (Py.int16 _); [|done]. simpl. by destruct (Py.int (nth 5 _ _)).
  - destruct (time_fields _) as [[[[[h m] s] ms]|]|]; [|done..]. simpl.
    unfold frame_of_parts. by rewrite H.
  - destruct (time_fields _) as [[[[[h m] s] ms]|]|]; [|done..]. simpl.
    unfold frame_of_parts. rewrite H. by destruct (Py.int16 _).
Qed.

Lemma parse_lines_app base l1 l2 :
  ∃ base', parse_lines base (l1 ++ l2)
           = (parse_lines base l1 ++ parse_lines base' l2)%list
    ∧ (∀ line, (∀ b, parse_line b line = (b, None)) →
         parse_lines base (l1 ++ line :: l2)
         = (parse_lines base l1 ++ parse_lines base' l2)%list).
Proof.
  revert base. induction l1 as [|l l1 IH]; intros base.
  - exists base. split; [done|]. intros line Hl. simpl. by rewrite Hl.
  - cbn [app parse_lines]. destruct (parse_line base l) as [b' f].
    destruct (IH b') as (base' & E1 & E2). exists base'.
    destruct f; simpl; split; try intros line Hl; by rewrite ?E1, ?E2.
Qed.

(** C9. In the vendor text parser a line with fewer than six tokens is
    passed over and leaves no trace; a line with a numeric token that does
    not parse gives no frame; in both cases the lines around it are parsed
    as without it (for the second kind, up to the time stamps, since such a
    line may already have set the zero reference). The load fails only when
    the file gives no frame, and a file with one well-formed line and one
    line of three tokens loads as a table of one row. *)
Theorem busmaster_skips_malformed_lines :
  (∀ base l1 line l2,
     (length (Py.split (Py.strip line)) < 6)%nat →
     parse_line base line = (base, None)
     ∧ parse_lines base (l1 ++ line :: l2) = parse_lines base (l1 ++ l2))
  ∧ (∀ base l1 line l2 parts,
       tokens line = Some parts → bad_number parts →
       (parse_line base line).2 = None
       ∧ untimed <$> parse_lines base (l1 ++ line :: l2)
         = untimed <$> parse_lines base (l1 ++ l2))
  ∧ (∀ file ls s,
       lines file = Some ls →
       Loader._load_busmaster file s
       = match parse_lines None ls with
         | [] => (Return false, s)
         | fs => (Return true, mkLoader (db s) (DF.of_frames fs) ∅)
         end)
  ∧ (let '(r, s) := Loader.load_log Sample.busmaster_file Loader.__init__ in
     r = Return true ∧ DF.len (df s) = 1).
Proof.
  split.
  { intros base l1 line l2 Hlen. split; [by apply short_line|].
    destruct (parse_lines_app base l1 l2) as (base' & -> & E).
    apply E. intros b. by apply short_line. }
  split.
  { intros base l1 line l2 parts Htok Hbad.
    split; [by eapply bad_number_line|].
    rewrite !untimed_parse_lines, !omap_app. cbn [omap list_omap].
    assert (line_content line = None) as ->; [|done].
    unfold line_content.
    pose proof (bad_number_line (Some 0%Q) line parts Htok Hbad) as H.
    rewrite parse_line_eq in H. cbn [snd next_base] in H. by rewrite H. }
  split.
  { intros file ls s Hls. unfold Loader._load_busmaster, bind, of_option.
    rewrite Hls. unfold ret at 1.
    by destruct (parse_lines None ls). }
  vm_compute. done.
Qed.

Lemma busmaster_skips_malformed_lines_witness :
  parse_line None Sample.line_short = (None, None)
  ∧ parse_lines None [Sample.line_a; Sample.line_short; Sample.line_b]
    = parse_lines None [Sample.line_a; Sample.line_b].
Proof.
  apply (proj1 busmaster_skips_malformed_lines
           None [Sample.line_a] Sample.line_short [Sample.line_b]).
  vm_compute. lia.
Defined.

Lemma slice_data (head data : list string) (dlc : Z) :
  length head = 6%nat → 0 ≤ dlc →
  Py.slice (head ++ data) 6 (6 + dlc) = firstn (Z.to_nat dlc) data.
Proof.
  intros Hh Hd. unfold Py.slice, Py.slice_bound.
  rewrite length_app, Hh.
  replace (6 <? 0) with false by done.
  replace (6 + dlc <? 0) with false by (symmetry; apply Z.ltb_ge; lia).
  replace (Z.to_nat (Z.max 0 (Z.min (Z.of_nat (6 + length data)) 6)))
    with (length head) by lia.
  rewrite drop_app_length.
  destruct (decide (Z.of_nat (length data) ≤ dlc)) as [Hge|Hlt].
  - rewrite !firstn_all2; [done|lia..].
  - f_equal. lia.
Qed.

Lemma payload_of_parts (head data : list string) (rel : Q) (f : Frame) :
  length head = 6%nat →
  frame_of_parts (head ++ data) rel = Some f →
  0 ≤ DLC f →
  Data f = Py.join (firstn (Z.to_nat (DLC f)) data)
  ∧ ∀ data' : list string,
      frame_of_parts (head ++ data') rel
      = Some (mkFrame rel (ID f) (DLC f)
                (Py.join (firstn (Z.to_nat (DLC f)) data')) (Channel f)).
Proof.
  intros Hh Hf Hd. unfold frame_of_parts in *.
  assert (Hn : ∀ (i : nat) (d : list string),
             (i < 6)%nat → nth i (head ++ d) "" = nth i head "").
  { intros i d Hi. apply app_nth1. lia. }
  rewrite !Hn in Hf by lia.
  destruct (Py.int16 (nth 3 head "")) as [can_id|] eqn:E1; [|done].
  destruct (Py.int (nth 5 head "")) as [dlc|] eqn:E2; [|done].
  destruct (Py.int (nth 2 head "")) as [ch|] eqn:E3; [|done].
  simpl in Hf. injection Hf as <-. simpl in *.
  split.
  - by rewrite slice_data.
  - intros data'. rewrite !Hn by lia. rewrite E1, E2, E3. simpl.
    by rewrite slice_data.
Qed.

Lemma timed_of_tokens line head data :
  tokens line = Some (head ++ data)%list → length head = 6%nat →
  timed line
  = match time_fields (nth 0 head "") with
    | Some (Some (h, m, s, ms)) => Some (seconds h m s ms)
    | _ => None
    end.
Proof.
  intros Htok Hh. unfold timed. rewrite Htok. simpl.
  rewrite app_nth1 by lia. done.
Qed.

Lemma parse_line_tokens base line parts :
  tokens line = Some parts →
  (parse_line base line).2
  = b ← next_base base line; secs ← timed line;
    frame_of_parts parts (rel_time secs b).
Proof.
  intros Htok. rewrite parse_line_eq. cbn [snd]. unfold emit.
  destruct (next_base base line) as [b|]; [|done]. simpl.
  by rewrite Htok.
Qed.

(** C10, as the code has it. When the loop accepts a line whose declared
    length is not negative, the payload is the concatenation of the first
    [DLC] tokens after the length field, or of all of them when there are
    fewer; the tokens are taken as they are, so a line with the same first
    six tokens and any tokens after them is accepted too, with the same
    frame but for the payload, which is made in the same way. *)
Theorem busmaster_payload_tokens (base : option Q) (line : string)
    (head data : list string) (f : Frame) :
  tokens line = Some (head ++ data)%list →
  length head = 6%nat →
  (parse_line base line).2 = Some f →
  0 ≤ DLC f →
  Data f = Py.join (firstn (Z.to_nat (DLC f)) data)
  ∧ ∀ (line' : string) (data' : list string),
      tokens line' = Some (head ++ data')%list →
      (parse_line base line').2
      = Some (mkFrame (Timestamp f) (ID f) (DLC f)
                (Py.join (firstn (Z.to_nat (DLC f)) data')) (Channel f)).
Proof.
  intros Htok Hh Hf Hd.
  rewrite (parse_line_tokens _ _ _ Htok) in Hf.
  destruct (next_base base line) as [b|] eqn:Hb; [|done]. simpl in Hf.
  destruct (timed line) as [secs|] eqn:Ht; [|done]. simpl in Hf.
  destruct (payload_of_parts head data _ f Hh Hf Hd) as [Hdata Hany].
  split; [done|]. intros line' data' Htok'.
  rewrite (parse_line_tokens _ _ _ Htok').
  assert (timed line' = Some secs) as Ht'.
  { rewrite (timed_of_tokens _ _ _ Htok' Hh).
    by rewrite <- (timed_of_tokens _ _ _ Htok Hh). }
  assert (next_base base line' = Some b) as ->.
  { unfold next_base in *. destruct base; [done|]. congruence. }
  rewrite Ht'. simpl. rewrite Hany. do 2 f_equal.
  unfold frame_of_parts in Hf.
  destruct (Py.int16 _); [|done]. simpl in Hf.
  destruct (Py.int (nth 5 _ _)); [|done]. simpl in Hf.
  destruct (Py.int (nth 2 _ _)); [|done]. simpl in Hf.
  by injection Hf as <-.
Qed.

Lemma busmaster_payload_tokens_witness :
  ∃ f, (parse_line None Sample.line_few).2 = Some f
       ∧ DLC f = 8 ∧ Data f = "zz04".
Proof.
  pose (head := firstn 6 (Py.split Sample.line_few)).
  pose (f := mkFrame (0 # 100000000) 4 8 "zz04" 1).
  exists f.
  destruct (busmaster_payload_tokens None Sample.line_few head ["zz"; "04"] f)
    as [H _].
  - vm_compute. reflexivity.
  - reflexivity.
  - vm_compute. reflexivity.
  - simpl. lia.
  - split; [vm_compute; reflexivity|]. split; [reflexivity|exact H].
Defined.

(** C10 as stated fails on a negative declared length: the end of the slice
    is then counted from the end of the line, and with [-7] on a line of ten
    tokens three data tokens make the payload. *)
Lemma busmaster_negative_dlc :
  ∃ f parts,
    (parse_line None Sample.line_negative).2 = Some f
    ∧ tokens Sample.line_negative = Some parts
    ∧ length parts = 10%nat
    ∧ DLC f = -7
    ∧ Data f = Py.join (firstn 3 (skipn 6 parts))
    ∧ Data f = "040801"
    ∧ ¬ (∃ k : nat, Z.of_nat k ≤ DLC f
           ∧ Data f = Py.join (firstn k (skipn 6 parts))).
Proof.
  eexists. eexists. split; [vm_compute; reflexivity|].
  split; [vm_compute; reflexivity|]. simpl.
  repeat split; try (vm_compute; reflexivity).
  intros (k & Hk & _). lia.
Qed.

(** X7. The zero reference is stored as soon as a time token is read. A
    first line whose time token is valid and which gives no frame, because
    its identifier, length or channel is refused, still sets the reference:
    the frames of the lines after it are those made with its time as the
    base. *)
Theorem rejected_line_sets_reference (line : string) (rest : list string)
    (secs : Q) :
  timed line = Some secs →
  (parse_line None line).2 = None →
  parse_lines None (line :: rest) = omap (emit (Some secs)) rest.
Proof.
  intros Ht Hrej. cbn [parse_lines]. rewrite parse_line_eq in *.
  cbn [next_base snd] in *. rewrite Ht in *. rewrite Hrej.
  apply parse_lines_based.
Qed.

Lemma rejected_line_sets_reference_witness :
  parse_lines None [Sample.line_bad_id; Sample.line_b]
  = omap (emit (Some (seconds 17 48 32 9099))) [Sample.line_b].
Proof.
  apply (rejected_line_sets_reference Sample.line_bad_id [Sample.line_b]).
  - vm_compute. reflexivity.
  - vm_compute. reflexivity.
Defined.

(** On the sample lines: a line with a valid time token and an identifier
    that does not parse gives no frame but sets the reference, and the frame
    of the next line, half a second later, gets 1/2. *)
Theorem reference_from_rejected_line :
  timed Sample.line_bad_id = Some (seconds 17 48 32 9099)
  ∧ (parse_line None Sample.line_bad_id).2 = None
  ∧ zero_reference [Sample.line_bad_id; Sample.line_b]
    = Some (seconds 17 48 32 9099)
  ∧ Forall2 Qeq
      (Timestamp <$> parse_lines None [Sample.line_bad_id; Sample.line_b])
      [(1 # 2)%Q].
Proof. vm_compute. repeat split. repeat constructor. Qed.

End BusmasterFacts.

(** ** The loader *)

Module LoaderFacts.
Import Loader DFFacts.

(** C3, at a table without an identifier column: [_load_csv] has already
    stored the table it read when the missing column makes it raise, so
    [load_log] reports the failure with the earlier recording gone. *)
Theorem load_log_csv_failure_replaces_df :
  let '(r, s) := load_log Sample.csv_no_id Sample.loaded in
  r = Return false
  ∧ DF.len (df Sample.loaded) = 1
  ∧ columns (df Sample.loaded) = ["Timestamp"; "ID"; "DLC"; "Data"; "Channel"]
  ∧ df s = mkDF ["Timestamp"; "DLC"; "Data"]
             [[CFloat (1 # 10); CInt 8; CStr "0011223344556677"]]
  ∧ df s ≠ df Sample.loaded.
Proof. vm_compute. repeat split; discriminate. Qed.

(** C4, at a loader whose cache holds the text of frame 0 from before a
    database was loaded: [load_dbc] keeps the cache as it is, and the stale
    text is returned where the new database decodes the frame. *)
Theorem load_dbc_keeps_decoded_cache :
  (∀ loaded s, decoded_cache (load_dbc loaded s).2 = decoded_cache s)
  ∧ (let '(r1, s1) := get_decoded_string 0 Sample.loaded in
     let '(r2, s2) := load_dbc (Some Sample.database) s1 in
     let '(r3, s3) := get_decoded_string 0 s2 in
     r1 = Return (Label "No DBC Loaded")
     ∧ r2 = Return true
     ∧ decoded_cache s2 !! 0 = Some (Label "No DBC Loaded")
     ∧ r3 = Return (Label "No DBC Loaded")
     ∧ (get_decoded_string 0 (set_cache ∅ s2)).1
       = Return (Signals [("Speed", VNum (inject_Z 4))])).
Proof.
  split.
  - intros [d|] s; reflexivity.
  - vm_compute. repeat split.
Qed.

(** C7, at a vendor text file whose third frame is earlier than its second:
    [_load_busmaster] stores the frames in file order. *)
Theorem busmaster_load_keeps_file_order :
  let '(r, s) := load_log Sample.busmaster_unordered __init__ in
  r = Return true
  ∧ ∃ t1 t2 t3 r1 r2 r3,
      rows (df s) = [CFloat t1 :: r1; CFloat t2 :: r2; CFloat t3 :: r3]
      ∧ (t1 == 0)%Q ∧ (t2 == 20901 # 10000)%Q ∧ (t3 == 1 # 2)%Q
      ∧ (t3 < t2)%Q.
Proof.
  vm_compute. split; [done|].
  do 6 eexists. split; [reflexivity|]. repeat split.
Qed.

(** C8, at a table with time stamps and identifiers but neither a length
    nor a data column: [_load_csv] looks up [ID] and [Timestamp] only, and
    the load succeeds. *)
Theorem load_csv_without_payload_succeeds :
  let '(r, s) := load_log Sample.csv_no_payload Sample.loaded in
  r = Return true
  ∧ df s = mkDF ["Timestamp"; "ID"]
             [[CFloat (1 # 10); CInt 32]; [CFloat (2 # 10); CInt 16]].
Proof. vm_compute. done. Qed.

(** *** What the loaders do keep *)

Lemma busmaster_clean file s : clean s (_load_busmaster file s).
Proof.
  unfold _load_busmaster, bind, of_option.
  destruct (lines file) as [ls|]; [|done]. unfold ret at 1.
  by destruct (Busmaster.parse_lines None ls).
Qed.

Lemma can_log_clean file s : clean s (_load_can_log file s).
Proof.
  unfold _load_can_log, bind, of_option.
  destruct (LogReader file) as [[|first data_list]|]; done.
Qed.

Lemma column_index_run {S} name t (s : S) :
  (∃ e, DF.column_index name t s = (Raise e, s))
  ∨ (∃ i, DF.column_index name t s = (Return i, s)
          ∧ DF.positions name (columns t) 0 = [i]).
Proof.
  unfold DF.column_index.
  destruct (DF.positions name (columns t) 0) as [|i [|j l]].
  - left. by exists KeyError.
  - right. by exists i.
  - left. by exists AttributeError.
Qed.

Lemma sort_values_run {S} name t (s : S) :
  (∃ e, DF.sort_values name t s = (Raise e, s))
  ∨ (∃ t', DF.sort_values name t s = (Return t', s)).
Proof.
  unfold DF.sort_values, bind.
  destruct (column_index_run name t s) as [[e ->]|(i & -> & _)].
  - left. by exists e.
  - destruct (DF.comparable _).
    + right. by eexists.
    + left. by exists TypeError.
Qed.

(** [_load_csv], outcome by outcome: it raises before anything is stored
    when the file cannot be read; it raises with a table stored; or it
    returns [True] with the cache emptied. The database is never touched. *)
Lemma csv_outcome file s :
  (read_csv file = None ∧ _load_csv file s = (Raise OSError, s))
  ∨ (∃ e t, is_Some (read_csv file)
            ∧ _load_csv file s = (Raise e, set_df t s))
  ∨ (∃ t, _load_csv file s = (Return true, mkLoader (db s) t ∅)).
Proof.
  destruct (read_csv file) as [t|] eqn:Hread.
  2:{ left. split; [done|]. unfold _load_csv, bind, of_option.
      by rewrite Hread. }
  right.
  unfold _load_csv, DF.sort_values, DF.column_index, bind, of_option, modify,
    get, ret, raise.
  rewrite Hread. cbn [df set_df columns rows set_column].
  repeat case_match; simplify_eq;
    first [ right; eexists; reflexivity
          | left; do 2 eexists; split; [by eexists|reflexivity] ].
Qed.

Lemma by_extension_clean file s :
  (ext file =? ".csv")%string = false → clean s (by_extension file s).
Proof.
  intros E. unfold by_extension. rewrite E.
  destruct (existsb _ _); [apply can_log_clean|done].
Qed.

Lemma try_clean (c : Run CANLoader bool) s :
  clean s (c s) →
  ∃ b s', try_except c (ret false) s = (Return b, s')
          ∧ db s' = db s
          ∧ (b = true → decoded_cache s' = ∅)
          ∧ (b = false → s' = s).
Proof.
  unfold try_except, clean. destruct (c s) as [[[|]|e] s'].
  - intros [Hd Hc]. by exists true, s'.
  - intros ->. by exists false, s.
  - intros ->. by exists false, s.
Qed.

(** X1. [load_log] never raises and never touches the database; when it
    returns [True] the decode cache is empty; when it returns [False] the
    loader is as it was, unless the file is a [.csv] file that could be
    read. *)
Theorem load_log_outcome (file : LogFile) (s : CANLoader) :
  ∃ b s',
    load_log file s = (Return b, s')
    ∧ db s' = db s
    ∧ (b = true → decoded_cache s' = ∅)
    ∧ (b = false → ext file ≠ ".csv" ∨ read_csv file = None → s' = s).
Proof.
  assert (Hcsv : (ext file =? ".csv")%string = true →
            ∃ b s', try_except (by_extension file) (ret false) s = (Return b, s')
              ∧ db s' = db s
              ∧ (b = true → decoded_cache s' = ∅)
              ∧ (b = false → ext file ≠ ".csv" ∨ read_csv file = None → s' = s)).
  { intros E. unfold try_except, by_extension. rewrite E.
    destruct (csv_outcome file s)
      as [[Hnone ->]|[(e & t & Hsome & ->)|(t & ->)]].
    - exists false, s. by repeat split.
    - exists false, (set_df t s). repeat split; [done|].
      intros _ [Hne|Hnone].
      + apply String.eqb_eq in E. done.
      + rewrite Hnone in Hsome. by destruct Hsome.
    - exists true, (mkLoader (db s) t ∅). by repeat split. }
  assert (Hother : ∀ c : Run CANLoader bool, clean s (c s) →
            ∃ b s', try_except c (ret false) s = (Return b, s')
              ∧ db s' = db s
              ∧ (b = true → decoded_cache s' = ∅)
              ∧ (b = false → ext file ≠ ".csv" ∨ read_csv file = None → s' = s)).
  { intros c Hc. destruct (try_clean c s Hc) as (b & s' & -> & Hd & Ht & Hf).
    exists b, s'. repeat split; auto. }
  unfold load_log.
  destruct (ext file =? ".log")%string eqn:Elog.
  - assert ((ext file =? ".csv")%string = false) as Ecsv.
    { apply String.eqb_eq in Elog. by rewrite Elog. }
    apply Hother. unfold bind, of_option.
    destruct (lines file) as [ls|]; [|done]. unfold ret at 1.
    destruct (Py.startswith _ _); [apply busmaster_clean|].
    by apply by_extension_clean.
  - destruct (ext file =? ".csv")%string eqn:Ecsv.
    + by apply Hcsv.
    + apply Hother. by apply by_extension_clean.
Qed.

(** X2. [get_decoded_string] writes an index of the cache at most once: an
    entry that is there is returned as it is and stays, whatever index is
    asked for. *)
Theorem decoded_cache_write_once (index i : Z) (s : CANLoader)
    (res : Shown) :
  decoded_cache s !! i = Some res →
  decoded_cache (get_decoded_string index s).2 !! i = Some res
  ∧ get_decoded_string i s = (Return res, s).
Proof.
  intros Hres. split.
  - unfold get_decoded_string, bind at 1, get at 1.
    destruct (decoded_cache s !! index) as [r|] eqn:Hidx; [done|].
    unfold bind at 1, of_option.
    destruct (DF.iloc (df s) index) as [row|]; [|done].
    unfold ret at 1, bind at 1.
    destruct (DF.cell (df s) row "ID") as [can_id|]; [|done].
    unfold ret at 1, bind at 1.
    destruct (DF.cell (df s) row "Data") as [data|]; [|done].
    unfold ret at 1.
    destruct (data_text data ≫= Py.fromhex) as [data_bytes|]; [|done].
    unfold bind, modify, ret. cbn [snd decoded_cache set_cache].
    rewrite lookup_insert_ne; [done|]. congruence.
  - unfold get_decoded_string, bind, get. by rewrite Hres.
Qed.

Lemma decoded_cache_write_once_witness :
  let s := (get_decoded_string 0 Sample.loaded).2 in
  decoded_cache (get_decoded_string 0 s).2 !! 0
  = Some (Label "No DBC Loaded")
  ∧ get_decoded_string 0 s = (Return (Label "No DBC Loaded"), s).
Proof.
  intros s.
  apply (decoded_cache_write_once 0 0 s (Label "No DBC Loaded")).
  vm_compute. reflexivity.
Defined.

(** X3. A [.csv] file in which no column maps to [ID], or none to
    [Timestamp], does not load: [load_log] returns [False]. *)
Theorem csv_without_key_column_fails (file : LogFile) (s : CANLoader)
    (t : DataFrame) :
  ext file = ".csv" →
  read_csv file = Some t →
  let cols := columns (rename (normalize_columns t)) in
  DF.positions "ID" cols 0 = [] ∨ DF.positions "Timestamp" cols 0 = [] →
  (load_log file s).1 = Return false.
Proof.
  intros Hext Hread cols Hmiss.
  unfold load_log, try_except, by_extension. rewrite Hext.
  replace (".csv" =? ".log")%string with false by done.
  replace (".csv" =? ".csv")%string with true by done.
  destruct (_load_csv file s) as [[[|]|e] s'] eqn:Hrun; [|done..].
  exfalso. revert Hrun.
  unfold _load_csv, DF.sort_values, DF.column_index, bind, of_option, modify,
    get, ret, raise.
  rewrite Hread. unfold cols in *. clear cols. intros Hrun.
  destruct Hmiss as [Hmiss|Hmiss];
    repeat (case_match; simplify_eq;
            cbn [df set_df columns rows set_column] in *;
            try congruence).
Qed.

Lemma csv_without_key_column_fails_witness :
  (load_log Sample.csv_no_id Sample.loaded).1 = Return false.
Proof.
  apply (csv_without_key_column_fails Sample.csv_no_id Sample.loaded
           (mkDF ["Time"; "DLC"; "Data"]
              [[CFloat (1 # 10); CInt 8; CStr "0011223344556677"]])).
  - reflexivity.
  - reflexivity.
  - left. vm_compute. reflexivity.
Defined.

(** X6. After a [.csv] file has loaded, the rows are in ascending order of
    their [Timestamp] cells: numbers by value, text by character order,
    missing values last. *)
Theorem csv_load_sorted (file : LogFile) (s s' : CANLoader) :
  ext file = ".csv" →
  load_log file s = (Return true, s') →
  ∃ i : nat,
    DF.positions "Timestamp" (columns (df s')) 0 = [i]
    ∧ StronglySorted
        (λ r1 r2, DF.cell_leb (default CNaN (r1 !! i))
                    (default CNaN (r2 !! i)) = true)
        (rows (df s'))
    ∧ ∀ x y, DF.cell_leb (CFloat x) (CFloat y) = true ↔ (x <= y)%Q.
Proof.
  intros Hext. unfold load_log, try_except, by_extension. rewrite Hext.
  replace (".csv" =? ".log")%string with false by done.
  replace (".csv" =? ".csv")%string with true by done.
  destruct (_load_csv file s) as [[[|]|e] s1] eqn:Hrun; [|done..].
  intros [= <-]. revert Hrun.
  unfold _load_csv, DF.sort_values, DF.column_index, bind, of_option, modify,
    get, ret, raise.
  intros Hrun.
  repeat (case_match; simplify_eq;
          cbn [df set_df set_cache columns rows set_column] in *;
          try congruence);
    (eexists; split; [reflexivity|]; split;
     [apply (sort_sorted
               (λ r1 r2, DF.cell_leb (default CNaN (r1 !! _))
                           (default CNaN (r2 !! _))));
      [intros r1 r2; apply cell_leb_total
      |intros r1 r2 r3; apply cell_leb_trans]
     |intros x y; apply Qle_bool_iff]).
Qed.

Lemma csv_load_sorted_witness :
  ∃ i : nat,
    DF.positions "Timestamp"
      (columns (df (load_log Sample.csv_no_payload Sample.loaded).2)) 0 = [i]
    ∧ StronglySorted
        (λ r1 r2, DF.cell_leb (default CNaN (r1 !! i))
                    (default CNaN (r2 !! i)) = true)
        (rows (df (load_log Sample.csv_no_payload Sample.loaded).2)).
Proof.
  destruct (csv_load_sorted Sample.csv_no_payload Sample.loaded
              (load_log Sample.csv_no_payload Sample.loaded).2)
    as (i & Hi & Hs & _).
  - reflexivity.
  - vm_compute. reflexivity.
  - by exists i.
Defined.

End LoaderFacts.

(** ** The trace view *)

Module UIFacts.
Import UI DFFacts.

(** *** What each step of [process_frame] leaves alone *)

Lemma signal_row_frame can_id m t kv :
  byte_states (signal_row can_id m t kv) = byte_states t
  ∧ last_data (signal_row can_id m t kv) = last_data t
  ∧ tree (signal_row can_id m t kv) = tree t
  ∧ message_items (signal_row can_id m t kv) = message_items t.
Proof.
  destruct kv as [name val]. unfold signal_row.
  by destruct (signal_items t !! (can_id, name)).
Qed.

Lemma signal_rows_frame d row t :
  byte_states (signal_rows d row t) = byte_states t
  ∧ last_data (signal_rows d row t) = last_data t
  ∧ tree (signal_rows d row t) = tree t
  ∧ message_items (signal_rows d row t) = message_items t.
Proof.
  unfold signal_rows. destruct d as [d|]; [|done].
  destruct (Py.fromhex _); [|done].
  destruct (get_message_by_frame_id d (ID row)) as [m|]; [|done].
  destruct (msg_decode m _) as [decoded|]; [|done].
  generalize (items decoded). intros kvs. revert t.
  induction kvs as [|kv kvs IH]; intros t; [done|]. simpl.
  destruct (IH (signal_row (ID row) m t kv)) as (-> & -> & -> & ->).
  apply signal_row_frame.
Qed.

Lemma message_row_frame d row t :
  byte_states (message_row d row t) = byte_states t
  ∧ last_data (message_row d row t) = last_data t
  ∧ last_signals (message_row d row t) = last_signals t
  ∧ signal_states (message_row d row t) = signal_states t.
Proof. unfold message_row. by destruct (message_items t !! ID row). Qed.

(** *** The colouring loop *)

Lemma lanes_length prev k bytes states :
  length (lanes prev k bytes states) = length states.
Proof.
  revert k states. induction bytes as [|b bytes IH]; intros k [|s states];
    simpl; auto.
Qed.

Lemma lanes_lookup prev k bytes states i b :
  length states = length bytes → bytes !! i = Some b →
  lanes prev k bytes states !! i
  = Some (lane prev (k + i) b (default Gray (states !! i))).
Proof.
  revert k states i. induction bytes as [|b0 bytes IH];
    intros k [|s states] i Hlen Hb; try done.
  destruct i as [|i]; simpl in *.
  - injection Hb as ->. by rewrite Nat.add_0_r.
  - rewrite (IH (S k) states i); [|lia|done].
    by replace (k + S i)%nat with (S k + i)%nat by lia.
Qed.

Lemma initial_states_length t can_id n :
  length (initial_states t can_id n) = n.
Proof.
  unfold initial_states. case_decide; [done|]. apply length_replicate.
Qed.

Lemma lookup_replicate_gray (n i : nat) :
  default Gray (replicate n Gray !! i) = Gray.
Proof.
  destruct (replicate n Gray !! i) as [c|] eqn:E; [|done].
  by apply lookup_replicate in E as [-> _].
Qed.

Lemma process_row_maps d row t :
  byte_states (process_row d row t)
  = <[ID row :=
        lanes (known_bytes t (ID row)) 0 (payload_bytes (Data row))
          (initial_states t (ID row) (length (payload_bytes (Data row))))]>
      (byte_states t)
  ∧ last_data (process_row d row t)
    = <[ID row := Py.pad_even (Data row)]> (last_data t).
Proof.
  unfold process_row.
  destruct (signal_rows_frame d row (byte_row row (message_row d row t)))
    as (-> & -> & _).
  destruct (message_row_frame d row t) as (Hb & Hl & _).
  unfold byte_row. cbn [byte_states last_data].
  unfold initial_states, known_bytes, payload_bytes. by rewrite Hb, Hl.
Qed.

Lemma process_row_states d row t :
  byte_states (process_row d row t) !! ID row
  = Some (lanes (known_bytes t (ID row)) 0 (payload_bytes (Data row))
            (initial_states t (ID row) (length (payload_bytes (Data row))))).
Proof.
  destruct (process_row_maps d row t) as [-> _]. apply lookup_insert_eq.
Qed.

Lemma process_row_lane d row t i byte_val :
  payload_bytes (Data row) !! i = Some byte_val →
  lane_state (process_row d row t) (ID row) i
  = Some (lane (known_bytes t (ID row)) i byte_val
            (default Gray
               (initial_states t (ID row) (length (payload_bytes (Data row)))
                !! i))).
Proof.
  intros Hb. unfold lane_state. rewrite process_row_states. simpl.
  rewrite (lanes_lookup _ 0 _ _ i byte_val); [done| |done].
  apply initial_states_length.
Qed.

Lemma lane_changed prev i byte_val state p :
  prev !! i = Some p → p ≠ byte_val → lane prev i byte_val state = Red.
Proof.
  intros Hp Hne. unfold lane. rewrite Hp.
  destruct (byte_val =? p)%string eqn:E; [|done].
  apply String.eqb_eq in E. congruence.
Qed.

Lemma lane_unchanged prev i byte_val state :
  prev !! i = Some byte_val ∨ prev !! i = None →
  lane prev i byte_val state = settle state.
Proof.
  intros [Hp|Hp]; unfold lane; rewrite Hp; [|done].
  by rewrite String.eqb_refl.
Qed.

(** *** Coherence of the state vectors with the last payloads *)

Lemma pad_even_idemp s : Py.pad_even (Py.pad_even s) = Py.pad_even s.
Proof.
  unfold Py.pad_even at 1.
  assert (Nat.even (String.length (Py.pad_even s)) = true) as ->; [|done].
  unfold Py.pad_even. destruct (Nat.even (String.length s)) eqn:E; [done|].
  change (Nat.even (S (String.length s)) = true). rewrite Nat.even_succ.
  by rewrite <- Nat.negb_even, E.
Qed.

Lemma payload_bytes_pad s : payload_bytes (Py.pad_even s) = payload_bytes s.
Proof. unfold payload_bytes. by rewrite pad_even_idemp. Qed.

Lemma coherent_empty : coherent empty_trace.
Proof. intros can_id. cbn [empty_trace byte_states last_data]. done. Qed.

Lemma coherent_process_row d row t :
  coherent t → coherent (process_row d row t).
Proof.
  intros Hc can_id. destruct (process_row_maps d row t) as [-> ->].
  destruct (decide (can_id = ID row)) as [->|Hne].
  - rewrite !lookup_insert_eq, lanes_length, initial_states_length.
    by rewrite payload_bytes_pad.
  - rewrite !lookup_insert_ne by done. apply Hc.
Qed.

Lemma coherent_reset_highlight cid t :
  coherent t → coherent (reset_highlight cid t).
Proof.
  intros Hc can_id. unfold reset_highlight.
  destruct (byte_states t !! cid) as [states|] eqn:E; [|apply Hc].
  cbn [byte_states last_data].
  destruct (decide (can_id = cid)) as [->|Hne].
  - rewrite lookup_insert_eq, length_replicate.
    specialize (Hc cid). by rewrite E in Hc.
  - rewrite lookup_insert_ne by done. apply Hc.
Qed.

Lemma initial_states_same t can_id states :
  byte_states t !! can_id = Some states →
  initial_states t can_id (length states) = states.
Proof. intros E. unfold initial_states. rewrite E. simpl. by case_decide. Qed.

Lemma initial_states_gray t can_id n i :
  length <$> byte_states t !! can_id ≠ Some n →
  default Gray (initial_states t can_id n !! i) = Gray.
Proof.
  intros Hn. unfold initial_states.
  destruct (byte_states t !! can_id) as [states|]; simpl in *.
  - case_decide; [congruence|]. apply lookup_replicate_gray.
  - case_decide; apply lookup_replicate_gray.
Qed.

(** C2, as the code has it. On a trace whose state vectors match the last
    payloads, [process_frame] leaves lane [i] of the frame's identifier
    Changed when its byte differs from the same lane of the last payload.
    When the byte does not differ and the frame has as many lanes as the
    last payload, Changed becomes Settled, Settled stays and Fresh stays.
    When the number of lanes differs from the last payload's, every lane
    that does not differ ends Fresh, whatever it was. A lane of an
    identifier with no last payload ends Fresh. With byte 0 being 01, 02,
    02 in three frames of one identifier, its states are Fresh, Changed,
    Settled. *)
Theorem byte_lane_three_state_rule :
  (∀ (d : option Database) (row : Frame) (t : Trace) (i : nat)
     (byte_val : string),
     coherent t →
     payload_bytes (Data row) !! i = Some byte_val →
     let t' := process_row d row t in
     let can_id := ID row in
     let prev := known_bytes t can_id in
     coherent t'
     ∧ (∀ p, prev !! i = Some p → p ≠ byte_val →
          lane_state t' can_id i = Some Changed)
     ∧ (length prev = length (payload_bytes (Data row)) →
        prev !! i = Some byte_val →
        ∃ old, lane_state t can_id i = Some old
               ∧ lane_state t' can_id i = Some (settle old))
     ∧ (length prev ≠ length (payload_bytes (Data row)) →
        prev !! i = Some byte_val ∨ prev !! i = None →
        lane_state t' can_id i = Some Fresh)
     ∧ (last_data t !! can_id = None →
        lane_state t' can_id i = Some Fresh))
  ∧ (let w := Sample.window Sample.steady None in
     lane_state (trace (Sample.process_all [0] w)) 7 0 = Some Fresh
     ∧ lane_state (trace (Sample.process_all [0; 1] w)) 7 0 = Some Changed
     ∧ lane_state (trace (Sample.process_all [0; 1; 2] w)) 7 0
       = Some Settled).
Proof.
  split; [|vm_compute; done].
  intros d row t i byte_val Hc Hb t' can_id prev.
  split; [by apply coherent_process_row|].
  pose proof (process_row_lane d row t i byte_val Hb) as Hl.
  fold t' can_id prev in Hl.
  assert (Hlen : ∀ states, byte_states t !! can_id = Some states →
                 length states = length prev).
  { intros states E. specialize (Hc can_id). rewrite E in Hc.
    subst prev. unfold known_bytes.
    destruct (last_data t !! can_id); [done|]. destruct Hc. }
  pose proof (lookup_lt_Some _ _ _ Hb) as Hi.
  split; [|split; [|split]].
  - intros p Hp Hne. rewrite Hl. f_equal. by eapply lane_changed.
  - intros Hsame Hp.
    destruct (byte_states t !! can_id) as [states|] eqn:E.
    + specialize (Hlen states eq_refl).
      destruct (lookup_lt_is_Some_2 states i) as [old Hold]; [lia|].
      exists old. split; [unfold lane_state; by rewrite E|].
      rewrite Hl. f_equal.
      replace (length (payload_bytes (Data row))) with (length states) by lia.
      rewrite (initial_states_same _ _ _ E), Hold. simpl.
      apply lane_unchanged. by left.
    + specialize (Hc can_id). rewrite E in Hc. subst prev.
      unfold known_bytes in Hp. destruct (last_data t !! can_id); [done|].
      done.
  - intros Hdiff Hp. rewrite Hl. f_equal.
    rewrite initial_states_gray.
    + by rewrite lane_unchanged.
    + destruct (byte_states t !! can_id) as [states|] eqn:E; [|done].
      simpl. rewrite (Hlen states eq_refl). congruence.
  - intros Hnone. rewrite Hl. f_equal.
    specialize (Hc can_id). rewrite Hnone in Hc.
    destruct (byte_states t !! can_id) eqn:E; [done|].
    rewrite initial_states_gray by (by rewrite E).
    apply lane_unchanged. right. subst prev. unfold known_bytes.
    by rewrite Hnone.
Qed.

Lemma byte_lane_three_state_rule_witness :
  let t := trace (Sample.process_all [0] (Sample.window Sample.steady None)) in
  lane_state (process_row None (mkFrame 1 7 1 "02" 1) t) 7 0 = Some Changed.
Proof.
  intros t.
  assert (Hc : coherent t).
  { apply (coherent_process_row None (mkFrame 0 7 1 "01" 1)), coherent_empty. }
  destruct (proj1 byte_lane_three_state_rule None (mkFrame 1 7 1 "02" 1) t
              0%nat "02" Hc eq_refl) as (_ & H & _).
  apply (H "01"); [vm_compute; reflexivity|discriminate].
Defined.

(** C2 as stated fails when the payload of an identifier changes its
    length: with payloads 0102, 0202 and then 02, byte 0 is Changed after
    the second frame, does not differ in the third, and is Fresh after
    it. *)
Lemma lane_fresh_after_resize :
  let w := Sample.window Sample.shrinking None in
  let w2 := Sample.process_all [0; 1] w in
  let w3 := Sample.process_all [0; 1; 2] w in
  lane_state (trace w2) 7 0 = Some Changed
  ∧ known_bytes (trace w2) 7 !! 0%nat = Some "02"
  ∧ payload_bytes "02" !! 0%nat = Some "02"
  ∧ lane_state (trace w3) 7 0 = Some Fresh.
Proof. vm_compute. done. Qed.

(** *** The frames a jump renders *)


Lemma existsb_same_id l (a : Z * Frame) :
  existsb (λ y, ID y.2 =? ID a.2) l = true
  ↔ ∃ (m : nat) y, l !! m = Some y ∧ same_id a y.
Proof.
  rewrite existsb_exists. split.
  - intros (y & Hy & E). apply list_elem_of_In, list_elem_of_lookup in Hy.
    destruct Hy as [m Hm]. exists m, y. split; [done|]. by apply Z.eqb_eq.
  - intros (m & y & Hm & E). exists y. split.
    + apply list_elem_of_In, list_elem_of_lookup. by exists m.
    + by apply Z.eqb_eq.
Qed.

(** [tail1] keeps a row exactly when no later row has its identifier. *)
Lemma tail1_elem l x :
  x ∈ tail1 l
  ↔ ∃ n : nat, l !! n = Some x
      ∧ ∀ (m : nat) y, (n < m)%nat → l !! m = Some y → ¬ same_id x y.
Proof.
  induction l as [|a l IH]; simpl.
  { rewrite elem_of_nil. split; [done|]. by intros (n & Hn & _). }
  destruct (existsb _ l) eqn:E.
  - rewrite IH. split.
    + intros (n & Hn & Hlater). exists (S n). split; [done|].
      intros [|m] y Hm Hy; [lia|]. apply (Hlater m); [lia|done].
    + intros ([|n] & Hn & Hlater).
      * simpl in Hn. injection Hn as ->.
        apply existsb_same_id in E as (m & y & Hm & Hy).
        destruct (Hlater (S m) y); [lia|done|done].
      * exists n. split; [done|]. intros m y Hm Hy.
        apply (Hlater (S m)); [lia|done].
  - rewrite elem_of_cons, IH. split.
    + intros [->|(n & Hn & Hlater)].
      * exists 0%nat. split; [done|]. intros [|m] y Hm Hy Hs; [lia|].
        assert (existsb (λ y, ID y.2 =? ID a.2) l = true); [|congruence].
        apply existsb_same_id. by exists m, y.
      * exists (S n). split; [done|].
        intros [|m] y Hm Hy; [lia|]. apply (Hlater m); [lia|done].
    + intros ([|n] & Hn & Hlater).
      * left. simpl in Hn. by injection Hn as ->.
      * right. exists n. split; [done|]. intros m y Hm Hy.
        apply (Hlater (S m)); [lia|done].
Qed.

Lemma tail1_nodup l : NoDup ((λ p : Z * Frame, ID p.2) <$> tail1 l).
Proof.
  induction l as [|a l IH]; simpl; [constructor|].
  destruct (existsb _ l) eqn:E; [done|].
  rewrite fmap_cons. apply NoDup_cons. split; [|done].
  intros Hin. apply list_elem_of_fmap in Hin as (x & Hx & Hin).
  apply tail1_elem in Hin as (n & Hn & _).
  assert (existsb (λ y, ID y.2 =? ID a.2) l = true); [|congruence].
  apply existsb_same_id. exists n, x. split; [done|]. by unfold same_id.
Qed.

Lemma slice_prefix (fs : list Frame) (k : Z) :
  0 ≤ k < len fs →
  Py.slice (indexed fs) 0 (k + 1) = take (Z.to_nat (k + 1)) (indexed fs).
Proof.
  intros Hk. unfold Py.slice, Py.slice_bound, indexed, len in *.
  rewrite length_imap.
  replace (0 <? 0) with false by done.
  replace (k + 1 <? 0) with false by (symmetry; apply Z.ltb_ge; lia).
  replace (Z.max 0 (Z.min (Z.of_nat (length fs)) 0)) with 0 by lia.
  replace (Z.max 0 (Z.min (Z.of_nat (length fs)) (k + 1)) - 0) with (k + 1)
    by lia.
  done.
Qed.

Lemma by_time_total a b : by_time a b = false → by_time b a = true.
Proof.
  unfold by_time. intros E. apply Qle_bool_iff.
  destruct (Qlt_le_dec (Timestamp b.2) (Timestamp a.2)) as [H|H].
  - by apply Qlt_le_weak.
  - apply Qle_bool_iff in H. congruence.
Qed.

Lemma by_time_trans a b c :
  by_time a b = true → by_time b c = true → by_time a c = true.
Proof.
  unfold by_time. rewrite !Qle_bool_iff. apply Qle_trans.
Qed.

(** The frames a jump to [k] renders are the last frame of each identifier
    among the rows 0 to [k]. *)
Lemma latest_frames_elem (fs : list Frame) (k i : Z) (f : Frame) :
  0 ≤ k < len fs →
  (i, f) ∈ latest_frames fs k
  ↔ 0 ≤ i ≤ k ∧ fs !! Z.to_nat i = Some f
    ∧ ∀ j g, i < j ≤ k → fs !! Z.to_nat j = Some g → ID g ≠ ID f.
Proof.
  intros Hk. unfold latest_frames.
  rewrite sort_perm, slice_prefix, tail1_elem by done.
  unfold indexed. split.
  - intros (n & Hn & Hlater).
    apply lookup_take_Some in Hn as [Hn Hlt].
    apply list_lookup_imap_Some in Hn as (y & Hy & [= -> ->]).
    split; [lia|]. rewrite Nat2Z.id. split; [done|].
    intros j g Hj Hg. apply (Hlater (Z.to_nat j) (j, g)); [lia|].
    apply lookup_take_Some. split; [|lia].
    apply list_lookup_imap_Some. exists g. split; [done|]. f_equal. lia.
  - intros (Hi & Hf & Hlater). exists (Z.to_nat i). split.
    + apply lookup_take_Some. split; [|lia].
      apply list_lookup_imap_Some. exists f. split; [done|]. f_equal. lia.
    + intros m [j g] Hm Hy. apply lookup_take_Some in Hy as [Hy Hlt].
      apply list_lookup_imap_Some in Hy as (y & Hy & [= -> ->]).
      unfold same_id. simpl. apply (Hlater (Z.of_nat m)); [lia|].
      by rewrite Nat2Z.id.
Qed.

Lemma latest_frames_nodup (fs : list Frame) (k : Z) :
  NoDup ((λ p : Z * Frame, ID p.2) <$> latest_frames fs k).
Proof.
  unfold latest_frames. rewrite sort_perm. apply tail1_nodup.
Qed.

Lemma latest_frames_sorted (fs : list Frame) (k : Z) :
  StronglySorted (λ a b : Z * Frame, (Timestamp a.2 <= Timestamp b.2)%Q)
    (latest_frames fs k).
Proof.
  unfold latest_frames. fold by_time.
  induction (sort_sorted by_time by_time_total by_time_trans
               (tail1 (Py.slice (indexed fs) 0 (k + 1))))
    as [|a l _ IH Ha]; constructor; [done|].
  eapply Forall_impl; [exact Ha|]. intros b H. by apply Qle_bool_iff.
Qed.

(** *** The loop of [slider_moved] *)

Lemma render_run (l : list (Z * Frame)) (w : MainWindow) :
  (∀ i f, (i, f) ∈ l → iloc (loader_df w) i = Some f) →
  render l w
  = (Return tt, set_trace (foldl (render_row (loader_db w)) (trace w) l) w).
Proof.
  revert w. induction l as [|[i f] l IH]; intros w Hl.
  { by destruct w. }
  cbn [render foldl]. unfold bind at 1 2.
  unfold process_frame, bind, get, of_option.
  rewrite (Hl i f) by (apply elem_of_cons; by left). unfold ret, modify.
  rewrite IH; [reflexivity|]. intros j g Hj.
  cbn [loader_df set_trace]. apply Hl. apply elem_of_cons. by right.
Qed.

(** *** Freshness after a jump *)

Lemma lanes_fresh k bytes states :
  Forall (λ c, c = Gray) states →
  Forall (λ c, c = Gray) (lanes [] k bytes states).
Proof.
  intros H. revert k bytes.
  induction H as [|s states Hs H IH]; intros k [|b bytes]; simpl.
  - constructor.
  - constructor.
  - by constructor.
  - constructor; [by subst s|]. apply IH.
Qed.

Lemma zip_fresh (bytes : list string) (states : list Colour) :
  Forall (λ c, c = Gray) states →
  Forall (λ p : string * Colour, p.2 = Gray) (zip bytes states).
Proof.
  intros H. revert bytes.
  induction H as [|s states Hs _ IH]; intros [|b bytes]; simpl;
    constructor; auto.
Qed.

Lemma process_row_items d row t :
  (∀ can_id, can_id ≠ ID row →
     message_items (process_row d row t) !! can_id
     = message_items t !! can_id)
  ∧ (∀ item, message_items (process_row d row t) !! ID row = Some item →
       item_html item
       = zip (payload_bytes (Data row))
           (lanes (known_bytes t (ID row)) 0 (payload_bytes (Data row))
              (initial_states t (ID row)
                 (length (payload_bytes (Data row)))))).
Proof.
  unfold process_row.
  destruct (signal_rows_frame d row (byte_row row (message_row d row t)))
    as (_ & _ & _ & ->).
  destruct (message_row_frame d row t) as (Hb & Hl & _).
  remember (message_row d row t) as t1 eqn:Ht1.
  unfold byte_row. cbn [message_items]. split.
  - intros can_id Hne. rewrite lookup_alter_ne by done.
    subst t1. unfold message_row.
    destruct (message_items t !! ID row); cbn [message_items];
      rewrite lookup_alter_ne by done; [done|].
    by rewrite lookup_insert_ne.
  - intros item. rewrite lookup_alter_eq.
    destruct (message_items t1 !! ID row); [|done].
    intros [= <-]. cbn [item_html].
    unfold initial_states, known_bytes, payload_bytes. by rewrite Hb, Hl.
Qed.

Lemma process_row_tree d row t :
  tree (process_row d row t)
  = match message_items t !! ID row with
    | Some _ => tree t
    | None => (tree t ++ [ID row])%list
    end.
Proof.
  unfold process_row.
  destruct (signal_rows_frame d row (byte_row row (message_row d row t)))
    as (_ & _ & -> & _).
  unfold byte_row, message_row. cbn [tree].
  by destruct (message_items t !! ID row).
Qed.

Lemma new_signal_items (can_id : Z) (sigs : list SignalDef)
    (m : gmap (Z * string) SignalItem) key item :
  foldl (λ m sg, <[(can_id, sig_name sg) := mkSigItem (sig_name sg) None]> m)
    m sigs !! key = Some item →
  sitem_html item = None ∨ m !! key = Some item.
Proof.
  revert m. induction sigs as [|sg sigs IH]; intros m; simpl; [by right|].
  intros H. apply IH in H as [H|H]; [by left|].
  destruct (decide ((can_id, sig_name sg) = key)) as [<-|Hne].
  - rewrite lookup_insert_eq in H. injection H as <-. by left.
  - rewrite lookup_insert_ne in H by done. by right.
Qed.

Lemma message_row_signals_fresh d row t :
  signals_fresh t → signals_fresh (message_row d row t).
Proof.
  intros [Hs Hi]. destruct (message_row_frame d row t) as (_ & _ & _ & E).
  split; [by rewrite E|].
  intros key item v u c Hk Hh. unfold message_row in Hk.
  destruct (message_items t !! ID row); cbn [signal_items] in Hk.
  - by eapply Hi.
  - apply new_signal_items in Hk as [Hk|Hk]; [congruence|]. by eapply Hi.
Qed.

(** The loop over the decoded signals, for an identifier of which no signal
    value is recorded: each name is met once, so nothing is compared and
    every state written is gray. *)
Lemma signal_loop_fresh can_id m kvs t :
  NoDup kvs.*1 →
  signals_fresh t →
  (∀ name, name ∈ kvs.*1 →
     last_signals t !! (can_id, name) = None
     ∧ signal_states t !! (can_id, name) = None) →
  let t' := foldl (signal_row can_id m) t kvs in
  signals_fresh t'
  ∧ ∀ other name, other ≠ can_id →
      last_signals t' !! (other, name) = last_signals t !! (other, name)
      ∧ signal_states t' !! (other, name) = signal_states t !! (other, name).
Proof.
  revert t. induction kvs as [|[name val] kvs IH]; intros t Hnd Hf Hnone.
  { by split. }
  rewrite fmap_cons in Hnd. apply NoDup_cons in Hnd as [Hname Hnd].
  cbn [foldl]. set (t1 := signal_row can_id m t (name, val)).
  destruct (Hnone name) as [Hl Hs]; [rewrite fmap_cons; by left|].
  assert (H1 : signals_fresh t1
               ∧ (∀ key, key ≠ (can_id, name) →
                    last_signals t1 !! key = last_signals t !! key
                    ∧ signal_states t1 !! key = signal_states t !! key)).
  { subst t1. unfold signal_row.
    destruct (signal_items t !! (can_id, name)) as [s_item|]; [|by split].
    rewrite Hl, Hs. cbn [default]. split.
    - destruct Hf as [Hfs Hfi]. split; cbn [signal_states signal_items].
      + intros key c. destruct (decide ((can_id, name) = key)) as [<-|Hne].
        * rewrite lookup_insert_eq. by intros [= <-].
        * rewrite lookup_insert_ne by done. apply Hfs.
      + intros key item v u c.
        destruct (decide ((can_id, name) = key)) as [<-|Hne].
        * rewrite lookup_insert_eq. intros [= <-]. simpl. by intros [= _ _ <-].
        * rewrite lookup_insert_ne by done. apply Hfi.
    - intros key Hne. cbn [last_signals signal_states].
      by rewrite !lookup_insert_ne. }
  destruct H1 as [Hf1 Hsame].
  destruct (IH t1 Hnd Hf1) as [Hf' Hother].
  { intros name' Hin. destruct (Hsame (can_id, name')) as [-> ->].
    - intros [= <-]. done.
    - apply Hnone. rewrite fmap_cons. by right. }
  split; [done|]. intros other name' Hne.
  destruct (Hother other name' Hne) as [-> ->].
  apply Hsame. by intros [= -> _].
Qed.

Lemma process_row_signals d row t :
  signals_fresh t →
  (∀ name, last_signals t !! (ID row, name) = None
           ∧ signal_states t !! (ID row, name) = None) →
  signals_fresh (process_row d row t)
  ∧ ∀ other name, other ≠ ID row →
      last_signals (process_row d row t) !! (other, name)
      = last_signals t !! (other, name)
      ∧ signal_states (process_row d row t) !! (other, name)
        = signal_states t !! (other, name).
Proof.
  intros Hf Hnone. unfold process_row.
  pose proof (message_row_signals_fresh d row t Hf) as Hf1.
  destruct (message_row_frame d row t) as (_ & _ & El & Es).
  remember (message_row d row t) as t1 eqn:Ht1.
  set (t2 := byte_row row t1).
  assert (Hf2 : signals_fresh t2) by exact Hf1.
  assert (El2 : last_signals t2 = last_signals t) by exact El.
  assert (Es2 : signal_states t2 = signal_states t) by exact Es.
  clearbody t2. rewrite <- El2, <- Es2 in *. clear El Es Hf Hf1 Ht1 t1.
  unfold signal_rows. destruct d as [d|]; [|by split].
  destruct (Py.fromhex _); [|by split].
  destruct (get_message_by_frame_id d (ID row)) as [m|]; [|by split].
  destruct (msg_decode m _) as [decoded|]; [|by split].
  apply signal_loop_fresh; [apply items_keys|done|].
  intros name _. apply Hnone.
Qed.

Lemma reset_highlight_spec cid t :
  tree (reset_highlight cid t) = tree t
  ∧ message_items (reset_highlight cid t) = message_items t
  ∧ signal_items (reset_highlight cid t) = signal_items t
  ∧ last_data (reset_highlight cid t) = last_data t
  ∧ last_signals (reset_highlight cid t) = last_signals t
  ∧ signal_states (reset_highlight cid t) = signal_states t
  ∧ byte_states (reset_highlight cid t)
    = match byte_states t !! cid with
      | Some states => <[cid := replicate (length states) Gray]> (byte_states t)
      | None => byte_states t
      end.
Proof. unfold reset_highlight. by destruct (byte_states t !! cid). Qed.

Lemma seek_inv_empty : seek_inv [] empty_trace.
Proof.
  split; [|split; [done|split]].
  - split; [|split; [|split]]; intros ?; intros; by simplify_map_eq.
  - intros can_id _. by repeat split.
  - intros p Hp. by apply elem_of_nil in Hp.
Qed.

Lemma seek_inv_step d seen t p :
  seek_inv seen t → ID p.2 ∉ ids seen →
  seek_inv (seen ++ [p]) (render_row d t p).
Proof.
  intros ((Hfb & Hfi & Hfs) & Htree & Hunk & Hdata) Hnew.
  destruct (Hunk _ Hnew) as (Hl & Hb & Hm & Hsig).
  unfold render_row. set (row := p.2) in *. set (t' := process_row d row t).
  destruct (reset_highlight_spec (ID row) t')
    as (Et & Em & Esi & Eld & Els & Ess & Eb).
  destruct (process_row_maps d row t) as [Eb' Eld'].
  destruct (process_row_items d row t) as [Eother Ehtml].
  destruct (process_row_signals d row t Hfs Hsig) as [Hfs' Hsame].
  fold t' in Eb', Eld', Eother, Ehtml, Hfs', Hsame, Eb.
  rewrite Eb', lookup_insert_eq in Eb.
  assert (Hgray : Forall (λ c, c = Gray)
            (lanes (known_bytes t (ID row)) 0 (payload_bytes (Data row))
               (initial_states t (ID row)
                  (length (payload_bytes (Data row)))))).
  { unfold known_bytes, initial_states. rewrite Hl, Hb. simpl.
    case_decide; by apply lanes_fresh, Forall_replicate. }
  split; [split; [|split]|split; [|split]].
  - intros can_id states. rewrite Eb.
    destruct (decide (can_id = ID row)) as [->|Hne].
    + rewrite lookup_insert_eq. intros [= <-]. by apply Forall_replicate.
    + rewrite !lookup_insert_ne by done. apply Hfb.
  - intros can_id item. rewrite Em.
    destruct (decide (can_id = ID row)) as [->|Hne].
    + intros Hitem. rewrite (Ehtml _ Hitem). by apply zip_fresh.
    + rewrite Eother by done. apply Hfi.
  - split.
    + intros key c. rewrite Ess. apply Hfs'.
    + intros key item v u c. rewrite Esi. apply Hfs'.
  - rewrite Et. subst t'. rewrite process_row_tree, Hm, Htree.
    unfold ids. by rewrite fmap_app.
  - intros can_id Hnot. unfold ids in Hnot. rewrite fmap_app in Hnot.
    apply not_elem_of_app in Hnot as [Hseen Hne].
    assert (can_id ≠ ID row) as Hne'.
    { intros ->. apply Hne. by apply list_elem_of_singleton. }
    destruct (Hunk _ Hseen) as (Hl' & Hb' & Hm' & Hsig').
    unfold unknown. rewrite Eld, Eb, Em, Eld'.
    repeat split.
    + by rewrite lookup_insert_ne.
    + by rewrite !lookup_insert_ne.
    + by rewrite Eother.
    + rewrite Els. destruct (Hsame can_id name Hne') as [-> _]. apply Hsig'.
    + rewrite Ess. destruct (Hsame can_id name Hne') as [_ ->]. apply Hsig'.
  - intros q Hq. rewrite Eld, Eld'. apply elem_of_app in Hq as [Hq|Hq].
    + rewrite lookup_insert_ne; [by apply Hdata|].
      intros E. apply Hnew. unfold ids. apply list_elem_of_fmap.
      by exists q.
    + apply list_elem_of_singleton in Hq as ->. apply lookup_insert_eq.
Qed.

Lemma seek_inv_foldl d l seen t :
  seek_inv seen t → NoDup (ids (seen ++ l)) →
  seek_inv (seen ++ l) (foldl (render_row d) t l).
Proof.
  revert seen t. induction l as [|p l IH]; intros seen t Hinv Hnd.
  { by rewrite app_nil_r. }
  cbn [foldl]. replace (seen ++ p :: l)%list with ((seen ++ [p]) ++ l)%list
    in * by (by rewrite <- app_assoc).
  apply IH; [|done]. apply seek_inv_step; [done|].
  unfold ids in Hnd. rewrite !fmap_app in Hnd.
  apply NoDup_app in Hnd as [Hnd _]. apply NoDup_app in Hnd as (_ & Hnd & _).
  intros Hin. apply (Hnd _ Hin). simpl. by left.
Qed.

Lemma iloc_in_range (fs : list Frame) (i : Z) :
  0 ≤ i < len fs → iloc fs i = fs !! Z.to_nat i.
Proof.
  intros Hi. unfold iloc.
  replace ((0 <=? i) && (i <? len fs)) with true; [done|].
  symmetry. apply andb_true_iff. split; [apply Z.leb_le|apply Z.ltb_lt]; lia.
Qed.

(** A jump, as one state update: the trace is rebuilt from the empty one,
    whatever it was. *)
Lemma slider_moved_jump (w : MainWindow) (k : Z) :
  0 ≤ k < len (loader_df w) →
  k ≠ current_index w + 1 →
  ∃ row,
    loader_df w !! Z.to_nat k = Some row
    ∧ slider_moved k w
      = (Return tt,
         set_time (Timestamp row)
           (set_slider (set_value k (slider w))
              (set_trace
                 (foldl (render_row (loader_db w)) empty_trace
                    (latest_frames (loader_df w) k))
                 (set_current_index k w)))).
Proof.
  intros Hk Hne. set (reps := latest_frames (loader_df w) k).
  set (w1 := set_trace empty_trace (set_current_index k w)).
  assert (Hrun : slider_moved k w = (render reps ;; update_ui_common) w1).
  { unfold slider_moved, bind at 1, get.
    destruct (k =? current_index w + 1) eqn:E; [lia|]. reflexivity. }
  assert (Hrender : render reps w1
            = (Return tt,
               set_trace (foldl (render_row (loader_db w)) empty_trace reps)
                 w1)).
  { apply (render_run reps w1). intros i f Hin.
    apply latest_frames_elem in Hin as (Hi & Hf & _); [|done].
    cbn [w1 loader_df set_trace set_current_index].
    rewrite iloc_in_range by lia. exact Hf. }
  destruct (lookup_lt_is_Some_2 (loader_df w) (Z.to_nat k)) as [row Hrow].
  { unfold len in Hk. lia. }
  exists row. split; [done|].
  rewrite Hrun. unfold bind at 1. rewrite Hrender.
  unfold update_ui_common, bind, get, modify, of_option.
  cbn [w1 loader_df current_index set_trace set_current_index set_slider].
  rewrite iloc_in_range by lia. rewrite Hrow. reflexivity.
Qed.

(** C1, as the code has it. On a recording with a row at [k], a move of
    the slider to [k], when [k] is not the index after the current one,
    returns with the current index at [k] and a trace that does not depend
    on the one before: it is the empty trace in which one frame per
    identifier was processed, the last frame of each identifier among the
    rows 0 to [k], in the order of their time stamps (the rows of the tree
    are in that order, and the last payloads are theirs). In that trace
    every state and every colour shown, of bytes and of signals, is
    Fresh. *)
Theorem seek_renders_latest_frames_fresh (w : MainWindow) (k : Z) :
  0 ≤ k < len (loader_df w) →
  k ≠ current_index w + 1 →
  let reps := latest_frames (loader_df w) k in
  ∃ w',
    slider_moved k w = (Return tt, w')
    ∧ current_index w' = k
    ∧ trace w' = foldl (render_row (loader_db w)) empty_trace reps
    ∧ (∀ i f, (i, f) ∈ reps
         ↔ 0 ≤ i ≤ k ∧ loader_df w !! Z.to_nat i = Some f
           ∧ ∀ j g, i < j ≤ k → loader_df w !! Z.to_nat j = Some g →
               ID g ≠ ID f)
    ∧ NoDup (ids reps)
    ∧ StronglySorted (λ a b, (Timestamp a.2 <= Timestamp b.2)%Q) reps
    ∧ tree (trace w') = ids reps
    ∧ (∀ i f, (i, f) ∈ reps →
         last_data (trace w') !! ID f = Some (Py.pad_even (Data f)))
    ∧ all_fresh (trace w').
Proof.
  intros Hk Hne reps.
  pose proof (latest_frames_elem (loader_df w) k) as Helem.
  pose proof (latest_frames_nodup (loader_df w) k) as Hnd.
  fold reps in Helem, Hnd. fold (ids reps) in Hnd.
  destruct (seek_inv_foldl (loader_db w) reps [] empty_trace seek_inv_empty Hnd)
    as (Hfresh & Htree & _ & Hdata).
  rewrite app_nil_l in *.
  destruct (slider_moved_jump w k Hk Hne) as (row & Hrow & Hrun).
  eexists. split; [exact Hrun|].
  cbn [current_index trace set_time set_slider set_trace set_current_index].
  split; [done|]. split; [done|].
  split; [intros i f; by apply Helem|].
  split; [done|]. split; [apply latest_frames_sorted|].
  split; [done|]. split; [|done].
  intros i f Hin. by apply (Hdata (i, f)).
Qed.

Lemma seek_renders_latest_frames_fresh_witness :
  ∃ w',
    slider_moved 2
      (Sample.process_all [0] (Sample.window Sample.steady None))
    = (Return tt, w')
    ∧ current_index w' = 2
    ∧ all_fresh (trace w').
Proof.
  destruct (seek_renders_latest_frames_fresh
              (Sample.process_all [0] (Sample.window Sample.steady None)) 2)
    as (w' & Hrun & Hk & _ & _ & _ & _ & _ & _ & Hfresh).
  - vm_compute. split; [discriminate|reflexivity].
  - vm_compute. discriminate.
  - by exists w'.
Defined.

(** C1 as stated fails at the index after the current one: the slot then
    makes a forward step on the trace as it is. After frame 0 of three
    frames of one identifier whose byte 0 is 01, 02, 02, a move of the
    slider to 1 leaves byte 0 Changed. *)
Lemma seek_to_next_index_steps :
  let w := Sample.process_all [0] (Sample.window Sample.steady None) in
  current_index w = 0
  ∧ len (loader_df w) = 3
  ∧ (slider_moved 1 w).1 = Return tt
  ∧ current_index (slider_moved 1 w).2 = 1
  ∧ lane_state (trace (slider_moved 1 w).2) 7 0 = Some Changed
  ∧ ¬ all_fresh (trace (slider_moved 1 w).2).
Proof.
  repeat split; try (vm_compute; reflexivity).
  intros (Hb & _).
  assert (E : byte_states
                (trace (slider_moved 1
                   (Sample.process_all [0]
                      (Sample.window Sample.steady None))).2) !! 7
              = Some [Red]) by (vm_compute; reflexivity).
  apply Hb in E. by inversion E.
Qed.

(** X4. Seek determinism: a jump to [k] made a second time, right after the
    first, returns with the window exactly as the first left it. *)
Theorem seek_twice_same (w : MainWindow) (k : Z) :
  0 ≤ k < len (loader_df w) →
  k ≠ current_index w + 1 →
  slider_moved k (slider_moved k w).2 = (Return tt, (slider_moved k w).2).
Proof.
  intros Hk Hne.
  destruct (slider_moved_jump w k Hk Hne) as (row & Hrow & ->).
  cbn [snd].
  set (w1 := set_time _ _).
  destruct (slider_moved_jump w1 k) as (row' & Hrow' & ->).
  { exact Hk. }
  { cbn [w1 current_index set_time set_slider set_trace set_current_index].
    lia. }
  cbn [w1 loader_df set_time set_slider set_trace set_current_index]
    in Hrow'.
  rewrite Hrow in Hrow'. injection Hrow' as <-.
  reflexivity.
Qed.

Lemma seek_twice_same_witness :
  let w := Sample.process_all [0] (Sample.window Sample.steady None) in
  slider_moved 2 (slider_moved 2 w).2 = (Return tt, (slider_moved 2 w).2).
Proof.
  intros w. apply (seek_twice_same w 2).
  - vm_compute. split; [discriminate|reflexivity].
  - vm_compute. discriminate.
Defined.

(** X5. [process_frame] keeps the state vectors in step with the last
    payloads: after it, as before it, an identifier has a state vector
    exactly when it has a last payload, with one colour for each byte of
    it. *)
Theorem process_frame_keeps_coherent (index : Z) (w : MainWindow) :
  coherent (trace w) → coherent (trace (process_frame index w).2).
Proof.
  intros Hc. unfold process_frame, bind, get, of_option.
  destruct (iloc (loader_df w) index) as [row|]; [|done].
  cbn [ret modify snd trace set_trace]. by apply coherent_process_row.
Qed.

Lemma process_frame_keeps_coherent_witness :
  coherent
    (trace (process_frame 0 (Sample.window Sample.shrinking None)).2).
Proof.
  apply (process_frame_keeps_coherent 0 (Sample.window Sample.shrinking None)).
  apply coherent_empty.
Defined.

(** X8. A move of the slider to the index after the current one is a
    forward step; a forward step onto a row processes exactly that row on
    the trace as it is and makes it the current one; at the last row it
    changes nothing. *)
Theorem seek_next_is_forward_step (w : MainWindow) :
  slider_moved (current_index w + 1) w = step_forward w
  ∧ (∀ row,
       0 ≤ current_index w + 1 →
       loader_df w !! Z.to_nat (current_index w + 1) = Some row →
       ∃ w', step_forward w = (Return tt, w')
             ∧ current_index w' = current_index w + 1
             ∧ trace w' = process_row (loader_db w) row (trace w))
  ∧ (current_index w = len (loader_df w) - 1 →
     step_forward w = (Return tt, w)).
Proof.
  split; [|split].
  - unfold slider_moved, bind, get. by rewrite Z.eqb_refl.
  - intros row Hpos Hrow. pose proof (lookup_lt_Some _ _ _ Hrow) as Hlt.
    unfold step_forward, bind at 1, get at 1.
    destruct (loader_df w) as [|f fs] eqn:Hdf; [done|]. cbn [empty].
    rewrite <- Hdf in *.
    destruct (current_index w <? len (loader_df w) - 1) eqn:E.
    2:{ unfold len in E. lia. }
    assert (Hiloc : iloc (loader_df w) (current_index w + 1) = Some row).
    { rewrite iloc_in_range; [done|]. unfold len. lia. }
    eexists. split.
    { unfold bind, modify, process_frame, update_ui_common, bind, get,
        modify, of_option.
      cbn [loader_df current_index set_current_index set_trace set_slider].
      rewrite Hiloc. unfold ret.
      cbn [loader_df current_index set_current_index set_trace set_slider].
      rewrite Hiloc. reflexivity. }
    done.
  - intros Hlast. unfold step_forward, bind, get.
    destruct (empty (loader_df w)); [done|].
    destruct (current_index w <? len (loader_df w) - 1) eqn:E; [lia|done].
Qed.

(** C5, at the window as it starts, with no recording: the three guarded
    operations return at once, but a move of the slider to any value other
    than the next index stores the value as the current index and then
    raises when [update_ui_common] reads the row at that index. *)
Theorem seek_on_empty_store_raises :
  (∀ w, loader_df w = [] →
     step_forward w = (Return tt, w)
     ∧ step_back w = (Return tt, w)
     ∧ update_playback w = (Return tt, w))
  ∧ (∀ w val, loader_df w = [] → val ≠ current_index w + 1 →
       (slider_moved val w).1 = Raise IndexError
       ∧ current_index (slider_moved val w).2 = val)
  ∧ (let '(r, w) := slider_moved 5 __init__ in
     r = Raise IndexError ∧ current_index w = 5 ∧ current_index __init__ = 0).
Proof.
  split.
  { intros w Hw. unfold step_forward, step_back, update_playback, bind, get.
    by rewrite Hw. }
  split.
  { intros w val Hw Hval. unfold slider_moved, bind, get.
    destruct (val =? current_index w + 1) eqn:E; [lia|].
    unfold latest_frames. rewrite Hw. unfold Py.slice. simpl.
    rewrite firstn_nil. simpl.
    unfold update_ui_common, bind, get, modify. simpl. rewrite Hw.
    by destruct val. }
  vm_compute. done.
Qed.

End UIFacts.

(** ** The trace: signal colours and shape *)

Module TraceFacts.
Import UI DFFacts UIFacts.

Lemma signal_row_other can_id m t kv key :
  key ≠ (can_id, kv.1) →
  signal_items (signal_row can_id m t kv) !! key = signal_items t !! key
  ∧ last_signals (signal_row can_id m t kv) !! key = last_signals t !! key
  ∧ signal_states (signal_row can_id m t kv) !! key
    = signal_states t !! key.
Proof.
  destruct kv as [name val]. cbn [fst]. intros Hk. unfold signal_row.
  case_match; cbn [signal_items last_signals signal_states]; [|done].
  by rewrite !lookup_insert_ne.
Qed.

Lemma signal_row_at can_id m t name val it :
  let key := (can_id, name) in
  let t' := signal_row can_id m t (name, val) in
  signal_items t !! key = Some it →
  signal_items t' !! key
  = Some (mkSigItem (sitem_name it)
            (Some (val, unit_text m name, signal_rule t key val)))
  ∧ last_signals t' !! key = Some val
  ∧ signal_states t' !! key = Some (signal_rule t key val).
Proof.
  intros key t' Hit. subst t'. unfold signal_row. fold key. rewrite Hit.
  cbn [signal_items last_signals signal_states].
  rewrite !lookup_insert_eq. done.
Qed.

Lemma signal_row_none can_id m t name val :
  signal_items t !! (can_id, name) = None →
  signal_row can_id m t (name, val) = t.
Proof. intros H. unfold signal_row. by rewrite H. Qed.

Lemma signal_loop_other can_id m kvs t key :
  (∀ name, name ∈ kvs.*1 → key ≠ (can_id, name)) →
  let t' := foldl (signal_row can_id m) t kvs in
  signal_items t' !! key = signal_items t !! key
  ∧ last_signals t' !! key = last_signals t !! key
  ∧ signal_states t' !! key = signal_states t !! key.
Proof.
  revert t. induction kvs as [|kv kvs IH]; intros t Hk; [done|].
  cbn [foldl].
  destruct (IH (signal_row can_id m t kv)) as (E1 & E2 & E3).
  { intros name Hn. apply Hk. cbn. apply elem_of_cons. by right. }
  destruct (signal_row_other can_id m t kv key) as (F1 & F2 & F3).
  { apply Hk. cbn. apply elem_of_cons. by left. }
  cbn zeta. rewrite E1, E2, E3. done.
Qed.

Lemma signal_loop_at can_id m kvs t name val :
  NoDup kvs.*1 → (name, val) ∈ kvs →
  let key := (can_id, name) in
  let t' := foldl (signal_row can_id m) t kvs in
  match signal_items t !! key with
  | Some it =>
      signal_items t' !! key
      = Some (mkSigItem (sitem_name it)
                (Some (val, unit_text m name, signal_rule t key val)))
      ∧ last_signals t' !! key = Some val
      ∧ signal_states t' !! key = Some (signal_rule t key val)
  | None =>
      signal_items t' !! key = None
      ∧ last_signals t' !! key = last_signals t !! key
      ∧ signal_states t' !! key = signal_states t !! key
  end.
Proof.
  revert t. induction kvs as [|kv kvs IH]; intros t Hnd Hin.
  { by apply elem_of_nil in Hin. }
  cbn [fmap list_fmap] in Hnd. apply NoDup_cons in Hnd as [Hfresh Hnd].
  cbn zeta. cbn [foldl].
  apply elem_of_cons in Hin as [<-|Hin].
  - cbn [fst] in Hfresh.
    pose proof (signal_loop_other can_id m kvs
                  (signal_row can_id m t (name, val)) (can_id, name)) as Ho.
    cbn zeta in Ho. destruct Ho as (E1 & E2 & E3).
    { intros n Hn [= ->]. done. }
    rewrite E1, E2, E3.
    destruct (signal_items t !! (can_id, name)) as [it|] eqn:Hit.
    + by apply signal_row_at.
    + rewrite signal_row_none by done. by rewrite Hit.
  - assert (kv.1 ≠ name) as Hne.
    { intros <-. apply Hfresh. apply list_elem_of_fmap. by exists (kv.1, val). }
    destruct (signal_row_other can_id m t kv (can_id, name))
      as (F1 & F2 & F3); [congruence|].
    specialize (IH (signal_row can_id m t kv) Hnd Hin). cbn zeta in IH.
    rewrite F1 in IH.
    assert (signal_rule (signal_row can_id m t kv) (can_id, name) val
            = signal_rule t (can_id, name) val) as Hr.
    { unfold signal_rule, signal_changed. by rewrite F2, F3. }
    rewrite Hr, F2, F3 in IH. exact IH.
Qed.

Lemma new_signal_items_in (can_id : Z) (sigs : list SignalDef)
    (m : gmap (Z * string) SignalItem) name :
  name ∈ sig_name <$> sigs →
  foldl (λ m sg, <[(can_id, sig_name sg) := mkSigItem (sig_name sg) None]> m)
    m sigs !! (can_id, name) = Some (mkSigItem name None).
Proof.
  induction sigs as [|sg sigs IH] using rev_ind; intros Hin.
  { by apply elem_of_nil in Hin. }
  rewrite foldl_app. cbn [foldl].
  destruct (decide (sig_name sg = name)) as [<-|Hne].
  - by rewrite lookup_insert_eq.
  - rewrite lookup_insert_ne by congruence. apply IH.
    rewrite fmap_app in Hin. apply elem_of_app in Hin as [Hin|Hin]; [done|].
    cbn in Hin. apply list_elem_of_singleton in Hin. congruence.
Qed.

Lemma new_signal_items_out (can_id : Z) (sigs : list SignalDef)
    (m : gmap (Z * string) SignalItem) key :
  (∀ name, name ∈ sig_name <$> sigs → key ≠ (can_id, name)) →
  foldl (λ m sg, <[(can_id, sig_name sg) := mkSigItem (sig_name sg) None]> m)
    m sigs !! key = m !! key.
Proof.
  induction sigs as [|sg sigs IH] using rev_ind; intros Hout; [done|].
  rewrite foldl_app. cbn [foldl].
  rewrite lookup_insert_ne.
  - apply IH. intros name Hn. apply Hout. rewrite fmap_app.
    apply elem_of_app. by left.
  - intros E. apply (Hout (sig_name sg)); [|done].
    rewrite fmap_app. apply elem_of_app. right. cbn.
    by apply list_elem_of_singleton.
Qed.

Lemma message_row_signal_items d row t :
  signal_items (message_row d row t)
  = match message_items t !! ID row with
    | Some _ => signal_items t
    | None =>
        foldl (λ m sg, <[(ID row, sig_name sg) := mkSigItem (sig_name sg) None]> m)
          (signal_items t)
          (default [] (msg_signals <$> lookup_message d (ID row)))
    end.
Proof. unfold message_row. by case_match. Qed.

Lemma byte_row_signals row t :
  signal_items (byte_row row t) = signal_items t
  ∧ last_signals (byte_row row t) = last_signals t
  ∧ signal_states (byte_row row t) = signal_states t.
Proof. done. Qed.

Lemma signal_rule_ext t1 t2 key val :
  last_signals t1 !! key = last_signals t2 !! key →
  signal_states t1 !! key = signal_states t2 !! key →
  signal_rule t1 key val = signal_rule t2 key val.
Proof. intros E1 E2. unfold signal_rule, signal_changed. by rewrite E1, E2. Qed.

(** X9. The signal colours follow the three-state rule of the bytes. When a
    frame decodes, a decoded signal has a row after the call exactly when it
    had one before or the message row is new and the database lists the
    signal; for a signal with a row the value is stored and shown in the
    colour of the rule (red when it differs from the value last stored,
    otherwise red settles to yellow, yellow stays and gray stays); for a
    decoded signal without a row nothing is stored. *)
Theorem signal_three_state_rule (d : Database) (row : Frame) (t : Trace)
    (msg_def : MessageDef) (data_bytes : list Z) (decoded : Dict)
    (name : string) (val : Value) :
  Py.fromhex (Py.pad_even (Data row)) = Some data_bytes →
  get_message_by_frame_id d (ID row) = Some msg_def →
  msg_decode msg_def data_bytes = Some decoded →
  (name, val) ∈ items decoded →
  let key := (ID row, name) in
  let t' := process_row (Some d) row t in
  (is_Some (signal_items t' !! key)
   ↔ is_Some (signal_items t !! key)
     ∨ (message_items t !! ID row = None
        ∧ name ∈ sig_name <$> msg_signals msg_def))
  ∧ (is_Some (signal_items t' !! key) →
     last_signals t' !! key = Some val
     ∧ signal_states t' !! key = Some (signal_rule t key val)
     ∧ ∃ it, signal_items t' !! key = Some it
             ∧ sitem_html it
               = Some (val, unit_text msg_def name, signal_rule t key val))
  ∧ (signal_items t' !! key = None →
     last_signals t' !! key = last_signals t !! key
     ∧ signal_states t' !! key = signal_states t !! key).
Proof.
  intros Hhex Hmsg Hdec Hin key t'.
  set (t1 := byte_row row (message_row (Some d) row t)).
  assert (t' = foldl (signal_row (ID row) msg_def) t1 (items decoded)) as Ht'.
  { subst t' t1. unfold process_row, signal_rows. by rewrite Hhex, Hmsg, Hdec. }
  destruct (message_row_frame (Some d) row t) as (_ & _ & Hls & Hss).
  assert (last_signals t1 = last_signals t) as Hls1 by exact Hls.
  assert (signal_states t1 = signal_states t) as Hss1 by exact Hss.
  assert (signal_items t1 = signal_items (message_row (Some d) row t)) as Hsi1
    by done.
  pose proof (signal_loop_at (ID row) msg_def (items decoded) t1 name val
                (items_keys decoded) Hin) as Hloop.
  cbn zeta in Hloop. fold key in Hloop. rewrite <- Ht' in Hloop.
  rewrite (signal_rule_ext t1 t key val) in Hloop
    by (by rewrite ?Hls1, ?Hss1).
  rewrite Hls1, Hss1 in Hloop.
  assert (is_Some (signal_items t1 !! key)
          ↔ is_Some (signal_items t !! key)
            ∨ (message_items t !! ID row = None
               ∧ name ∈ sig_name <$> msg_signals msg_def)) as Hdom.
  { rewrite Hsi1, message_row_signal_items.
    destruct (message_items t !! ID row) as [it0|] eqn:Hmi.
    - split; [by left|]. intros [?|[? _]]; done.
    - unfold lookup_message. cbn [mbind option_bind]. rewrite Hmsg.
      cbn [fmap option_fmap option_map default].
      destruct (decide (name ∈ sig_name <$> msg_signals msg_def)) as [Hn|Hn].
      + unfold key. rewrite new_signal_items_in by done.
        split; [by right|by eexists].
      + rewrite new_signal_items_out.
        * split; [by left|]. intros [?|[_ ?]]; done.
        * intros n Hn' [= ->]. done. }
  destruct (signal_items t1 !! key) as [it|] eqn:Hit.
  - destruct Hloop as (E1 & E2 & E3). rewrite E1. split; [|split].
    + rewrite <- Hdom. split; by eexists.
    + intros _. repeat split; [done..|]. eexists. split; [done|]. done.
    + done.
  - destruct Hloop as (E1 & E2 & E3). rewrite E1. split; [|split].
    + rewrite <- Hdom. done.
    + intros [? ?]; done.
    + done.
Qed.

Lemma signal_three_state_rule_witness :
  let t :=
    process_row (Some Sample.database) (mkFrame 0 4 1 "04" 1) empty_trace in
  signal_states (process_row (Some Sample.database) (mkFrame 1 4 1 "05" 1) t)
    !! (4, "Speed")
  = Some Changed.
Proof.
  intros t.
  destruct (signal_three_state_rule Sample.database (mkFrame 1 4 1 "05" 1) t
              Sample.engine [5] (Sample.dict1 "Speed" (VNum (inject_Z 5)))
              "Speed" (VNum (inject_Z 5)))
    as (Hdom & Hrule & _); [reflexivity..| |].
  - apply list_elem_of_singleton. reflexivity.
  - destruct Hrule as (_ & Hs & _).
    + apply Hdom. left. vm_compute. by eexists.
    + refine (eq_trans Hs _). vm_compute. reflexivity.
Defined.

(** *** The shape of the trace *)

Lemma is_Some_alter {A} (f : A → A) (m : gmap Z A) (i j : Z) :
  is_Some (alter f i m !! j) ↔ is_Some (m !! j).
Proof.
  destruct (decide (i = j)) as [->|Hne].
  - rewrite lookup_alter_eq. apply fmap_is_Some.
  - by rewrite lookup_alter_ne.
Qed.

Lemma message_row_items_dom d row t can_id :
  is_Some (message_items (message_row d row t) !! can_id)
  ↔ can_id = ID row ∨ is_Some (message_items t !! can_id).
Proof.
  unfold message_row.
  destruct (message_items t !! ID row) as [it|] eqn:Hit;
    cbn [message_items]; rewrite is_Some_alter.
  - split; [by right|]. intros [->|?]; [by eexists|done].
  - destruct (decide (can_id = ID row)) as [->|Hne].
    + rewrite lookup_insert_eq. split; [by left|by eexists].
    + rewrite lookup_insert_ne by done. split; [by right|].
      intros [?|?]; done.
Qed.

Lemma process_row_items_dom d row t can_id :
  is_Some (message_items (process_row d row t) !! can_id)
  ↔ can_id = ID row ∨ is_Some (message_items t !! can_id).
Proof.
  unfold process_row.
  destruct (signal_rows_frame d row (byte_row row (message_row d row t)))
    as (_ & _ & _ & ->).
  unfold byte_row at 1. cbn [message_items]. rewrite is_Some_alter.
  apply message_row_items_dom.
Qed.

Lemma shown_ok_process_row d row t :
  shown_ok t → shown_ok (process_row d row t).
Proof.
  intros H can_id item Hit.
  destruct (process_row_maps d row t) as (Hb & Hl).
  destruct (process_row_items d row t) as (Ho & Hs).
  destruct (decide (can_id = ID row)) as [->|Hne].
  - eexists _, _. rewrite Hb, Hl, !lookup_insert_eq.
    split; [done|split; [done|]]. rewrite payload_bytes_pad. by apply Hs.
  - rewrite Ho in Hit by done.
    destruct (H _ _ Hit) as (data & states & ? & ? & ?).
    exists data, states. rewrite Hb, Hl, !lookup_insert_ne by done. done.
Qed.

Lemma rows_ok_process_row d row t :
  rows_ok t → rows_ok (process_row d row t).
Proof.
  intros (Hnd & Htree & Hdom).
  destruct (process_row_maps d row t) as (_ & Hl).
  assert (∀ can_id, can_id ∈ tree (process_row d row t)
                    ↔ can_id = ID row ∨ can_id ∈ tree t) as Hin.
  { intros can_id. rewrite process_row_tree.
    destruct (message_items t !! ID row) as [it|] eqn:Hit.
    - split; [by right|]. intros [->|?]; [|done].
      apply Htree. by eexists.
    - rewrite elem_of_app, list_elem_of_singleton. tauto. }
  split; [|split].
  - rewrite process_row_tree.
    destruct (message_items t !! ID row) as [it|] eqn:Hit; [done|].
    apply NoDup_app. split; [done|]. split; [|apply NoDup_singleton].
    intros x Hx ->%list_elem_of_singleton.
    apply Htree in Hx as [? Hx]. congruence.
  - intros can_id. rewrite Hin, process_row_items_dom, Htree. done.
  - intros can_id. rewrite process_row_items_dom, Hl, Hdom.
    destruct (decide (can_id = ID row)) as [->|Hne].
    + rewrite lookup_insert_eq. split; [by eexists|by left].
    + rewrite lookup_insert_ne by done. split; [|by right].
      intros [?|?]; done.
Qed.

Lemma signals_ok_signal_row can_id m t kv :
  signals_ok t → signals_ok (signal_row can_id m t kv).
Proof.
  destruct kv as [name val]. intros H. unfold signal_row.
  destruct (signal_items t !! (can_id, name)) as [it|] eqn:Hit; [|done].
  intros key. cbn [signal_items message_items last_signals signal_states].
  destruct (decide (key = (can_id, name))) as [->|Hne].
  - rewrite !lookup_insert_eq. cbn. split; [|done].
    intros _. apply (H (can_id, name)). rewrite Hit. by eexists.
  - rewrite !lookup_insert_ne by done. apply H.
Qed.

Lemma signals_ok_signal_loop can_id m kvs t :
  signals_ok t → signals_ok (foldl (signal_row can_id m) t kvs).
Proof.
  revert t. induction kvs as [|kv kvs IH]; intros t H; [done|].
  cbn [foldl]. apply IH. by apply signals_ok_signal_row.
Qed.

Lemma signals_ok_message_row d row t :
  signals_ok t → signals_ok (message_row d row t).
Proof.
  intros H [c n].
  destruct (message_row_frame d row t) as (_ & _ & -> & ->).
  rewrite message_row_signal_items, message_row_items_dom. cbn [fst].
  destruct (message_items t !! ID row) as [it|] eqn:Hit.
  { destruct (H (c, n)) as [H1 H2]. split; [|done]. intros ?. right. auto. }
  set (sigs := default [] (msg_signals <$> lookup_message d (ID row))).
  destruct (decide (c = ID row)) as [->|Hc].
  - destruct (decide (n ∈ sig_name <$> sigs)) as [Hn|Hn].
    + rewrite new_signal_items_in by done. cbn. split; [by left|].
      destruct (H (ID row, n)) as [H1 H2].
      destruct (signal_items t !! (ID row, n)) as [it'|] eqn:Hit'; [|done].
      destruct H1 as [? H1]; [by eexists|]. cbn in H1. congruence.
    + rewrite new_signal_items_out by (intros n' Hn' [= ->]; done).
      destruct (H (ID row, n)) as [H1 H2]. split; [by left|done].
  - rewrite new_signal_items_out by (intros n' Hn' [= ->]; done).
    destruct (H (c, n)) as [H1 H2]. split; [|done]. intros ?. right. auto.
Qed.

Lemma signals_ok_process_row d row t :
  signals_ok t → signals_ok (process_row d row t).
Proof.
  intros H. apply signals_ok_message_row with (d := d) (row := row) in H.
  assert (signals_ok (byte_row row (message_row d row t))) as H2.
  { intros key. destruct (H key) as [H1 H3]. split; [|exact H3].
    unfold byte_row. cbn [signal_items message_items].
    rewrite is_Some_alter. exact H1. }
  unfold process_row, signal_rows.
  repeat case_match; try done. by apply signals_ok_signal_loop.
Qed.

Lemma well_formed_empty : well_formed empty_trace.
Proof.
  split; [apply coherent_empty|]. split; [|split].
  - intros can_id item H. cbn in H. by rewrite lookup_empty in H.
  - split; [constructor|]. split; intros can_id; cbn;
      rewrite ?lookup_empty, ?elem_of_nil; split;
      (done || by intros [? ?]).
  - intros key. cbn. rewrite !lookup_empty. cbn. split; [|done].
    by intros [? ?].
Qed.

Lemma well_formed_process_row d row t :
  well_formed t → well_formed (process_row d row t).
Proof.
  intros (H1 & H2 & H3 & H4). split; [by apply coherent_process_row|].
  split; [by apply shown_ok_process_row|].
  split; [by apply rows_ok_process_row|by apply signals_ok_process_row].
Qed.

Lemma all_gray_replicate (l : list Colour) :
  Forall (λ c, c = Gray) l → l = replicate (length l) Gray.
Proof.
  induction 1 as [|c l -> _ IH]; [done|]. cbn. by rewrite <- IH.
Qed.

Lemma well_formed_render_row d t p :
  well_formed t → message_items t !! ID p.2 = None →
  well_formed (render_row d t p).
Proof.
  intros Hwf Hnew. pose proof Hwf as (Hc & _ & (_ & _ & Hdom) & _).
  assert (last_data t !! ID p.2 = None) as Hld.
  { apply eq_None_not_Some. rewrite <- Hdom. rewrite Hnew. by intros [? ?]. }
  assert (byte_states t !! ID p.2 = None) as Hbs.
  { specialize (Hc (ID p.2)). rewrite Hld in Hc.
    by destruct (byte_states t !! ID p.2). }
  apply well_formed_process_row with (d := d) (row := p.2) in Hwf.
  destruct Hwf as (H1 & H2 & H3 & H4).
  unfold render_row.
  destruct (reset_highlight_spec (ID p.2) (process_row d p.2 t))
    as (Et & Em & Esi & Eld & Els & Ess & Ebs).
  split; [by apply coherent_reset_highlight|]. split; [|split].
  - intros can_id item. rewrite Em, Eld, Ebs. intros Hit.
    destruct (H2 _ _ Hit) as (data & states & Hd & Hs & Hh).
    exists data. rewrite process_row_states in *.
    destruct (decide (can_id = ID p.2)) as [->|Hne].
    + rewrite lookup_insert_eq. eexists. split; [done|split; [done|]].
      rewrite process_row_states in Hs. injection Hs as <-.
      rewrite Hh. f_equal. apply all_gray_replicate.
      unfold known_bytes. rewrite Hld. apply lanes_fresh.
      unfold initial_states. rewrite Hbs. cbn [default].
      case_decide; by apply Forall_replicate.
    + rewrite lookup_insert_ne by done. by exists states.
  - unfold rows_ok. rewrite Et, Em, Eld. exact H3.
  - intros key. rewrite Esi, Em, Els, Ess. apply H4.
Qed.

Lemma render_row_items_other d t p can_id :
  can_id ≠ ID p.2 →
  message_items (render_row d t p) !! can_id = message_items t !! can_id.
Proof.
  intros Hne. unfold render_row.
  destruct (reset_highlight_spec (ID p.2) (process_row d p.2 t))
    as (_ & -> & _).
  by apply process_row_items.
Qed.

Lemma well_formed_foldl_render d l t :
  well_formed t → NoDup (ids l) →
  (∀ p, p ∈ l → message_items t !! ID p.2 = None) →
  well_formed (foldl (render_row d) t l).
Proof.
  revert t. induction l as [|a l IH]; intros t Hwf Hnd Hnew; [done|].
  cbn [foldl]. unfold ids in Hnd. cbn [fmap list_fmap] in Hnd.
  apply NoDup_cons in Hnd as [Ha Hnd].
  apply IH; [|done|].
  - apply well_formed_render_row; [done|]. apply Hnew, elem_of_cons. by left.
  - intros p Hp. rewrite render_row_items_other.
    + apply Hnew, elem_of_cons. by right.
    + intros E. apply Ha. rewrite <- E. apply list_elem_of_fmap. by exists p.
Qed.

(** *** The texts of a message row *)

(** X27. The texts of a message row. After [process_frame] the row of the
    frame's identifier shows the time stamp and the declared length of that
    frame; the channel and the message name are those written when the row
    was created, from the first frame seen with the identifier and the
    database loaded then, and are never written again. The rows of the
    other identifiers are left as they are. *)
Theorem message_row_texts (d : option Database) (row : Frame) (t : Trace) :
  let t' := process_row d row t in
  (∃ item,
     message_items t' !! ID row = Some item
     ∧ item_time item = Timestamp row
     ∧ item_dlc item = DLC row
     ∧ match message_items t !! ID row with
       | Some old =>
           item_channel item = item_channel old
           ∧ item_name item = item_name old
       | None =>
           item_channel item = Channel row
           ∧ item_name item
             = default "Unknown" (msg_name <$> lookup_message d (ID row))
       end)
  ∧ ∀ can_id, can_id ≠ ID row →
      message_items t' !! can_id = message_items t !! can_id.
Proof.
  intros t'. split; [|apply process_row_items].
  subst t'. unfold process_row.
  destruct (signal_rows_frame d row (byte_row row (message_row d row t)))
    as (_ & _ & _ & ->).
  unfold byte_row at 1. cbn [message_items]. rewrite lookup_alter_eq.
  unfold message_row.
  destruct (message_items t !! ID row) as [old|] eqn:Hold;
    cbn [message_items]; rewrite lookup_alter_eq.
  - rewrite Hold. cbn. eexists. by repeat split.
  - rewrite lookup_insert_eq. cbn. eexists. by repeat split.
Qed.

End TraceFacts.

(** ** Navigation *)

Module NavFacts.
Import UI DFFacts UIFacts TraceFacts.

Lemma latest_frames_iloc (fs : list Frame) (k i : Z) (f : Frame) :
  (i, f) ∈ latest_frames fs k → iloc fs i = Some f.
Proof.
  unfold latest_frames. rewrite sort_perm. intros Hin.
  apply tail1_elem in Hin as (n & Hn & _).
  apply list_elem_of_lookup_2 in Hn.
  unfold Py.slice in Hn. apply subseteq_take, subseteq_drop in Hn.
  unfold indexed in Hn.
  apply elem_of_lookup_imap in Hn as (j & g & [= -> ->] & Hj).
  pose proof (lookup_lt_Some _ _ _ Hj) as Hlt.
  rewrite iloc_in_range by (unfold len; lia). by rewrite Nat2Z.id.
Qed.

Lemma update_ui_common_frame (w : MainWindow) :
  let w' := (update_ui_common w).2 in
  trace w' = trace w ∧ loader_df w' = loader_df w
  ∧ loader_db w' = loader_db w ∧ current_index w' = current_index w
  ∧ is_playing w' = is_playing w.
Proof.
  unfold update_ui_common, bind, get, modify, of_option, ret, raise.
  cbn [loader_df set_slider current_index].
  by destruct (iloc (loader_df w) (current_index w)).
Qed.

Lemma slider_moved_trace (w : MainWindow) (val : Z) :
  val ≠ current_index w + 1 →
  let w' := (slider_moved val w).2 in
  trace w'
  = foldl (render_row (loader_db w)) empty_trace
      (latest_frames (loader_df w) val)
  ∧ loader_df w' = loader_df w ∧ loader_db w' = loader_db w.
Proof.
  intros Hval. set (reps := latest_frames (loader_df w) val).
  set (w1 := set_trace empty_trace (set_current_index val w)).
  assert (Hrun : slider_moved val w = (render reps ;; update_ui_common) w1).
  { unfold slider_moved, bind at 1, get.
    destruct (val =? current_index w + 1) eqn:E; [lia|]. reflexivity. }
  assert (Hrender : render reps w1
            = (Return tt,
               set_trace (foldl (render_row (loader_db w)) empty_trace reps)
                 w1)).
  { apply (render_run reps w1). intros i f Hin.
    by apply latest_frames_iloc in Hin. }
  cbn zeta. rewrite Hrun. unfold bind. rewrite Hrender.
  cbv beta iota.
  match goal with |- context [update_ui_common ?x] =>
    destruct (update_ui_common_frame x) as (E1 & E2 & E3 & _) end.
  rewrite E1, E2, E3. done.
Qed.

Lemma step_forward_eq (w : MainWindow) :
  step_forward w
  = if empty (loader_df w) then (Return tt, w)
    else if current_index w <? len (loader_df w) - 1
    then match iloc (loader_df w) (current_index w + 1) with
         | Some row =>
             update_ui_common
               (set_trace (process_row (loader_db w) row (trace w))
                  (set_current_index (current_index w + 1) w))
         | None =>
             (Raise IndexError, set_current_index (current_index w + 1) w)
         end
    else (Return tt, w).
Proof.
  unfold step_forward, process_frame, bind, get, modify, of_option, ret,
    raise.
  destruct (empty (loader_df w)); [done|].
  destruct (current_index w <? len (loader_df w) - 1); [|done].
  cbn [loader_df set_current_index].
  by destruct (iloc (loader_df w) (current_index w + 1)).
Qed.

Lemma update_playback_cases (w : MainWindow) :
  update_playback w = step_forward w
  ∨ (loader_df w ≠ [] ∧ len (loader_df w) - 1 ≤ current_index w
     ∧ update_playback w
       = (Return tt, set_is_playing (negb (is_playing w)) w)).
Proof.
  unfold update_playback, step_forward, bind, get.
  destruct (loader_df w) eqn:Hdf; [by left|]. cbn [empty].
  destruct (current_index w <? len (f :: l) - 1) eqn:E; [by left|].
  right. split; [done|]. split; [lia|]. reflexivity.
Qed.

Lemma step_back_cases (w : MainWindow) :
  step_back w = (Return tt, w)
  ∨ ∃ v, step_back w
         = slider_moved v
             (set_slider (mkSlider v (slider_min (slider w))
                            (slider_max (slider w))) w)
         ∧ v = clamp (slider w) (current_index w - 1)
         ∧ v ≠ slider_value (slider w)
         ∧ 0 < current_index w.
Proof.
  unfold step_back, slider_setValue, bind, get, modify, ret.
  destruct (empty (loader_df w)); [by left|].
  destruct (current_index w >? 0) eqn:E; [|by left].
  destruct (clamp (slider w) (current_index w - 1) =? slider_value (slider w))
    eqn:E2; [by left|].
  right. eexists. split; [reflexivity|]. split; [done|]. lia.
Qed.

Lemma well_formed_step_forward (w : MainWindow) :
  well_formed (trace w) → well_formed (trace (step_forward w).2).
Proof.
  intros Hwf. rewrite step_forward_eq.
  destruct (empty (loader_df w)); [done|].
  destruct (current_index w <? len (loader_df w) - 1); [|done].
  destruct (iloc (loader_df w) (current_index w + 1)) as [row|]; [|done].
  match goal with |- context [update_ui_common ?x] =>
    destruct (update_ui_common_frame x) as (-> & _) end.
  by apply well_formed_process_row.
Qed.

Lemma well_formed_slider_moved (w : MainWindow) (val : Z) :
  well_formed (trace w) → well_formed (trace (slider_moved val w).2).
Proof.
  intros Hwf. destruct (decide (val = current_index w + 1)) as [->|Hne].
  - assert (slider_moved (current_index w + 1) w = step_forward w) as ->.
    { unfold slider_moved, bind, get. by rewrite Z.eqb_refl. }
    by apply well_formed_step_forward.
  - destruct (slider_moved_trace w val Hne) as (-> & _).
    apply well_formed_foldl_render.
    + apply well_formed_empty.
    + apply latest_frames_nodup.
    + intros p _. apply lookup_empty.
Qed.

(** X10. The trace stays well formed under every operation of the view,
    also one that raises: the state vector of an identifier has one colour
    per byte of its last payload, the label of a message row shows that
    payload in the stored colours, the rows of the tree are the identifiers
    seen, each once, and a signal row shows the value and the colour stored
    for it. *)
Theorem navigation_keeps_trace_well_formed (w : MainWindow) :
  well_formed (trace w) →
  (∀ index, well_formed (trace (process_frame index w).2))
  ∧ well_formed (trace (step_forward w).2)
  ∧ well_formed (trace (update_playback w).2)
  ∧ (∀ val, well_formed (trace (slider_moved val w).2))
  ∧ well_formed (trace (step_back w).2).
Proof.
  intros Hwf. split; [|split; [|split; [|split]]].
  - intros index. unfold process_frame, bind, get, of_option.
    destruct (iloc (loader_df w) index) as [row|]; [|done].
    cbn [ret modify snd trace set_trace]. by apply well_formed_process_row.
  - by apply well_formed_step_forward.
  - destruct (update_playback_cases w) as [->|(_ & _ & ->)]; [|done].
    by apply well_formed_step_forward.
  - intros val. by apply well_formed_slider_moved.
  - destruct (step_back_cases w) as [->|(v & -> & _)]; [done|].
    by apply well_formed_slider_moved.
Qed.

Lemma navigation_keeps_trace_well_formed_witness :
  well_formed
    (trace (slider_moved 2 (Sample.window Sample.steady None)).2).
Proof.
  apply (navigation_keeps_trace_well_formed
           (Sample.window Sample.steady None)).
  apply well_formed_empty.
Defined.

(** *** The position *)

Lemma update_ui_common_nav (w : MainWindow) :
  0 ≤ current_index w < len (loader_df w) →
  slider_min (slider w) = 0 →
  slider_max (slider w) = len (loader_df w) - 1 →
  ∃ w', update_ui_common w = (Return tt, w')
        ∧ nav_ok w' ∧ same_recording w w'
        ∧ trace w' = trace w
        ∧ current_index w' = current_index w
        ∧ is_playing w' = is_playing w.
Proof.
  intros Hci Hmin Hmax.
  destruct (lookup_lt_is_Some_2 (loader_df w) (Z.to_nat (current_index w)))
    as [row Hrow].
  { unfold len in Hci. lia. }
  eexists. split.
  { unfold update_ui_common, bind, get, modify, of_option.
    cbn [loader_df current_index set_slider].
    rewrite iloc_in_range by done. rewrite Hrow. reflexivity. }
  split; [|done].
  unfold nav_ok.
  cbn [set_time set_slider current_index loader_df slider lbl_time plot_line].
  split; [done|]. split; [|by rewrite Hrow].
  unfold set_value, clamp. rewrite Hmin, Hmax. f_equal. lia.
Qed.

Lemma step_forward_nav (w : MainWindow) :
  nav_ok w →
  ∃ w', step_forward w = (Return tt, w')
        ∧ nav_ok w' ∧ same_recording w w'
        ∧ is_playing w' = is_playing w
        ∧ current_index w'
          = Z.min (current_index w + 1) (len (loader_df w) - 1)
        ∧ trace w'
          = match loader_df w !! Z.to_nat (current_index w + 1) with
            | Some row => process_row (loader_db w) row (trace w)
            | None => trace w
            end.
Proof.
  intros Hnav. pose proof Hnav as (Hci & Hsl & _).
  rewrite step_forward_eq.
  destruct (loader_df w) as [|f0 l0] eqn:Hdf.
  { unfold len in Hci. cbn in Hci. lia. }
  cbn [empty]. rewrite <- Hdf in *.
  destruct (current_index w <? len (loader_df w) - 1) eqn:E.
  - rewrite iloc_in_range by lia.
    destruct (lookup_lt_is_Some_2 (loader_df w)
                (Z.to_nat (current_index w + 1))) as [row Hrow].
    { unfold len in E. lia. }
    rewrite Hrow.
    set (w1 := set_trace (process_row (loader_db w) row (trace w))
                 (set_current_index (current_index w + 1) w)).
    destruct (update_ui_common_nav w1)
      as (w' & Hrun & Hnav' & Hsame & Ht & Hc & Hp).
    + cbn [w1 current_index set_trace set_current_index loader_df]. lia.
    + cbn [w1 slider set_trace set_current_index]. by rewrite Hsl.
    + cbn [w1 slider set_trace set_current_index loader_df]. by rewrite Hsl.
    + exists w'. split; [done|]. split; [done|].
      split; [done|]. split; [done|]. split; [|done].
      rewrite Hc. cbn [w1 current_index set_trace set_current_index]. lia.
  - exists w. split; [done|]. split; [done|]. split; [done|].
    split; [done|]. split; [lia|].
    rewrite lookup_ge_None_2; [done|]. unfold len in *. lia.
Qed.

Lemma slider_moved_nav (w : MainWindow) (val : Z) :
  0 ≤ val < len (loader_df w) →
  slider_min (slider w) = 0 →
  slider_max (slider w) = len (loader_df w) - 1 →
  val ≠ current_index w + 1 →
  ∃ w', slider_moved val w = (Return tt, w')
        ∧ nav_ok w' ∧ same_recording w w'
        ∧ is_playing w' = is_playing w
        ∧ current_index w' = val
        ∧ trace w'
          = foldl (render_row (loader_db w)) empty_trace
              (latest_frames (loader_df w) val).
Proof.
  intros Hval Hmin Hmax Hne.
  destruct (slider_moved_jump w val Hval Hne) as (row & Hrow & ->).
  eexists. split; [reflexivity|]. split; [|done].
  unfold nav_ok.
  cbn [set_time set_slider set_trace set_current_index current_index
       loader_df slider lbl_time plot_line].
  split; [done|]. split; [|by rewrite Hrow].
  unfold set_value, clamp. rewrite Hmin, Hmax. f_equal. lia.
Qed.

Lemma step_back_eq (w : MainWindow) :
  0 ≤ current_index w < len (loader_df w) →
  slider w = mkSlider (current_index w) 0 (len (loader_df w) - 1) →
  step_back w
  = if 0 <? current_index w
    then slider_moved (current_index w - 1)
           (set_slider
              (mkSlider (current_index w - 1) 0 (len (loader_df w) - 1)) w)
    else (Return tt, w).
Proof.
  intros Hci Hsl.
  unfold step_back, slider_setValue, bind, get, modify, ret.
  destruct (empty (loader_df w)) eqn:He.
  { destruct (loader_df w); [unfold len in Hci; cbn in Hci; lia|done]. }
  destruct (current_index w >? 0) eqn:E1;
    destruct (0 <? current_index w) eqn:E0; try lia; [|done].
  rewrite Hsl. unfold clamp. cbn [slider_min slider_max slider_value].
  destruct (_ =? _) eqn:E2; [lia|].
  replace (0 `max` ((len (loader_df w) - 1) `min` (current_index w - 1)))
    with (current_index w - 1) by lia.
  reflexivity.
Qed.

(** X11. From a window that points at a row of the recording, with the
    slider over the rows, every navigation operation returns without
    raising and leaves such a window on the same recording: a forward step
    and a playback tick move to the next row and stay on the last one, a
    move of the slider to a row makes it the current one, a step back moves
    to the row before and stays on the first one. *)
Theorem navigation_stays_in_range (w : MainWindow) :
  nav_ok w →
  (∃ w', step_forward w = (Return tt, w')
         ∧ nav_ok w' ∧ same_recording w w'
         ∧ is_playing w' = is_playing w
         ∧ current_index w'
           = Z.min (current_index w + 1) (len (loader_df w) - 1))
  ∧ (∃ w', update_playback w = (Return tt, w')
           ∧ nav_ok w' ∧ same_recording w w'
           ∧ current_index w'
             = Z.min (current_index w + 1) (len (loader_df w) - 1))
  ∧ (∀ val, 0 ≤ val < len (loader_df w) →
       ∃ w', slider_moved val w = (Return tt, w')
             ∧ nav_ok w' ∧ same_recording w w'
             ∧ is_playing w' = is_playing w
             ∧ current_index w' = val)
  ∧ (∃ w', step_back w = (Return tt, w')
           ∧ nav_ok w' ∧ same_recording w w'
           ∧ is_playing w' = is_playing w
           ∧ current_index w' = Z.max (current_index w - 1) 0).
Proof.
  intros Hnav. pose proof Hnav as (Hci & Hsl & _).
  destruct (step_forward_nav w Hnav)
    as (wf & Hf & Hnf & Hsf & Hpf & Hcf & _).
  split; [by exists wf|]. split; [|split].
  - destruct (update_playback_cases w) as [->|(_ & Hend & ->)].
    + by exists wf.
    + eexists. split; [reflexivity|]. split; [exact Hnav|].
      split; [done|]. cbn [current_index set_is_playing]. lia.
  - intros val Hval.
    destruct (decide (val = current_index w + 1)) as [->|Hne].
    + assert (slider_moved (current_index w + 1) w = step_forward w) as ->.
      { unfold slider_moved, bind, get. by rewrite Z.eqb_refl. }
      exists wf. repeat (split; [done|]). lia.
    + destruct (slider_moved_nav w val) as (w' & ? & ? & ? & ? & ? & _);
        [done|by rewrite Hsl..|done|].
      by exists w'.
  - rewrite step_back_eq by done.
    destruct (0 <? current_index w) eqn:E0.
    + match goal with |- context [slider_moved _ ?x] => set (w2 := x) end.
      destruct (slider_moved_nav w2 (current_index w - 1))
        as (w' & ? & ? & ? & ? & ? & _).
      * cbn [w2 loader_df set_slider]. lia.
      * done.
      * done.
      * cbn [w2 current_index set_slider]. lia.
      * exists w'. repeat (split; [done|]). lia.
    + exists w. repeat (split; [done|]). lia.
Qed.

Lemma navigation_stays_in_range_witness :
  ∃ w', step_back Sample.at_end
        = (Return tt, w')
        ∧ nav_ok w' ∧ current_index w' = 1.
Proof.
  destruct (navigation_stays_in_range
              Sample.at_end)
    as (_ & _ & _ & w' & Hrun & Hnav & _ & _ & Hci).
  - unfold nav_ok. cbn. repeat split; (lia || reflexivity).
  - exists w'. split; [exact Hrun|]. split; [exact Hnav|].
    rewrite Hci. reflexivity.
Defined.

(** X12. A step back is a jump: from a window in range and not on the
    first row it returns with the row before as the current one and the
    trace rebuilt from nothing, one frame per identifier seen up to that
    row, every byte and signal Fresh; on the first row it changes
    nothing. *)
Theorem step_back_rebuilds_fresh (w : MainWindow) :
  nav_ok w →
  (0 < current_index w →
   ∃ w', step_back w = (Return tt, w')
         ∧ current_index w' = current_index w - 1
         ∧ trace w'
           = foldl (render_row (loader_db w)) empty_trace
               (latest_frames (loader_df w) (current_index w - 1))
         ∧ all_fresh (trace w'))
  ∧ (current_index w = 0 → step_back w = (Return tt, w)).
Proof.
  intros (Hci & Hsl & _). split.
  - intros Hpos.
    rewrite step_back_eq by done.
    destruct (0 <? current_index w) eqn:E0; [|lia].
    match goal with |- context [slider_moved _ ?x] => set (w2 := x) end.
    destruct (slider_moved_nav w2 (current_index w - 1))
      as (w' & Hrun & _ & _ & _ & Hc & Ht).
    + cbn [w2 loader_df set_slider]. lia.
    + done.
    + done.
    + cbn [w2 current_index set_slider]. lia.
    + exists w'. split; [done|]. split; [done|]. split; [done|].
      rewrite Ht.
      apply (seek_inv_foldl (loader_db w2)
               (latest_frames (loader_df w2) (current_index w - 1))
               [] empty_trace seek_inv_empty).
      apply latest_frames_nodup.
  - intros H0. unfold step_back, bind, get, ret.
    destruct (empty (loader_df w)); [done|].
    destruct (current_index w >? 0) eqn:E1; [lia|done].
Qed.

Lemma step_back_rebuilds_fresh_witness :
  ∃ w', step_back Sample.at_end
        = (Return tt, w')
        ∧ current_index w' = 1 ∧ all_fresh (trace w').
Proof.
  destruct (step_back_rebuilds_fresh
              Sample.at_end)
    as [H _].
  - unfold nav_ok. cbn. repeat split; (lia || reflexivity).
  - destruct H as (w' & Hrun & Hci & _ & Hfresh); [cbn; lia|].
    exists w'. split; [exact Hrun|]. split; [exact Hci|exact Hfresh].
Defined.

(** *** Playback *)

Lemma update_playback_end (w : MainWindow) :
  loader_df w ≠ [] → len (loader_df w) - 1 ≤ current_index w →
  update_playback w = (Return tt, set_is_playing (negb (is_playing w)) w).
Proof.
  intros Hdf Hend. unfold update_playback, toggle_playback, bind, get, modify.
  destruct (loader_df w) eqn:E; [done|]. cbn [empty].
  destruct (current_index w <? len (f :: l) - 1) eqn:E'; [lia|done].
Qed.

(** X13. Playback is stepping. From a window in range, [n] ticks of the
    timer that stay within the recording return with the index moved on by
    [n], playback still in the state it was, and the trace that processing
    the next [n] rows one after the other on the trace as it was gives; on
    the last row a tick only stops playback. *)
Theorem playback_runs_to_the_end (n : nat) (w : MainWindow) :
  nav_ok w →
  current_index w + Z.of_nat n ≤ len (loader_df w) - 1 →
  ∃ w', ticks n w = (Return tt, w')
        ∧ nav_ok w' ∧ same_recording w w'
        ∧ current_index w' = current_index w + Z.of_nat n
        ∧ is_playing w' = is_playing w
        ∧ trace w'
          = foldl (λ t row, process_row (loader_db w) row t) (trace w)
              (take n (drop (S (Z.to_nat (current_index w))) (loader_df w)))
        ∧ (current_index w' = len (loader_df w) - 1 →
           update_playback w'
           = (Return tt, set_is_playing (negb (is_playing w)) w')).
Proof.
  revert w. induction n as [|n IH]; intros w Hnav Hn.
  - exists w. do 3 (split; [done|]). split; [lia|]. do 2 (split; [done|]).
    intros Hlast. destruct Hnav as (Hci & _).
    apply update_playback_end; [|lia].
    intros E. rewrite E in Hci. unfold len in Hci. cbn in Hci. lia.
  - pose proof Hnav as (Hci & _).
    destruct (step_forward_nav w Hnav)
      as (w1 & Hrun & Hnav1 & (Hdf1 & Hdb1) & Hp1 & Hc1 & Ht1).
    assert (current_index w1 = current_index w + 1) as Hc1' by lia.
    destruct (lookup_lt_is_Some_2 (loader_df w)
                (Z.to_nat (current_index w + 1))) as [row Hrow].
    { unfold len in Hn. lia. }
    rewrite Hrow in Ht1.
    destruct (IH w1 Hnav1) as (w' & Hrun' & Hnav' & (Hdf' & Hdb') & Hc' & Hp'
                                & Ht' & Hend').
    { rewrite Hdf1. lia. }
    exists w'. split.
    { cbn [ticks]. unfold bind.
      destruct (update_playback_cases w) as [->|(_ & Hend & _)]; [|lia].
      rewrite Hrun. exact Hrun'. }
    split; [done|]. split; [split; congruence|]. split; [lia|].
    split; [congruence|]. split.
    + rewrite Ht', Ht1, Hdb1, Hdf1, Hc1'.
      replace (Z.to_nat (current_index w + 1))
        with (S (Z.to_nat (current_index w))) in * by lia.
      rewrite (drop_S _ _ _ Hrow). reflexivity.
    + rewrite Hdf1, Hp1 in Hend'. exact Hend'.
Qed.

Lemma playback_runs_to_the_end_witness :
  ∃ w', ticks 2 Sample.at_start = (Return tt, w') ∧ current_index w' = 2.
Proof.
  destruct (playback_runs_to_the_end 2 Sample.at_start)
    as (w' & Hrun & _ & _ & Hci & _).
  - unfold nav_ok. cbn. repeat split; (lia || reflexivity).
  - vm_compute. discriminate.
  - exists w'. split; [exact Hrun|exact Hci].
Defined.

(** *** Jumping and stepping *)

Lemma stepping_last_data d (fs : list Frame) (t : Trace) :
  last_data (foldl (λ t row, process_row d row t) t fs)
  = foldl (λ m f, <[ID f := Py.pad_even (Data f)]> m) (last_data t) fs.
Proof.
  revert t. induction fs as [|f fs IH]; intros t; [done|].
  cbn [foldl]. rewrite IH. f_equal. apply process_row_maps.
Qed.

Lemma latest_payloads_lookup (l : list Frame) (can_id : Z) (v : string) :
  latest_payloads l !! can_id = Some v
  ↔ ∃ (n : nat) f, l !! n = Some f ∧ ID f = can_id
      ∧ v = Py.pad_even (Data f)
      ∧ ∀ (m : nat) g, (n < m)%nat → l !! m = Some g → ID g ≠ can_id.
Proof.
  unfold latest_payloads.
  induction l as [|x l IH] using rev_ind.
  { cbn. rewrite lookup_empty. split; [done|]. by intros (n & f & ? & _). }
  rewrite foldl_app. cbn [foldl].
  destruct (decide (ID x = can_id)) as [Hx|Hx].
  - rewrite <- Hx, lookup_insert_eq. split.
    + intros [= <-]. exists (length l), x. split.
      { rewrite lookup_app_r by lia. by rewrite Nat.sub_diag. }
      split; [done|]. split; [done|].
      intros m g Hm Hg. apply lookup_lt_Some in Hg.
      rewrite length_app in Hg. cbn in Hg. lia.
    + intros (n & f & Hn & Hf & -> & Hlast).
      destruct (decide (n = length l)) as [->|Hne].
      * rewrite lookup_app_r in Hn by lia. rewrite Nat.sub_diag in Hn.
        by injection Hn as ->.
      * exfalso. pose proof (lookup_lt_Some _ _ _ Hn) as Hlt.
        rewrite length_app in Hlt. cbn in Hlt.
        apply (Hlast (length l) x); [lia| |congruence].
        rewrite lookup_app_r by lia. by rewrite Nat.sub_diag.
  - rewrite lookup_insert_ne by done. rewrite IH. split.
    + intros (n & f & Hn & Hf & -> & Hlast). exists n, f.
      split; [by apply lookup_app_l_Some|]. split; [done|]. split; [done|].
      intros m g Hm Hg. apply lookup_app_Some in Hg as [Hg|[_ Hg]].
      * by apply (Hlast m g).
      * apply list_lookup_singleton_Some in Hg as [_ <-]. done.
    + intros (n & f & Hn & Hf & -> & Hlast).
      apply lookup_app_Some in Hn as [Hn|[_ Hn]].
      * exists n, f. split; [done|]. split; [done|]. split; [done|].
        intros m g Hm Hg. apply (Hlast m g); [done|].
        by apply lookup_app_l_Some.
      * apply list_lookup_singleton_Some in Hn as [_ <-]. done.
Qed.

Lemma well_formed_stepping d (fs : list Frame) (t : Trace) :
  well_formed t →
  well_formed (foldl (λ t row, process_row d row t) t fs).
Proof.
  revert t. induction fs as [|f fs IH]; intros t Hwf; [done|].
  cbn [foldl]. by apply IH, well_formed_process_row.
Qed.

(** X14. A jump and stepping agree on what was last seen. After a move of
    the slider to a row [k] (not the one after the current row) the last
    payload recorded for each identifier is the one recorded by processing
    the rows 0 to [k] one after the other from the empty trace, namely the
    payload of the last of these rows with that identifier, and the tree
    has a row for the same identifiers. *)
Theorem seek_and_stepping_agree_on_payloads (w : MainWindow) (k : Z) :
  0 ≤ k < len (loader_df w) →
  k ≠ current_index w + 1 →
  let prefix := take (S (Z.to_nat k)) (loader_df w) in
  let seek := trace (slider_moved k w).2 in
  let stepped :=
    foldl (λ t row, process_row (loader_db w) row t) empty_trace prefix in
  last_data seek = latest_payloads prefix
  ∧ last_data stepped = latest_payloads prefix
  ∧ (∀ can_id, can_id ∈ tree seek ↔ can_id ∈ tree stepped).
Proof.
  intros Hk Hne prefix seek stepped.
  destruct (slider_moved_trace w k Hne) as (Ht & _). fold seek in Ht.
  set (reps := latest_frames (loader_df w) k) in *.
  assert (seek_inv reps seek) as (_ & _ & Hunknown & Hknown).
  { rewrite Ht.
    apply (seek_inv_foldl (loader_db w) reps [] empty_trace seek_inv_empty).
    apply latest_frames_nodup. }
  assert (∀ (n : nat) f, prefix !! n = Some f
            ↔ loader_df w !! n = Some f ∧ Z.of_nat n ≤ k) as Hpre.
  { intros n f. unfold prefix. rewrite lookup_take_Some. split.
    - intros [? ?]. split; [done|lia].
    - intros [? ?]. split; [done|lia]. }
  assert (last_data seek = latest_payloads prefix) as Eseek.
  { apply map_eq. intros can_id.
    destruct (latest_payloads prefix !! can_id) as [v|] eqn:E.
    - apply latest_payloads_lookup in E as (n & f & Hn & <- & -> & Hlast).
      apply Hpre in Hn as [Hn Hnk].
      apply (Hknown (Z.of_nat n, f)).
      apply latest_frames_elem; [done|]. split; [lia|].
      rewrite Nat2Z.id. split; [done|].
      intros j g Hj Hg. apply (Hlast (Z.to_nat j) g); [lia|].
      apply Hpre. split; [done|lia].
    - destruct (decide (can_id ∈ ids reps)) as [Hin|Hout].
      + exfalso. apply list_elem_of_fmap in Hin as ([i f] & -> & Hin).
        cbn [snd] in E.
        apply latest_frames_elem in Hin as (Hi & Hf & Hlast); [|done].
        assert (latest_payloads prefix !! ID f
                = Some (Py.pad_even (Data f))) as E'; [|congruence].
        apply latest_payloads_lookup. exists (Z.to_nat i), f.
        split; [apply Hpre; split; [done|lia]|]. split; [done|].
        split; [done|].
        intros m g Hm Hg. apply Hpre in Hg as [Hg Hmk].
        apply (Hlast (Z.of_nat m) g); [lia|]. by rewrite Nat2Z.id.
      + by destruct (Hunknown can_id Hout) as (-> & _). }
  assert (last_data stepped = latest_payloads prefix) as Estep.
  { unfold stepped. by rewrite stepping_last_data. }
  split; [done|]. split; [done|].
  assert (well_formed seek) as (_ & _ & (_ & Hs1 & Hs2) & _).
  { rewrite Ht. apply well_formed_foldl_render.
    - apply well_formed_empty.
    - apply latest_frames_nodup.
    - intros p _. apply lookup_empty. }
  assert (well_formed stepped) as (_ & _ & (_ & Hp1 & Hp2) & _).
  { apply well_formed_stepping, well_formed_empty. }
  intros can_id. rewrite Hs1, Hs2, Hp1, Hp2, Eseek, Estep. done.
Qed.

Lemma seek_and_stepping_agree_on_payloads_witness :
  last_data (trace (slider_moved 2 Sample.at_start).2)
  = latest_payloads (take 3 Sample.steady).
Proof.
  apply (seek_and_stepping_agree_on_payloads Sample.at_start 2).
  - vm_compute. split; [discriminate|reflexivity].
  - vm_compute. discriminate.
Defined.

End NavFacts.

(** ** Reading the loader *)

Module AccessFacts.
Import Loader DFFacts LoaderFacts.

(** *** Labels *)

Lemma positions_absent name cols k :
  name ∉ cols → DF.positions name cols k = [].
Proof.
  revert k. induction cols as [|c cols IH]; intros k Hout; [done|].
  cbn [DF.positions]. apply not_elem_of_cons in Hout as [Hne Hout].
  destruct (c =? name)%string eqn:E.
  - apply String.eqb_eq in E. congruence.
  - by apply IH.
Qed.

Lemma positions_nodup name cols k :
  NoDup cols → name ∈ cols →
  ∃ j : nat, cols !! j = Some name ∧ DF.positions name cols k = [(k + j)%nat].
Proof.
  revert k. induction cols as [|c cols IH]; intros k Hnd Hin.
  { by apply elem_of_nil in Hin. }
  apply NoDup_cons in Hnd as [Hc Hnd]. cbn [DF.positions].
  destruct (c =? name)%string eqn:E.
  - apply String.eqb_eq in E. subst c. exists 0%nat. split; [done|].
    rewrite positions_absent by done. by rewrite Nat.add_0_r.
  - apply String.eqb_neq in E.
    apply elem_of_cons in Hin as [?|Hin]; [congruence|].
    destruct (IH (S k) Hnd Hin) as (j & Hj & ->).
    exists (S j). split; [done|]. f_equal. lia.
Qed.

(** *** [get_signal_trace] *)

Lemma trace_loop (tp : list Cell → option (Cell * Value))
    (l : list (list Cell)) (ts0 : list Cell) (vs0 : list Value) :
  foldl (λ '(timestamps, values) row,
           match tp row with
           | Some (ts, v) => ((timestamps ++ [ts])%list, (values ++ [v])%list)
           | None => (timestamps, values)
           end) (ts0, vs0) l
  = ((ts0 ++ (omap tp l).*1)%list, (vs0 ++ (omap tp l).*2)%list).
Proof.
  revert ts0 vs0. induction l as [|row l IH]; intros ts0 vs0.
  { cbn. by rewrite !app_nil_r. }
  cbn [foldl omap list_omap]. destruct (tp row) as [[ts v]|].
  - rewrite IH. cbn [fmap list_fmap fst snd]. by rewrite <- !app_assoc.
  - apply IH.
Qed.

Lemma omap_length_le {A B} (f : A → option B) (l : list A) :
  (length (omap f l) ≤ length l)%nat.
Proof.
  induction l as [|x l IH]; [done|]. cbn. destruct (f x); cbn; lia.
Qed.

Lemma get_signal_trace_run (s : CANLoader) (can_id : Z)
    (signal_name : string) :
  NoDup (columns (df s)) →
  let points :=
    omap (trace_point s can_id signal_name)
      (List.filter
         (λ r, cell_is can_id (default CNaN (DF.cell (df s) r "ID")))
         (rows (df s))) in
  get_signal_trace can_id signal_name s
  = (if DF.empty (df s) then Return ([], [])
     else if decide ("ID" ∈ columns (df s))
          then Return (points.*1, points.*2)
          else Raise KeyError,
     s).
Proof.
  intros Hnd points.
  unfold get_signal_trace, bind, get, DF.column_index.
  destruct (DF.empty (df s)); [done|].
  destruct (decide ("ID" ∈ columns (df s))) as [Hin|Hout].
  - destruct (positions_nodup "ID" (columns (df s)) 0 Hnd Hin)
      as (i & _ & Hpos).
    rewrite Hpos. unfold ret. f_equal.
    rewrite trace_loop. cbn [app]. do 3 f_equal.
    all: subst points; unfold DF.cell; by rewrite Hpos.
  - by rewrite positions_absent.
Qed.

(** X15. [get_signal_trace] on a table with distinct labels. It never
    changes the loader. On an empty table it returns two empty lists; on a
    table without an [ID] column it raises [KeyError]; otherwise it returns
    two lists of one length, made row by row, in table order, from the rows
    whose [ID] cell equals the identifier: a row gives a point when its
    payload is text that [bytes.fromhex] accepts as it stands, the message
    decodes, the signal is among the decoded ones and the row has a time
    stamp. Without a database, or for an identifier the database does not
    know, the lists are empty. *)
Theorem get_signal_trace_points (s : CANLoader) (can_id : Z)
    (signal_name : string) :
  NoDup (columns (df s)) →
  let out := get_signal_trace can_id signal_name s in
  let selected :=
    List.filter
      (λ r, cell_is can_id (default CNaN (DF.cell (df s) r "ID")))
      (rows (df s)) in
  let points := omap (trace_point s can_id signal_name) selected in
  out.2 = s
  ∧ out.1
    = (if DF.empty (df s) then Return ([], [])
       else if decide ("ID" ∈ columns (df s))
            then Return (points.*1, points.*2)
            else Raise KeyError)
  ∧ length points.*1 = length points.*2
  ∧ (length points ≤ length selected)%nat
  ∧ (db s = None → points = [])
  ∧ (∀ d, db s = Some d → get_message_by_frame_id d can_id = None →
       points = []).
Proof.
  intros Hnd out selected points.
  assert (∀ l, (∀ row, trace_point s can_id signal_name row = None) →
               omap (trace_point s can_id signal_name) l = []) as Hnone.
  { intros l H. induction l as [|r l IH]; [done|]. cbn. by rewrite H. }
  assert (out.2 = s
          ∧ out.1
            = (if DF.empty (df s) then Return ([], [])
               else if decide ("ID" ∈ columns (df s))
                    then Return (points.*1, points.*2)
                    else Raise KeyError)) as [H1 H2].
  { subst out. by rewrite (get_signal_trace_run s can_id signal_name Hnd). }
  split; [done|]. split; [done|].
  split; [by rewrite !length_fmap|].
  split; [apply omap_length_le|]. split.
  - intros Hdb. apply Hnone. intros row. unfold trace_point, decode_message.
    rewrite Hdb.
    destruct (DF.cell (df s) row "Data") as [[| |data|]|]; try done.
    by destruct (Py.fromhex data).
  - intros d Hdb Hmsg. apply Hnone. intros row.
    unfold trace_point, decode_message. rewrite Hdb, Hmsg.
    destruct (DF.cell (df s) row "Data") as [[| |data|]|]; try done.
    by destruct (Py.fromhex data).
Qed.

Lemma get_signal_trace_points_witness :
  ∃ ts, (get_signal_trace 4 "Speed" Sample.decoding).1
        = Return (ts, [VNum (inject_Z 4)]).
Proof.
  destruct (get_signal_trace_points Sample.decoding 4 "Speed")
    as (_ & H & _).
  - apply (bool_decide_unpack _). vm_compute. reflexivity.
  - eexists. refine (eq_trans H _). vm_compute. reflexivity.
Defined.

(** *** Signal names *)

Lemma signal_loop_dom can_id m kvs t key :
  is_Some (signal_items (foldl (UI.signal_row can_id m) t kvs) !! key)
  ↔ is_Some (signal_items t !! key).
Proof.
  revert t. induction kvs as [|[name val] kvs IH]; intros t; [done|].
  cbn [foldl]. rewrite IH. unfold UI.signal_row.
  destruct (signal_items t !! (can_id, name)) as [it|] eqn:Hit; [|done].
  cbn [signal_items].
  destruct (decide (key = (can_id, name))) as [->|Hne].
  - rewrite lookup_insert_eq, Hit. split; by eexists.
  - by rewrite lookup_insert_ne.
Qed.

(** X16. The signal rows under a new message row are the signals
    [get_signals_for_id] lists: when [process_frame] meets an identifier
    that has no row yet, the rows it creates under the new message row are
    those of the names the loader returns for the identifier, none without
    a database or for an unknown identifier. *)
Theorem new_message_row_lists_database_signals (s : CANLoader) (row : Frame)
    (t : Trace) :
  UI.signals_ok t →
  message_items t !! ID row = None →
  ∀ name,
    is_Some (signal_items (UI.process_row (db s) row t) !! (ID row, name))
    ↔ name ∈ get_signals_for_id s (ID row).
Proof.
  intros Hok Hnew name.
  assert (signal_items t !! (ID row, name) = None) as Hold.
  { destruct (Hok (ID row, name)) as [H _].
    destruct (signal_items t !! (ID row, name)); [|done].
    destruct H as [? H]; [by eexists|]. cbn in H. congruence. }
  assert (is_Some (signal_items (UI.process_row (db s) row t)
                     !! (ID row, name))
          ↔ is_Some (signal_items (UI.message_row (db s) row t)
                       !! (ID row, name))) as ->.
  { unfold UI.process_row, UI.signal_rows.
    repeat case_match; try done. by rewrite signal_loop_dom. }
  rewrite TraceFacts.message_row_signal_items, Hnew.
  unfold get_signals_for_id, UI.lookup_message.
  destruct (db s) as [d|]; cbn.
  2:{ rewrite Hold. split; [by intros [? ?]|by intros ?%elem_of_nil]. }
  destruct (get_message_by_frame_id d (ID row)) as [msg|]; cbn.
  2:{ rewrite Hold. split; [by intros [? ?]|by intros ?%elem_of_nil]. }
  destruct (decide (name ∈ sig_name <$> msg_signals msg)) as [Hin|Hout].
  - rewrite TraceFacts.new_signal_items_in by done. split; [done|by eexists].
  - rewrite TraceFacts.new_signal_items_out by (intros n Hn [= ->]; done).
    rewrite Hold. split; [by intros [? ?]|done].
Qed.

Lemma new_message_row_lists_database_signals_witness :
  is_Some
    (signal_items
       (UI.process_row (Some Sample.database) (mkFrame 0 4 1 "04" 1)
          UI.empty_trace) !! (4, "Speed")).
Proof.
  apply (new_message_row_lists_database_signals Sample.decoding
           (mkFrame 0 4 1 "04" 1) UI.empty_trace).
  - apply TraceFacts.well_formed_empty.
  - reflexivity.
  - vm_compute. apply list_elem_of_here.
Defined.

(** *** The decode cache and the indices *)

Lemma uncached_frame index s c :
  uncached index (set_cache c s) = uncached index s.
Proof. done. Qed.

Lemma get_decoded_string_miss (index : Z) (s : CANLoader) :
  decoded_cache s !! index = None →
  (get_decoded_string index s).1 = uncached index s
  ∧ (((get_decoded_string index s).2 = s
      ∧ ∀ res, uncached index s = Return res → res = Label "Invalid Data")
     ∨ ∃ res, uncached index s = Return res
         ∧ (get_decoded_string index s).2
           = set_cache (<[index := res]> (decoded_cache s)) s).
Proof.
  intros Hidx. unfold uncached.
  unfold get_decoded_string, bind, get, of_option, modify, ret, raise.
  rewrite Hidx. cbn [decoded_cache set_cache df db].
  rewrite lookup_empty.
  destruct (DF.iloc (df s) index) as [row|]; [|split; [done|by left]].
  destruct (DF.cell (df s) row "ID") as [can_id|]; [|split; [done|by left]].
  destruct (DF.cell (df s) row "Data") as [data|]; [|split; [done|by left]].
  destruct (data_text data ≫= Py.fromhex) as [data_bytes|].
  - cbn [fst snd]. split; [done|]. right. by eexists.
  - cbn [fst snd]. split; [done|]. left. split; [done|]. by intros res [= <-].
Qed.

(** X17. With a cache whose entries are what would be computed now, as
    after a load, [get_decoded_string] returns what it would compute
    without a cache and leaves such a cache; it changes nothing but the
    cache, stores every text it returns except [Invalid Data], and stores
    nothing when it raises. *)
Theorem cached_reads_are_transparent (index : Z) (s : CANLoader) :
  cache_sound s →
  let out := get_decoded_string index s in
  out.1 = uncached index s
  ∧ cache_sound out.2
  ∧ db out.2 = db s ∧ df out.2 = df s
  ∧ (∀ res, out.1 = Return res →
       decoded_cache out.2 !! index = Some res
       ∨ (res = Label "Invalid Data" ∧ out.2 = s))
  ∧ (∀ e, out.1 = Raise e → out.2 = s).
Proof.
  intros Hsound out. subst out.
  destruct (decoded_cache s !! index) as [r|] eqn:Hidx.
  { assert (get_decoded_string index s = (Return r, s)) as ->.
    { unfold get_decoded_string, bind, get. by rewrite Hidx. }
    cbn [fst snd]. split; [by rewrite (Hsound _ _ Hidx)|].
    split; [done|]. split; [done|]. split; [done|].
    split; [|done]. intros res [= <-]. by left. }
  destruct (get_decoded_string_miss index s Hidx)
    as [H1 [[H2 Hinv]|(res & Hres & H2)]]; rewrite H1, H2.
  - split; [done|]. split; [done|]. split; [done|]. split; [done|].
    split; [|done]. intros res Hres. right. split; [|done]. by apply Hinv.
  - split; [done|]. split.
    { intros i r. cbn [decoded_cache set_cache].
      destruct (decide (i = index)) as [->|Hne].
      - rewrite lookup_insert_eq. intros [= <-]. exact Hres.
      - rewrite lookup_insert_ne by done. apply Hsound. }
    split; [done|]. split; [done|]. split.
    + intros r Hr. left. cbn [decoded_cache set_cache].
      rewrite lookup_insert_eq. congruence.
    + intros e He. congruence.
Qed.

Lemma cached_reads_are_transparent_witness :
  (get_decoded_string 0 Sample.decoding).1
  = Return (Signals [("Speed", VNum (inject_Z 4))]).
Proof.
  destruct (cached_reads_are_transparent 0 Sample.decoding) as (H & _).
  - intros i res Hi. vm_compute in Hi. discriminate.
  - refine (eq_trans H _). vm_compute. reflexivity.
Defined.

(** X18. The two ways to a row by its index. [get_frame_by_index] returns
    a row exactly for the indices from 0 to the last one, the row [iloc]
    gives, and [None] for every other index, negative ones included;
    [get_decoded_string], for an index that is not cached, raises
    [IndexError] outside of minus the length to the last index and leaves
    the loader as it is, and for a negative index in that range computes
    what it computes for the row counted from the end. *)
Theorem row_index_bounds (s : CANLoader) (index : Z) :
  let n := DF.len (df s) in
  (is_Some (get_frame_by_index s index) ↔ 0 ≤ index < n)
  ∧ (0 ≤ index < n → get_frame_by_index s index = DF.iloc (df s) index)
  ∧ (decoded_cache s !! index = None → ¬ (- n ≤ index < n) →
     get_decoded_string index s = (Raise IndexError, s))
  ∧ (- n ≤ index < 0 → uncached index s = uncached (index + n) s).
Proof.
  intros n. subst n. unfold get_frame_by_index.
  split; [|split; [|split]].
  - destruct ((0 <=? index) && (index <? DF.len (df s))) eqn:E.
    + split; [lia|]. intros Hr. unfold DF.iloc. rewrite E.
      apply lookup_lt_is_Some_2. unfold DF.len in Hr. lia.
    + split; [by intros [? ?]|lia].
  - intros Hr.
    destruct ((0 <=? index) && (index <? DF.len (df s))) eqn:E; [done|lia].
  - intros Hidx Hout.
    unfold get_decoded_string, bind, get, of_option, raise.
    rewrite Hidx. unfold DF.iloc.
    destruct ((0 <=? index) && (index <? DF.len (df s))) eqn:E1; [lia|].
    destruct ((- DF.len (df s) <=? index) && (index <? 0)) eqn:E2; [lia|].
    done.
  - intros Hr.
    unfold uncached, get_decoded_string, bind, get, of_option, modify, ret,
      raise.
    cbn [decoded_cache set_cache df db]. rewrite !lookup_empty.
    assert (DF.iloc (df s) index = DF.iloc (df s) (index + DF.len (df s)))
      as ->.
    2:{ destruct (DF.iloc (df s) (index + DF.len (df s))) as [row|]; [|done].
        destruct (DF.cell (df s) row "ID") as [can_id|]; [|done].
        destruct (DF.cell (df s) row "Data") as [data|]; [|done].
        by destruct (data_text data ≫= Py.fromhex). }
    unfold DF.iloc.
    destruct ((0 <=? index) && (index <? DF.len (df s))) eqn:E1; [lia|].
    destruct ((- DF.len (df s) <=? index) && (index <? 0)) eqn:E2; [|lia].
    destruct ((0 <=? index + DF.len (df s))
              && (index + DF.len (df s) <? DF.len (df s))) eqn:E3; [done|lia].
Qed.

(** *** The plot and the tree *)

Lemma dict_get_in (decoded : list (string * Value)) name val :
  NoDup decoded.*1 → (name, val) ∈ decoded → dict_get decoded name = Some val.
Proof.
  unfold dict_get. induction decoded as [|[k v] decoded IH]; intros Hnd Hin.
  { by apply elem_of_nil in Hin. }
  cbn [fmap list_fmap fst] in Hnd. apply NoDup_cons in Hnd as [Hk Hnd].
  cbn [find fst]. destruct (k =? name)%string eqn:E.
  - apply String.eqb_eq in E. subst k.
    apply elem_of_cons in Hin as [[= ->]|Hin]; [done|].
    exfalso. apply Hk. apply list_elem_of_fmap. by exists (name, val).
  - apply String.eqb_neq in E.
    apply elem_of_cons in Hin as [[= ? ?]|Hin]; [congruence|]. by apply IH.
Qed.

Lemma fromhex_even (cs : list ascii) :
  (Forall (λ c, Py.is_blank c = false) cs →
   is_Some (Py.fromhex_from None cs) → Nat.even (length cs) = true)
  ∧ ∀ a, Forall (λ c, Py.is_blank c = false) (a :: cs) →
         is_Some (Py.fromhex_from None (a :: cs)) →
         Nat.even (length (a :: cs)) = true.
Proof.
  induction cs as [|b cs [IH1 IH2]].
  { split; [done|]. intros a Ha. cbn [Py.fromhex_from].
    apply Forall_cons in Ha as [-> _].
    destruct (Py.hex_value a); cbn; by intros [? ?]. }
  split; [apply IH2|].
  intros a Hall. apply Forall_cons in Hall as [Ha Hall].
  cbn [Py.fromhex_from]. rewrite Ha.
  destruct (Py.hex_value a); cbn [mbind option_bind]; [|by intros [? ?]].
  destruct (Py.hex_value b); cbn [mbind option_bind]; [|by intros [? ?]].
  destruct (Py.fromhex_from None cs) as [r|] eqn:Hr; [|by intros [? ?]].
  intros _. cbn [length Nat.even]. apply IH1; [|by eexists].
  by apply Forall_cons in Hall as [_ ?].
Qed.

Lemma chars_length (s : string) : length (Py.chars s) = String.length s.
Proof. unfold Py.chars. induction s as [|c s IH]; [done|]. cbn. by rewrite IH. Qed.

(** X28. The plot and the tree, frame by frame. On a recording made by
    one of the loaders, with a database: when the payload of a frame has an
    even number of characters, a signal value that [process_frame] decodes
    from the frame, and shows in the tree, is plotted by [get_signal_trace]
    at the time of the frame. When the payload has an odd number of
    characters, none of them blank, [process_frame] puts a zero in front
    before it decodes, but [get_signal_trace] does not: the frame gives no
    point, whatever the signal. *)
Theorem plot_matches_tree (d : Database) (fs : list Frame) (row : Frame)
    (cache : gmap Z Shown) (name : string) :
  row ∈ fs →
  let s := mkLoader (Some d) (DF.of_frames fs) cache in
  (∀ msg_def data_bytes decoded val,
     Nat.even (String.length (Data row)) = true →
     Py.fromhex (Py.pad_even (Data row)) = Some data_bytes →
     get_message_by_frame_id d (ID row) = Some msg_def →
     msg_decode msg_def data_bytes = Some decoded →
     (name, val) ∈ items decoded →
     ∃ ts vs,
       (get_signal_trace (ID row) name s).1 = Return (ts, vs)
       ∧ (CFloat (Timestamp row), val) ∈ zip ts vs)
  ∧ (Nat.even (String.length (Data row)) = false →
     Forall (λ c, Py.is_blank c = false) (Py.chars (Data row)) →
     trace_point s (ID row) name (DF.frame_row row) = None).
Proof.
  intros Hrow s. subst s. split.
  - intros msg_def data_bytes decoded val Heven Hhex Hmsg Hdec Hin.
    unfold Py.pad_even in Hhex. rewrite Heven in Hhex.
    rewrite get_signal_trace_run.
    2:{ apply (bool_decide_unpack _). vm_compute. reflexivity. }
    cbn [df].
    assert (DF.empty (DF.of_frames fs) = false) as ->.
    { cbn. destruct fs; [by apply elem_of_nil in Hrow|done]. }
    destruct (decide ("ID" ∈ columns (DF.of_frames fs))) as [_|Hout].
    2:{ exfalso. apply Hout. cbn. set_solver. }
    cbn [fst]. eexists _, _. split; [reflexivity|].
    rewrite zip_fst_snd. apply list_elem_of_omap.
    exists (DF.frame_row row). split.
    + apply list_elem_of_In, filter_In. split.
      * apply list_elem_of_In. cbn [df rows DF.of_frames].
        apply list_elem_of_fmap. by exists row.
      * cbn. apply Z.eqb_refl.
    + unfold trace_point. cbn [df]. 
      change (DF.cell (DF.of_frames fs) (DF.frame_row row) "Data")
        with (Some (CStr (Data row))).
      change (DF.cell (DF.of_frames fs) (DF.frame_row row) "Timestamp")
        with (Some (CFloat (Timestamp row))).
      cbv beta iota. rewrite Hhex. cbn [mbind option_bind].
      unfold decode_message.
      cbn [db]. rewrite Hmsg, Hdec.
      rewrite (dict_get_in _ _ _ (items_keys decoded) Hin). done.
  - intros Hodd Hblank. unfold trace_point. cbn [df].
    change (DF.cell (DF.of_frames fs) (DF.frame_row row) "Data")
      with (Some (CStr (Data row))).
    cbv beta iota.
    destruct (Py.fromhex (Data row)) as [bs|] eqn:Hhex; [|done].
    exfalso. destruct (fromhex_even (Py.chars (Data row))) as [H _].
    rewrite chars_length in H. rewrite H in Hodd; [done|done|].
    unfold Py.fromhex in Hhex. by eexists.
Qed.

Lemma plot_matches_tree_witness :
  ∃ ts vs,
    (get_signal_trace 4 "Speed"
       (mkLoader (Some Sample.database) (DF.of_frames Sample.speeds) ∅)).1
    = Return (ts, vs)
    ∧ (CFloat 1, VNum (inject_Z 5)) ∈ zip ts vs.
Proof.
  destruct (plot_matches_tree Sample.database Sample.speeds
              (mkFrame 1 4 1 "05" 1) ∅ "Speed") as [H _].
  - apply list_elem_of_further, list_elem_of_here.
  - apply (H Sample.engine [5] (Sample.dict1 "Speed" (VNum (inject_Z 5))));
      try reflexivity.
    apply list_elem_of_singleton. reflexivity.
Defined.

End AccessFacts.

(** ** What the loaders store *)

Module LoadFacts.
Import Loader DFFacts LoaderFacts Busmaster BusmasterFacts.

(** *** The vendor text format *)

Lemma seconds_of_day h m s ms :
  0 ≤ h < 24 → 0 ≤ m < 60 → 0 ≤ s < 60 → 0 ≤ ms < 10000 →
  (0 <= seconds h m s ms ∧ seconds h m s ms < 86400)%Q.
Proof.
  intros Hh Hm Hs Hms. unfold seconds.
  unfold Qle, Qlt, Qplus, Qdiv, Qmult, Qinv, inject_Z. cbn.
  split; lia.
Qed.

Lemma rel_time_of_day secs b :
  (0 <= secs ∧ secs < 86400 → 0 <= b ∧ b < 86400 →
   0 <= rel_time secs b ∧ rel_time secs b < 86400)%Q.
Proof.
  intros [H1 H2] [H3 H4]. unfold rel_time.
  change (inject_Z (24 * 3600)) with 86400%Q.
  destruct (Qle_bool 0 (secs - b)) eqn:E.
  - apply Qle_bool_iff in E. split; lra.
  - assert (¬ (0 <= secs - b)%Q) as Hneg.
    { intros H. apply Qle_bool_iff in H. congruence. }
    split; lra.
Qed.

Lemma timed_of_day line secs :
  time_of_day line → timed line = Some secs →
  (0 <= secs ∧ secs < 86400)%Q.
Proof.
  intros Hday Ht.
  apply timed_inv in Ht as (parts & h & m & s & ms & Htok & Hf & ->).
  destruct (Hday parts h m s ms Htok Hf) as (? & ? & ? & ?).
  by apply seconds_of_day.
Qed.

(** X19. Time stamps of the vendor text format stay within a day. When
    the time tokens of a file are times of day, every frame [_load_busmaster]
    makes of it has a time stamp from 0 up to, not including, 86400 s: a
    line earlier in the day than the first one counts as on the next
    day. *)
Theorem busmaster_timestamps_within_a_day (ls : list string) :
  Forall time_of_day ls →
  Forall (λ f, (0 <= Timestamp f ∧ Timestamp f < 86400)%Q)
    (parse_lines None ls).
Proof.
  intros Hday. rewrite parse_lines_zero.
  destruct (zero_reference ls) as [b|] eqn:Hb.
  2:{ assert (omap (emit None) ls = []) as ->; [|constructor].
      clear. induction ls as [|l ls IH]; [done|]. exact IH. }
  assert (0 <= b ∧ b < 86400)%Q as Hbase.
  { unfold zero_reference in Hb.
    assert (b ∈ omap timed ls) as Hin.
    { destruct (omap timed ls) as [|x l]; [done|].
      cbn in Hb. injection Hb as ->. apply list_elem_of_here. }
    apply list_elem_of_omap in Hin as (line & Hline & Ht).
    rewrite Forall_forall in Hday.
    apply (timed_of_day line); [by apply Hday|done]. }
  apply Forall_forall. intros f Hf.
  apply list_elem_of_omap in Hf as (line & Hline & He).
  apply emit_timestamp in He as (secs & Ht & ->).
  rewrite Forall_forall in Hday.
  apply rel_time_of_day; [|done].
  apply (timed_of_day line); [by apply Hday|done].
Qed.

Lemma busmaster_timestamps_within_a_day_witness :
  Forall (λ f, (0 <= Timestamp f ∧ Timestamp f < 86400)%Q)
    (parse_lines None [Sample.line_c; Sample.line_a]).
Proof.
  apply (busmaster_timestamps_within_a_day [Sample.line_c; Sample.line_a]).
  apply Forall_cons_2; [|apply Forall_cons_2; [|apply Forall_nil_2]];
    intros parts h m s ms Htok Hf;
    vm_compute in Htok; injection Htok as <-;
    vm_compute in Hf; injection Hf as <- <- <- <-; lia.
Defined.

(** *** Standard logs *)

(** X20. A standard log starts at time 0. When the reader gives at least
    one message, [_load_can_log] returns [True] and stores as many frames,
    in the order read, each with the identifier, length, payload and channel
    read and with the time of the first message taken off its time stamp,
    so that the first frame is at 0; nothing is added to a negative
    difference. The database is kept and the cache is emptied. *)
Theorem can_log_starts_at_zero (file : LogFile) (s : CANLoader)
    (first : Frame) (rest : list Frame) :
  LogReader file = Some (first :: rest) →
  ∃ fs,
    _load_can_log file s
    = (Return true, mkLoader (db s) (DF.of_frames fs) ∅)
    ∧ length fs = S (length rest)
    ∧ (∀ (i : nat) f, (first :: rest) !! i = Some f →
         ∃ f', fs !! i = Some f'
               ∧ untimed f' = untimed f
               ∧ (Timestamp f' == Timestamp f - Timestamp first)%Q)
    ∧ ∃ f0, fs !! 0%nat = Some f0 ∧ (Timestamp f0 == 0)%Q.
Proof.
  intros Hread.
  exists (map (shift (Timestamp first)) (first :: rest)).
  split; [|split; [|split]].
  - unfold _load_can_log, bind, of_option. by rewrite Hread.
  - by rewrite length_map.
  - intros i f Hf. exists (shift (Timestamp first) f).
    split; [|done]. by rewrite list_lookup_fmap, Hf.
  - exists (shift (Timestamp first) first). split; [done|].
    cbn [shift Timestamp]. ring.
Qed.

Lemma can_log_starts_at_zero_witness :
  ∃ fs,
    _load_can_log Sample.asc_file __init__
    = (Return true, mkLoader None (DF.of_frames fs) ∅)
    ∧ ∃ f0, fs !! 0%nat = Some f0 ∧ (Timestamp f0 == 0)%Q.
Proof.
  destruct (can_log_starts_at_zero Sample.asc_file __init__
              (mkFrame 10 4 1 "04" 1) [mkFrame (25 # 2) 4 1 "05" 1])
    as (fs & Hrun & _ & _ & H0); [reflexivity|].
  exists fs. split; [exact Hrun|exact H0].
Defined.

(** *** Tables *)

Lemma lower_char_not_C (c : ascii) : lower_char c ≠ "C"%char.
Proof.
  destruct c as [[] [] [] [] [] [] [] []]; vm_compute; discriminate.
Qed.

Lemma lower_not_channel (x : string) : lower x ≠ "Channel".
Proof.
  unfold lower, Py.text, Py.chars. intros E.
  apply (f_equal list_ascii_of_string) in E.
  rewrite list_ascii_of_string_of_list_ascii in E.
  destruct (list_ascii_of_string x) as [|c cs]; [done|].
  cbn in E. injection E as E _. by apply lower_char_not_C in E.
Qed.

Lemma alias_not_channel (x : string) :
  lookup_alias col_map (lower x) ≠ "Channel".
Proof.
  pose proof (lower_not_channel x) as Hx. revert Hx.
  generalize (lower x). intros y Hy. unfold col_map.
  cbn [lookup_alias].
  repeat (destruct (_ =? y)%string; [discriminate|]). done.
Qed.

Lemma set_column_clean (i : nat) (rs : list (list Cell)) (col' : list Cell) :
  mapM clean_id (map (λ r, default CNaN (r !! i)) rs) = Some col' →
  zip_with (λ r c, <[i := c]> r) rs col' = map (clean_row i) rs.
Proof.
  revert col'. induction rs as [|r rs IH]; intros col' H.
  { by destruct col'. }
  apply mapM_Some in H. cbn [map] in H.
  apply Forall2_cons_inv_l in H as (c & col'' & Hc & Hrest & ->).
  apply mapM_Some in Hrest. cbn [zip_with map]. rewrite (IH _ Hrest).
  unfold clean_row at 2. by rewrite Hc.
Qed.

(** X21. What a [.csv] load keeps. After a successful load the labels are
    those of the file, stripped, lower-cased and renamed through [col_map],
    so that none of them is [Channel]; the table has the rows of the file,
    none lost and none added, in another order at most, with the identifier
    cells cleaned when the column holds text. *)
Theorem csv_load_keeps_rows (file : LogFile) (s s' : CANLoader)
    (t : DataFrame) :
  ext file = ".csv" →
  read_csv file = Some t →
  load_log file s = (Return true, s') →
  let cols :=
    map (λ c, lookup_alias col_map (lower (Py.strip c))) (columns t) in
  columns (df s') = cols
  ∧ ("Channel" ∉ columns (df s'))
  ∧ DF.len (df s') = DF.len t
  ∧ ∃ i : nat,
      DF.positions "ID" cols 0 = [i]
      ∧ rows (df s')
        ≡ₚ (if is_object (map (λ r, default CNaN (r !! i)) (rows t))
            then map (clean_row i) (rows t)
            else rows t).
Proof.
  intros Hext Hread. unfold load_log, try_except, by_extension. rewrite Hext.
  replace (".csv" =? ".log")%string with false by done.
  replace (".csv" =? ".csv")%string with true by done.
  destruct (_load_csv file s) as [[[|]|e] s1] eqn:Hrun; [|done..].
  intros [= <-].
  set (cols := map (λ c, lookup_alias col_map (lower (Py.strip c)))
                 (columns t)).
  assert ("Channel" ∉ cols) as Hch.
  { unfold cols. intros Hin. apply list_elem_of_fmap in Hin as (c & Hc & _).
    symmetry in Hc. by apply alias_not_channel in Hc. }
  revert Hrun.
  unfold _load_csv, DF.sort_values, DF.column_index, bind, of_option, modify,
    get, ret, raise.
  rewrite Hread. cbn [df set_df columns rows set_column].
  unfold rename, normalize_columns. cbn [columns rows].
  rewrite map_map. fold cols.
  destruct (DF.positions "ID" cols 0) as [|i [|j l]] eqn:Hid; [done| |done].
  destruct (is_object (map (λ r, default CNaN (r !! i)) (rows t))) eqn:Hobj.
  - destruct (mapM clean_id (map (λ r, default CNaN (r !! i)) (rows t)))
      as [col'|] eqn:Hclean; [|done].
    cbn [df set_df columns rows set_column].
    destruct (DF.positions "Timestamp" cols 0) as [|k [|k' l']]; [done| |done].
    destruct (DF.comparable _); [|done].
    intros [= <-]. cbn [df set_df set_cache columns rows].
    rewrite (set_column_clean _ _ _ Hclean).
    split; [done|]. split; [done|]. split.
    { unfold DF.len. cbn [rows]. f_equal.
      erewrite (Permutation_length (sort_perm _ _)). apply length_map. }
    exists i. split; [done|]. rewrite Hobj. apply sort_perm.
  - cbn [df set_df columns rows set_column].
    destruct (DF.positions "Timestamp" cols 0) as [|k [|k' l']]; [done| |done].
    destruct (DF.comparable _); [|done].
    intros [= <-]. cbn [df set_df set_cache columns rows].
    split; [done|]. split; [done|]. split.
    { unfold DF.len. cbn [rows]. f_equal.
      apply (Permutation_length (sort_perm _ _)). }
    exists i. split; [done|]. rewrite Hobj. apply sort_perm.
Qed.

Lemma csv_load_keeps_rows_witness :
  ("Channel" ∉ columns (df (load_log Sample.csv_no_payload Sample.loaded).2))
  ∧ DF.len (df (load_log Sample.csv_no_payload Sample.loaded).2) = 2.
Proof.
  destruct (csv_load_keeps_rows Sample.csv_no_payload Sample.loaded
              (load_log Sample.csv_no_payload Sample.loaded).2
              (mkDF [" Time"; "ID"]
                 [[CFloat (2 # 10); CStr "0x10"];
                  [CFloat (1 # 10); CStr "32"]]))
    as (_ & Hch & Hlen & _); [reflexivity|reflexivity|..].
  - vm_compute. reflexivity.
  - split; [exact Hch|exact Hlen].
Defined.

(** X22. A [.csv] file in which two columns map to [ID], or two to
    [Timestamp], does not load: [load_log] returns [False]. *)
Theorem csv_ambiguous_key_column_fails (file : LogFile) (s : CANLoader)
    (t : DataFrame) (i j : nat) (l : list nat) :
  ext file = ".csv" →
  read_csv file = Some t →
  let cols := columns (rename (normalize_columns t)) in
  DF.positions "ID" cols 0 = i :: j :: l
  ∨ DF.positions "Timestamp" cols 0 = i :: j :: l →
  (load_log file s).1 = Return false.
Proof.
  intros Hext Hread cols Hamb.
  unfold load_log, try_except, by_extension. rewrite Hext.
  replace (".csv" =? ".log")%string with false by done.
  replace (".csv" =? ".csv")%string with true by done.
  destruct (_load_csv file s) as [[[|]|e] s'] eqn:Hrun; [|done..].
  exfalso. revert Hrun.
  unfold _load_csv, DF.sort_values, DF.column_index, bind, of_option, modify,
    get, ret, raise.
  rewrite Hread. unfold cols in *. clear cols. intros Hrun.
  destruct Hamb as [Hamb|Hamb];
    repeat (case_match; simplify_eq;
            cbn [df set_df columns rows set_column] in *;
            try congruence).
Qed.

Lemma csv_ambiguous_key_column_fails_witness :
  (load_log Sample.csv_two_times Sample.loaded).1 = Return false.
Proof.
  apply (csv_ambiguous_key_column_fails Sample.csv_two_times Sample.loaded
           (mkDF ["time"; "Timestamp"; "id"]
              [[CFloat (1 # 10); CFloat (2 # 10); CInt 16]])
           0%nat 1%nat []).
  - reflexivity.
  - reflexivity.
  - right. vm_compute. reflexivity.
Defined.

End LoadFacts.

(** ** Refreshing and dragging *)

Module RefreshFacts.
Import UI DFFacts UIFacts TraceFacts NavFacts.

Lemma render_row_first d (p : Z * Frame) :
  render_row d empty_trace p = process_row d p.2 empty_trace.
Proof.
  unfold render_row, reset_highlight. rewrite process_row_states.
  set (L := lanes _ _ _ _).
  assert (replicate (length L) Gray = L) as ->.
  { symmetry. apply all_gray_replicate. subst L.
    unfold known_bytes, initial_states. cbn [empty_trace last_data byte_states].
    rewrite !lookup_empty. cbn [default].
    case_decide; by apply lanes_fresh, Forall_replicate. }
  pose proof (process_row_states d p.2 empty_trace) as Hs. fold L in Hs.
  destruct (process_row d p.2 empty_trace) as [tr mi si ld ls bs ss].
  cbn [byte_states tree message_items signal_items last_data last_signals
       signal_states] in *.
  f_equal. by apply insert_id.
Qed.

Lemma first_frame_fresh d (row : Frame) :
  all_fresh (process_row d row empty_trace)
  ∧ tree (process_row d row empty_trace) = [ID row].
Proof.
  change (process_row d row empty_trace)
    with (process_row d (0, row).2 empty_trace).
  rewrite <- (render_row_first d (0, row)).
  destruct (seek_inv_step d [] empty_trace (0, row) seek_inv_empty)
    as (Hf & Ht & _).
  { apply not_elem_of_nil. }
  done.
Qed.

Lemma empty_false (fs : list Frame) : fs ≠ [] → empty fs = false.
Proof. by destruct fs. Qed.

(** What [setRange] leaves when the recording has rows. *)
Lemma slider_setRange_run (w : MainWindow) :
  loader_df w ≠ [] → 0 ≤ current_index w → well_formed (trace w) →
  let n := len (loader_df w) in
  ∃ w', slider_setRange 0 (n - 1) w = (Return tt, w')
        ∧ same_recording w w'
        ∧ is_playing w' = is_playing w
        ∧ slider_min (slider w') = 0 ∧ slider_max (slider w') = n - 1
        ∧ well_formed (trace w')
        ∧ 0 ≤ current_index w'
        ∧ (0 ≤ slider_value (slider w) < n →
           current_index w' = current_index w ∧ trace w' = trace w)
        ∧ (n ≤ slider_value (slider w) ≤ slider_max (slider w) →
           current_index w' = n - 1).
Proof.
  intros Hdf Hci Hwf n.
  assert (1 ≤ n) as Hn.
  { subst n. unfold len. destruct (loader_df w); [done|]. cbn. lia. }
  unfold slider_setRange, bind, get, modify.
  replace (0 `max` (n - 1)) with (n - 1) by lia.
  destruct ((slider_min (slider w) =? 0) && (slider_max (slider w) =? n - 1))
    eqn:Erange.
  { exists w. do 7 (split; [done || lia|]). split; [done|]. intros ?. lia. }
  set (v := slider_value (slider w)).
  set (w1 := set_slider (mkSlider v 0 (n - 1)) w).
  unfold slider_setValue, bind, get, modify, ret.
  cbn [w1 slider set_slider slider_value slider_min slider_max].
  unfold clamp. cbn [slider_min slider_max].
  destruct (0 `max` ((n - 1) `min` v) =? v) eqn:Ev.
  { exists w1. do 7 (split; [done || lia|]). split; [done|]. intros ?. lia. }
  set (v' := 0 `max` ((n - 1) `min` v)) in *.
  set (w2 := set_slider (mkSlider v' 0 (n - 1)) w1).
  assert (0 ≤ v' < n) as Hv' by lia.
  destruct (decide (v' = current_index w2 + 1)) as [Hstep|Hjump].
  - assert (slider_moved v' w2 = step_forward w2) as ->.
    { rewrite Hstep. unfold slider_moved, bind, get. by rewrite Z.eqb_refl. }
    rewrite step_forward_eq.
    cbn [w2 w1 loader_df loader_db current_index trace set_slider] in *.
    rewrite (empty_false _ Hdf). fold n.
    destruct (current_index w <? n - 1) eqn:E; [|lia].
    rewrite iloc_in_range by (fold n; lia).
    destruct (lookup_lt_is_Some_2 (loader_df w)
                (Z.to_nat (current_index w + 1))) as [row Hrow].
    { subst n. unfold len in *. lia. }
    rewrite Hrow.
    match goal with |- context [update_ui_common ?x] => set (w3 := x) end.
    destruct (update_ui_common_nav w3)
      as (w' & Hrun & (_ & Hsl & _) & Hsame & Ht & Hc & Hp).
    + cbn [w3 w2 w1 current_index set_trace set_current_index loader_df
           set_slider]. fold n. lia.
    + done.
    + done.
    + exists w'. rewrite Hrun. split; [done|]. split; [exact Hsame|].
      split; [exact Hp|]. rewrite Hsl. destruct Hsame as [Hdf3 _].
      cbn [w3 w2 w1 loader_df set_trace set_current_index set_slider] in Hdf3.
      rewrite Hdf3. fold n. split; [done|]. split; [done|].
      split. { rewrite Ht. by apply well_formed_process_row. }
      rewrite Hc. cbn [w3 current_index set_trace set_current_index].
      split; [lia|]. split; [lia|]. lia.
  - destruct (slider_moved_nav w2 v') as (w' & Hrun & (_ & Hsl & _) & Hsame
                                           & Hp & Hc & Ht); [done..|].
    exists w'. rewrite Hrun. split; [done|]. split; [exact Hsame|].
    split; [exact Hp|]. rewrite Hsl. destruct Hsame as [Hdf3 _].
    cbn [w2 w1 loader_df set_slider] in Hdf3. rewrite Hdf3. fold n.
    split; [done|]. split; [done|]. split.
    { rewrite Ht. apply well_formed_foldl_render.
      - apply well_formed_empty.
      - apply latest_frames_nodup.
      - intros p _. apply lookup_empty. }
    rewrite Hc. split; [lia|]. split; [lia|]. lia.
Qed.

(** X23. [refresh_table] puts the window on a row. On an empty recording
    it only clears the trace. On a recording with rows, from a current
    index that is not negative, it returns without raising and leaves a
    window in range on the same recording, playback as it was, the trace
    well formed. When the value of the slider is a row of the recording,
    the current index is kept if it is a row and is 0 otherwise, and the
    trace holds that one frame, everything Fresh: what was shown before is
    gone. When the value of the slider is beyond the last row, [setRange]
    moves it to the last row and calls the slot, and the last row is the
    current one afterwards. *)
Theorem refresh_table_shows_a_row (w : MainWindow) :
  loader_df w ≠ [] →
  0 ≤ current_index w →
  let n := len (loader_df w) in
  ∃ w', refresh_table w = (Return tt, w')
        ∧ nav_ok w' ∧ same_recording w w'
        ∧ is_playing w' = is_playing w
        ∧ well_formed (trace w')
        ∧ (0 ≤ slider_value (slider w) < n →
           current_index w'
           = (if current_index w >=? n then 0 else current_index w)
           ∧ ∃ row,
               loader_df w !! Z.to_nat (current_index w') = Some row
               ∧ trace w' = process_row (loader_db w) row empty_trace
               ∧ tree (trace w') = [ID row]
               ∧ all_fresh (trace w'))
        ∧ (n ≤ slider_value (slider w) ≤ slider_max (slider w) →
           current_index w' = n - 1).
Proof.
  intros Hdf Hci n.
  set (w0 := set_trace empty_trace w).
  destruct (slider_setRange_run w0 Hdf Hci well_formed_empty)
    as (w1 & Hrun1 & [Hdf1 Hdb1] & Hp1 & Hmin1 & Hmax1 & Hwf1 & Hci1 & HA & HB).
  cbn [w0 loader_df loader_db is_playing slider current_index trace set_trace]
    in Hrun1, Hdf1, Hdb1, Hp1, Hmax1, HA, HB.
  fold n in Hrun1, Hmax1, HA, HB.
  assert (1 ≤ n) as Hn.
  { subst n. unfold len. destruct (loader_df w); [done|]. cbn. lia. }
  set (c := if current_index w1 >=? n then 0 else current_index w1).
  assert (0 ≤ c < n) as Hc.
  { subst c. destruct (current_index w1 >=? n) eqn:E; lia. }
  set (w2 := set_current_index c w1).
  destruct (lookup_lt_is_Some_2 (loader_df w) (Z.to_nat c)) as [row Hrow].
  { subst n. unfold len in Hc. lia. }
  set (w3 := set_trace (process_row (loader_db w) row (trace w1)) w2).
  destruct (update_ui_common_nav w3)
    as (w' & Hrun' & Hnav & [Hdf' Hdb'] & Ht' & Hc' & Hp').
  { cbn [w3 w2 current_index loader_df set_trace set_current_index].
    rewrite Hdf1. done. }
  { done. }
  { cbn [w3 w2 slider loader_df set_trace set_current_index].
    rewrite Hdf1. done. }
  cbn [w3 w2 current_index loader_df loader_db is_playing trace set_trace
       set_current_index] in Hdf', Hdb', Ht', Hc', Hp'.
  exists w'. split.
  { unfold refresh_table, bind at 1, modify at 1. fold w0.
    unfold bind at 1, get at 1. cbn [w0 loader_df set_trace].
    rewrite (empty_false _ Hdf). unfold bind at 1. fold n. fold w0.
    rewrite Hrun1. unfold bind at 1, get at 1. unfold bind at 1.
    rewrite Hdf1. fold n.
    assert ((if current_index w1 >=? n
             then modify (set_current_index 0) else ret tt) w1
            = (Return tt, w2)) as ->.
    { subst w2 c. destruct (current_index w1 >=? n); [done|].
      unfold ret. by destruct w1. }
    unfold bind at 1, get at 1. unfold bind at 1.
    unfold process_frame, bind at 1, get at 1. unfold bind at 1, of_option.
    cbn [w2 current_index loader_df loader_db trace set_current_index].
    rewrite Hdf1, Hdb1. rewrite iloc_in_range by done. rewrite Hrow.
    unfold ret at 1, modify. exact Hrun'. }
  split; [done|]. split; [split; congruence|]. split; [congruence|].
  split. { rewrite Ht'. by apply well_formed_process_row. }
  split.
  - intros Hv. destruct (HA Hv) as [Ec Et]. rewrite Hc'. subst c.
    rewrite Ec. split; [done|]. exists row. split.
    { rewrite <- Ec. exact Hrow. }
    rewrite Ht', Et. cbn [w0 trace set_trace].
    split; [done|]. destruct (first_frame_fresh (loader_db w) row) as [? ?].
    done.
  - intros Hv. rewrite Hc'. subst c. rewrite (HB Hv).
    destruct (n - 1 >=? n) eqn:E; lia.
Qed.

Lemma refresh_table_shows_a_row_witness :
  ∃ w', refresh_table (Sample.opened Sample.steady)
        = (Return tt, w')
        ∧ nav_ok w' ∧ current_index w' = 0.
Proof.
  destruct (refresh_table_shows_a_row
              (Sample.opened Sample.steady))
    as (w' & Hrun & Hnav & _ & _ & _ & HA & _).
  - done.
  - done.
  - exists w'. split; [exact Hrun|]. split; [exact Hnav|].
    destruct HA as [Hc _]; [vm_compute; split; [discriminate|reflexivity]|].
    exact Hc.
Defined.

(** *** Dragging *)

Lemma slider_moved_ok (w : MainWindow) (val : Z) :
  nav_ok w → 0 ≤ val < len (loader_df w) →
  ∃ w', slider_moved val w = (Return tt, w')
        ∧ nav_ok w' ∧ same_recording w w'
        ∧ is_playing w' = is_playing w
        ∧ current_index w' = val.
Proof.
  intros Hnav Hval. pose proof Hnav as (Hci & Hsl & _).
  destruct (decide (val = current_index w + 1)) as [->|Hne].
  - assert (slider_moved (current_index w + 1) w = step_forward w) as ->.
    { unfold slider_moved, bind, get. by rewrite Z.eqb_refl. }
    destruct (step_forward_nav w Hnav) as (w' & ? & ? & ? & ? & Hc & _).
    exists w'. repeat (split; [done|]). lia.
  - destruct (slider_moved_nav w val) as (w' & ? & ? & ? & ? & ? & _);
      [done|by rewrite Hsl..|done|].
    by exists w'.
Qed.

Lemma slider_dragged_ok (vals : list Z) (w : MainWindow) :
  nav_ok w → Forall (λ v, 0 ≤ v < len (loader_df w)) vals →
  ∃ w', slider_dragged vals w = (Return tt, w')
        ∧ nav_ok w' ∧ same_recording w w'
        ∧ is_playing w' = is_playing w
        ∧ current_index w' = default (current_index w) (last vals).
Proof.
  revert w. induction vals as [|v vals IH]; intros w Hnav Hvals.
  { by exists w. }
  apply Forall_cons in Hvals as [Hv Hvals].
  destruct (slider_moved_ok w v Hnav Hv)
    as (w1 & Hrun1 & Hnav1 & [Hdf1 Hdb1] & Hp1 & Hc1).
  destruct (IH w1 Hnav1) as (w' & Hrun' & Hnav' & [Hdf' Hdb'] & Hp' & Hc').
  { by rewrite Hdf1. }
  exists w'. split.
  { cbn [slider_dragged]. unfold bind. by rewrite Hrun1. }
  split; [done|].
  split; [split; [by rewrite Hdf'|by rewrite Hdb']|].
  split; [by rewrite Hp'|].
  rewrite Hc', Hc1, last_cons. by destruct (last vals).
Qed.

(** X26. Dragging the slider pauses playback and resumes it. From a
    window in range, pressing the slider stops playback if it was running
    and remembers whether it was; the moves of the handle over rows of the
    recording leave playback stopped; releasing the slider starts it again
    exactly when it was running before. The window ends in range on the
    row the handle was left on, playback as it was before the slider was
    pressed. *)
Theorem drag_resumes_playback (w : MainWindow) (wp : option bool)
    (vals : list Z) :
  nav_ok w →
  Forall (λ v, 0 ≤ v < len (loader_df w)) vals →
  ∃ w1 w2 w3,
    slider_pressed (mkDragged w wp)
    = (Return tt, mkDragged w1 (Some (is_playing w)))
    ∧ is_playing w1 = false
    ∧ slider_dragged vals w1 = (Return tt, w2)
    ∧ is_playing w2 = false
    ∧ slider_released (mkDragged w2 (Some (is_playing w)))
      = (Return tt, mkDragged w3 (Some (is_playing w)))
    ∧ is_playing w3 = is_playing w
    ∧ nav_ok w3 ∧ same_recording w w3
    ∧ current_index w3 = default (current_index w) (last vals).
Proof.
  intros Hnav Hvals.
  set (w1 := set_is_playing false w).
  assert (nav_ok w1) as Hnav1 by exact Hnav.
  destruct (slider_dragged_ok vals w1 Hnav1 Hvals)
    as (w2 & Hrun2 & Hnav2 & Hsame2 & Hp2 & Hc2).
  exists w1, w2, (set_is_playing (is_playing w) w2).
  split.
  { unfold slider_pressed, bind, modify, get, on_win, toggle_playback, ret.
    cbn [win was_playing]. subst w1. destruct w as [? ? ? [] ? ? ? ?]; done. }
  split; [done|]. split; [done|]. split; [done|]. split.
  { unfold slider_released, bind, get, on_win, toggle_playback, modify, ret.
    cbn [win was_playing]. destruct (is_playing w) eqn:E.
    - cbn [win was_playing]. by rewrite Hp2.
    - destruct w2 as [? ? ? p ? ? ? ?]. cbn in Hp2. by subst p. }
  split; [done|]. split; [exact Hnav2|]. split; [exact Hsame2|exact Hc2].
Qed.

Lemma drag_resumes_playback_witness :
  ∃ w3,
    (slider_pressed ;; on_win (slider_dragged [2; 0]) ;; slider_released)
      (mkDragged (set_is_playing true Sample.at_start) None)
    = (Return tt, mkDragged w3 (Some true))
    ∧ is_playing w3 = true ∧ current_index w3 = 0.
Proof.
  destruct (drag_resumes_playback (set_is_playing true Sample.at_start) None
              [2; 0])
    as (w1 & w2 & w3 & H1 & _ & H2 & _ & H3 & Hp & _ & _ & Hc).
  - unfold nav_ok. cbn. repeat split; (lia || reflexivity).
  - apply Forall_cons_2; [|apply Forall_cons_2; [|apply Forall_nil_2]];
      vm_compute; (split; [discriminate|reflexivity]).
  - exists w3. split; [|split; [exact Hp|exact Hc]].
    unfold bind at 1. rewrite H1. unfold bind at 1, on_win at 1.
    cbn [win was_playing]. rewrite H2. exact H3.
Defined.

End RefreshFacts.

(** ** Hex texts: the identifier column and the mock payloads *)

Module HexFacts.
Import UI.

Lemma digit_of_hex_char upper d :
  0 ≤ d < 16 →
  Py.digit_value (Py.hex_char upper d) = Some d
  ∧ Py.is_space (Py.hex_char upper d) = false
  ∧ Py.is_blank (Py.hex_char upper d) = false
  ∧ Ascii.eqb (Py.hex_char upper d) "_" = false.
Proof.
  intros Hd.
  assert (d = 0 ∨ d = 1 ∨ d = 2 ∨ d = 3 ∨ d = 4 ∨ d = 5 ∨ d = 6 ∨ d = 7
          ∨ d = 8 ∨ d = 9 ∨ d = 10 ∨ d = 11 ∨ d = 12 ∨ d = 13 ∨ d = 14
          ∨ d = 15) as Hcases by lia.
  destruct upper;
    repeat (destruct Hcases as [->|Hcases]); try subst d;
    repeat split; reflexivity.
Qed.

Lemma hexish_facts (c : ascii) :
  Py.hexish c →
  Py.is_space c = false ∧ Py.is_blank c = false ∧ Ascii.eqb c "_" = false
  ∧ ∃ d, 0 ≤ d < 16 ∧ Py.digit_value c = Some d ∧ Py.hex_value c = Some d.
Proof.
  intros (upper & d & Hd & ->).
  destruct (digit_of_hex_char upper d Hd) as (H1 & H2 & H3 & H4).
  repeat (split; [done|]). exists d. split; [done|]. split; [done|].
  unfold Py.hex_value. rewrite H1. destruct (d <? 16) eqn:E; [done|lia].
Qed.

Lemma hex_from_chars upper fuel n cs :
  0 ≤ n → Forall Py.hexish cs → Forall Py.hexish (Py.hex_from upper fuel n cs).
Proof.
  revert n cs. induction fuel as [|fuel IH]; intros n cs Hn Hcs; [done|].
  cbn [Py.hex_from].
  assert (Py.hexish (Py.hex_char upper (n mod 16))) as Hc.
  { exists upper, (n mod 16). split; [|done]. by apply Z.mod_pos_bound. }
  destruct (n <? 16).
  - by apply Forall_cons_2.
  - apply IH; [by apply Z.div_pos|by apply Forall_cons_2].
Qed.

Lemma hex_from_scan upper fuel n cs a :
  0 ≤ n < 2 ^ Z.of_nat fuel →
  ∃ k : nat,
    Py.scan_digits 16 false a (Py.hex_from upper fuel n cs)
    = Py.scan_digits 16 false (a * 16 ^ Z.of_nat k + n) cs.
Proof.
  revert n cs a. induction fuel as [|fuel IH]; intros n cs a Hn.
  { exists 0%nat. cbn in *. f_equal. lia. }
  cbn [Py.hex_from].
  assert (0 ≤ n mod 16 < 16) as Hd by (by apply Z.mod_pos_bound).
  assert (∀ b, Py.scan_digits 16 false b (Py.hex_char upper (n mod 16) :: cs)
               = Py.scan_digits 16 false (b * 16 + n mod 16) cs) as Hstep.
  { intros b. cbn [Py.scan_digits].
    destruct (digit_of_hex_char upper (n mod 16) Hd) as (-> & _ & _ & ->).
    destruct (n mod 16 <? 16) eqn:E; [done|lia]. }
  destruct (n <? 16) eqn:E.
  - exists 1%nat. rewrite Hstep. f_equal.
    rewrite Z.mod_small by lia. change (16 ^ Z.of_nat 1) with 16. done.
  - assert (0 ≤ n / 16 < 2 ^ Z.of_nat fuel) as Hq.
    { split; [apply Z.div_pos; lia|].
      apply Z.div_lt_upper_bound; [lia|].
      rewrite Nat2Z.inj_succ, Z.pow_succ_r in Hn by lia. lia. }
    destruct (IH (n / 16) (Py.hex_char upper (n mod 16) :: cs) a Hq)
      as (k & ->).
    exists (S k). rewrite Hstep. f_equal.
    rewrite Nat2Z.inj_succ, Z.pow_succ_r by lia.
    pose proof (Z.div_mod n 16). lia.
Qed.

Lemma hex_digits_scan upper n :
  0 ≤ n → Py.scan_digits 16 false 0 (Py.hex_digits upper n) = Some n.
Proof.
  intros Hn. unfold Py.hex_digits.
  destruct (hex_from_scan upper (S (Z.to_nat (Z.log2 n))) n [] 0) as (k & ->).
  - split; [done|].
    rewrite Nat2Z.inj_succ, Z2Nat.id by apply Z.log2_nonneg.
    destruct (decide (n = 0)) as [->|Hne]; [done|].
    apply Z.log2_spec. lia.
  - cbn. f_equal; lia.
Qed.

Lemma hex_digits_head upper n :
  0 ≤ n → ∃ c cs, Py.hex_digits upper n = c :: cs ∧ Forall Py.hexish (c :: cs).
Proof.
  intros Hn.
  assert (Forall Py.hexish (Py.hex_digits upper n)) as Hall.
  { by apply hex_from_chars. }
  destruct (Py.hex_digits upper n) as [|c cs] eqn:E; [|by exists c, cs].
  exfalso. revert E. unfold Py.hex_digits. cbn [Py.hex_from].
  assert (∀ fuel m acc, acc ≠ [] → Py.hex_from upper fuel m acc ≠ []) as H.
  { induction fuel as [|f IH]; intros m acc Hacc; [done|].
    cbn [Py.hex_from]. destruct (m <? 16); [done|]. by apply IH. }
  destruct (n <? 16); [done|]. by apply H.
Qed.

(** *** [strip] on text without blanks *)

Lemma lstrip_id (cs : list ascii) :
  Forall (λ c, Py.is_space c = false) cs → Py.lstrip cs = cs.
Proof. destruct 1 as [|c cs Hc _]; [done|]. cbn. by rewrite Hc. Qed.

Lemma strip_id (cs : list ascii) :
  Forall (λ c, Py.is_space c = false) cs → Py.strip (Py.text cs) = Py.text cs.
Proof.
  intros H. unfold Py.strip, Py.chars, Py.text.
  rewrite list_ascii_of_string_of_list_ascii.
  rewrite (lstrip_id cs) by done.
  rewrite (lstrip_id (rev cs)) by (by apply Forall_rev).
  by rewrite rev_involutive.
Qed.

(** *** The identifier text *)

Lemma int16_id_str (can_id : Z) :
  Py.int16 (id_str can_id) = if can_id <? 0 then None else Some can_id.
Proof.
  unfold Py.int16, Py.int_base, id_str, Py.format_X.
  destruct (can_id <? 0) eqn:Hneg.
  - destruct (hex_digits_head true (- can_id)) as (c & cs & E & Hall); [lia|].
    rewrite E.
    change ("0x" +:+ Py.text ("-"%char :: c :: cs))
      with (Py.text ("0"%char :: "x"%char :: "-"%char :: c :: cs)).
    rewrite strip_id.
    2:{ repeat (apply Forall_cons_2; [reflexivity|]).
        eapply Forall_impl; [exact Hall|]. intros x Hx.
        by apply hexish_facts in Hx as (? & _). }
    unfold Py.chars, Py.text. rewrite list_ascii_of_string_of_list_ascii.
    reflexivity.
  - destruct (hex_digits_head true can_id) as (c & cs & E & Hall); [lia|].
    pose proof (hex_digits_scan true can_id) as Hscan. rewrite E in *.
    change ("0x" +:+ Py.text (c :: cs))
      with (Py.text ("0"%char :: "x"%char :: c :: cs)).
    rewrite strip_id.
    2:{ repeat (apply Forall_cons_2; [reflexivity|]).
        eapply Forall_impl; [exact Hall|]. intros x Hx.
        by apply hexish_facts in Hx as (? & _). }
    unfold Py.chars, Py.text. rewrite list_ascii_of_string_of_list_ascii.
    apply Forall_cons in Hall as [Hc _].
    apply hexish_facts in Hc as (_ & _ & Hus & _).
    cbn [Ascii.eqb Bool.eqb Py.skip_prefix andb orb Z.eqb Pos.eqb].
    rewrite Hus. unfold Py.literal. rewrite Hus. apply Hscan. lia.
Qed.

(** X24. A click finds the identifier of the row through its text. The
    text written in the identifier column when a message row is created
    parses back to the identifier when this is not negative, and then the
    combo box lists the signals the loader has for the identifier, or the
    one entry for the raw identifier when there are none, and the plot is
    asked for the signal of the row clicked, or for the first signal listed
    when a message row was clicked; the text of a negative identifier does
    not parse, and a click on its rows does nothing. *)
Theorem tree_click_resolves_row_id (s : CANLoader) (item : TreeItem) :
  let can_id :=
    match item with MessageRow can_id | SignalRow can_id _ => can_id end in
  let signals := Loader.get_signals_for_id s can_id in
  Py.int16 (id_str can_id) = (if can_id <? 0 then None else Some can_id)
  ∧ (can_id < 0 → on_tree_click s item = None)
  ∧ (0 ≤ can_id →
     ∃ click,
       on_tree_click s item = Some click
       ∧ plot_id click = can_id
       ∧ combo_items click
         = match signals with
           | [] => ["Raw ID: " +:+ id_str can_id]
           | _ => signals
           end
       ∧ match item with
         | SignalRow _ name => name ≠ "" → plot_signal click = Some name
         | MessageRow _ => plot_signal click = head signals
         end).
Proof.
  intros can_id signals. split; [apply int16_id_str|]. split.
  - intros Hneg. unfold on_tree_click.
    destruct item as [id|id name]; cbn in can_id; subst can_id;
      rewrite int16_id_str;
      (destruct (id <? 0) eqn:E; [done|lia]).
  - intros Hpos. unfold on_tree_click.
    destruct item as [id|id name]; cbn in can_id; subst can_id;
      rewrite int16_id_str;
      (destruct (id <? 0) eqn:E; [lia|]); cbn [mbind option_bind];
      subst signals.
    + destruct (Loader.get_signals_for_id s id); eexists; by repeat split.
    + destruct (Loader.get_signals_for_id s id); eexists;
        (split; [reflexivity|]); cbn [plot_id combo_items plot_signal];
        (split; [done|]); (split; [done|]); intros Hname;
        (destruct (name =? "")%string eqn:En;
         [by apply String.eqb_eq in En|done]).
Qed.

(** *** Mock frames *)

Lemma hex_from_length upper fuel n cs (k : nat) :
  0 ≤ n < 16 ^ Z.of_nat k →
  (length (Py.hex_from upper fuel n cs) ≤ length cs + Nat.max k 1)%nat.
Proof.
  revert n cs k. induction fuel as [|fuel IH]; intros n cs k Hn.
  { cbn. lia. }
  cbn [Py.hex_from]. destruct (n <? 16) eqn:E.
  { cbn [length]. lia. }
  destruct k as [|[|k]].
  { cbn in Hn. lia. }
  { change (16 ^ Z.of_nat 1) with 16 in Hn. lia. }
  assert (0 ≤ n / 16 < 16 ^ Z.of_nat (S k)) as Hq.
  { split; [apply Z.div_pos; lia|].
    apply Z.div_lt_upper_bound; [lia|].
    rewrite (Nat2Z.inj_succ (S k)), Z.pow_succ_r in Hn by lia. lia. }
  specialize (IH (n / 16) (Py.hex_char upper (n mod 16) :: cs) (S k) Hq).
  cbn [length] in IH. lia.
Qed.

Lemma text_length (cs : list ascii) : String.length (Py.text cs) = length cs.
Proof.
  unfold Py.text. induction cs as [|c cs IH]; [done|]. cbn. by rewrite IH.
Qed.

Lemma format_016x_chars (n : Z) :
  0 ≤ n < 2 ^ 64 →
  ∃ cs, Py.format_016x n = Py.text cs ∧ length cs = 16%nat
        ∧ Forall Py.hexish cs.
Proof.
  intros Hn. unfold Py.format_016x.
  set (ds := Py.hex_digits false n).
  assert (length ds ≤ 16)%nat as Hlen.
  { pose proof (hex_from_length false (S (Z.to_nat (Z.log2 n))) n [] 16) as H.
    cbn [length] in H. apply H. change (16 ^ Z.of_nat 16) with (2 ^ 64).
    done. }
  eexists. split; [reflexivity|]. split.
  - rewrite length_app, length_replicate. lia.
  - apply Forall_app. split.
    + apply Forall_replicate. exists false, 0. split; [lia|reflexivity].
    + subst ds. unfold Py.hex_digits. apply hex_from_chars; [lia|done].
Qed.

Lemma fromhex_hexish (m : nat) (cs : list ascii) :
  Forall Py.hexish cs → length cs = (2 * m)%nat →
  ∃ bs, Py.fromhex_from None cs = Some bs ∧ length bs = m.
Proof.
  revert cs. induction m as [|m IH]; intros cs Hcs Hlen.
  { destruct cs; [|done]. by exists []. }
  destruct cs as [|a [|b cs]]; [done|cbn in Hlen; lia|].
  apply Forall_cons in Hcs as [Ha Hcs]. apply Forall_cons in Hcs as [Hb Hcs].
  destruct (hexish_facts a Ha) as (_ & Hblank & _ & da & _ & _ & Hva).
  destruct (hexish_facts b Hb) as (_ & _ & _ & db & _ & _ & Hvb).
  destruct (IH cs Hcs) as (bs & Hbs & Hl); [cbn in Hlen; lia|].
  exists ((da * 16 + db) :: bs). split; [|cbn; by rewrite Hl].
  cbn [Py.fromhex_from]. rewrite Hblank, Hva. cbn [mbind option_bind].
  rewrite Hvb. cbn [mbind option_bind]. by rewrite Hbs.
Qed.

Lemma pairs_length (m : nat) (cs : list ascii) :
  length cs = (2 * m)%nat → length (Py.pairs cs) = m.
Proof.
  revert cs. induction m as [|m IH]; intros cs Hlen.
  { by destruct cs. }
  destruct cs as [|a [|b cs]]; [done|cbn in Hlen; lia|].
  cbn [Py.pairs length]. rewrite IH; [done|]. cbn in Hlen. lia.
Qed.

Lemma mock_payload (n : Z) :
  0 ≤ n < 2 ^ 64 →
  length (payload_bytes (Py.format_016x n)) = 8%nat
  ∧ ∃ data_bytes, Py.fromhex (Py.format_016x n) = Some data_bytes
                  ∧ length data_bytes = 8%nat.
Proof.
  intros Hn. destruct (format_016x_chars n Hn) as (cs & -> & Hlen & Hcs).
  split.
  - unfold payload_bytes, Py.pad_even. rewrite text_length, Hlen.
    cbn [Nat.even]. unfold Py.chars, Py.text.
    rewrite list_ascii_of_string_of_list_ascii. by apply pairs_length.
  - unfold Py.fromhex, Py.chars, Py.text.
    rewrite list_ascii_of_string_of_list_ascii. by apply fromhex_hexish.
Qed.

Lemma mock_frames_from (acc : Q) (draws : list (Q * Z * Z)) :
  Forall (λ d, (0 < d.1.1)%Q ∧ d.1.2 ∈ Loader.mock_ids ∧ 0 ≤ d.2 < 2 ^ 64)
    draws →
  let fs :=
    zip_with (λ t '(_, cid, data_int),
                mkFrame t cid 8 (Py.format_016x data_int) 1)
      (Loader.cumsum acc (map (λ d, d.1.1) draws)) draws in
  length fs = length draws
  ∧ Forall (λ f, DLC f = 8 ∧ Channel f = 1 ∧ ID f ∈ Loader.mock_ids
                 ∧ (acc < Timestamp f)%Q
                 ∧ length (payload_bytes (Data f)) = 8%nat
                 ∧ ∃ data_bytes, Py.fromhex (Data f) = Some data_bytes
                                 ∧ length data_bytes = 8%nat) fs
  ∧ StronglySorted (λ a b, (Timestamp a < Timestamp b)%Q) fs.
Proof.
  revert acc. induction draws as [|[[step cid] data_int] draws IH];
    intros acc Hall.
  { cbn. split; [done|]. split; constructor. }
  apply Forall_cons in Hall as [(Hstep & Hcid & Hbits) Hall].
  cbn [fst snd] in Hstep, Hcid, Hbits.
  destruct (IH (acc + step)%Q Hall) as (Hlen & Hfs & Hsorted).
  cbn [map Loader.cumsum zip_with fst snd]. cbn zeta in *.
  split; [cbn [length]; f_equal; exact Hlen|]. split.
  - apply Forall_cons_2.
    + cbn [DLC Channel ID Timestamp Data].
      destruct (mock_payload data_int Hbits) as [? ?].
      repeat (split; [done|]). split; [lra|]. done.
    + eapply Forall_impl; [exact Hfs|].
      intros f (? & ? & ? & Ht & ? & ?). repeat (split; [done|]).
      split; [lra|]. done.
  - constructor; [done|].
    eapply Forall_impl; [exact Hfs|].
    intros f (_ & _ & _ & Ht & _). cbn [Timestamp]. exact Ht.
Qed.

(** X25. The mock recording is well shaped. Whatever is drawn, with steps
    above 0, identifiers among the three of the source and integers of 64
    bits, [generate_mock_data] makes one frame per draw, each with declared
    length 8, channel 1, one of the three identifiers and a payload of
    sixteen hex digits, which [bytes.fromhex] reads as 8 bytes and the trace
    view shows as 8 byte lanes; the time stamps are above 0 and strictly
    increasing. *)
Theorem mock_frames_shape (draws : list (Q * Z * Z)) :
  Forall (λ d, (0 < d.1.1)%Q ∧ d.1.2 ∈ Loader.mock_ids ∧ 0 ≤ d.2 < 2 ^ 64)
    draws →
  let fs := Loader.mock_frames draws in
  length fs = length draws
  ∧ Forall (λ f, DLC f = 8 ∧ Channel f = 1 ∧ ID f ∈ Loader.mock_ids
                 ∧ (0 < Timestamp f)%Q
                 ∧ length (payload_bytes (Data f)) = 8%nat
                 ∧ ∃ data_bytes, Py.fromhex (Data f) = Some data_bytes
                                 ∧ length data_bytes = 8%nat) fs
  ∧ StronglySorted (λ a b, (Timestamp a < Timestamp b)%Q) fs.
Proof. intros Hall. by apply (mock_frames_from 0). Qed.

Lemma mock_frames_shape_witness :
  Forall (λ f, DLC f = 8 ∧ length (payload_bytes (Data f)) = 8%nat)
    (Loader.mock_frames [((1 # 100)%Q, 256, 255); ((1 # 50)%Q, 512, 4096)]).
Proof.
  destruct (mock_frames_shape
              [((1 # 100)%Q, 256, 255); ((1 # 50)%Q, 512, 4096)])
    as (_ & H & _).
  - apply Forall_cons_2; [|apply Forall_cons_2; [|apply Forall_nil_2]].
    + split; [reflexivity|]. split; [unfold Loader.mock_ids; set_solver|].
      vm_compute. split; [discriminate|reflexivity].
    + split; [reflexivity|]. split; [unfold Loader.mock_ids; set_solver|].
      vm_compute. split; [discriminate|reflexivity].
  - eapply Forall_impl; [exact H|]. intros f (? & _ & _ & _ & ? & _). done.
Defined.

End HexFacts.
